(** * UBB statement extractor: the extraction engine and the balance validator

    A shallow embedding of [src/models.py] and [src/extractor.py].

    - Python [str] values are lists of Unicode code points; literals are
      written in UTF-8 and decoded by [u].
    - The Unicode tables of the Python runtime (what [\d], [\s], [\w],
      [str.upper], [str.strip] and [int] consult) are an interface,
      [Unicode]; every definition and theorem is generic in it, and
      [latin_cyrillic] is the instance used to run examples.
    - [decimal.Decimal] is a sign, a coefficient and a number of fractional
      digits; sums, differences and comparisons are exact.
    - Python exceptions are the [Raise] results of the [result] monad;
      [date.today()] is an explicit argument. *)

From Stdlib Require Import String Ascii.
From Stdlib Require Import List Sorted Permutation ZArith NArith QArith Qabs Bool Lia Arith.
Import ListNotations.
Close Scope Q_scope.


(** ** Python strings *)

Definition cp := N.
Definition pystr := list cp.

Fixpoint utf8_decode (bs : list N) : pystr :=
  match bs with
  | [] => []
  | b0 :: r0 =>
      if (b0 <? 128)%N then b0 :: utf8_decode r0
      else if (b0 <? 224)%N then
        match r0 with
        | b1 :: r1 => ((b0 mod 32) * 64 + b1 mod 64)%N :: utf8_decode r1
        | [] => []
        end
      else if (b0 <? 240)%N then
        match r0 with
        | b1 :: b2 :: r2 =>
            ((b0 mod 16) * 4096 + (b1 mod 64) * 64 + b2 mod 64)%N :: utf8_decode r2
        | _ => []
        end
      else
        match r0 with
        | b1 :: b2 :: b3 :: r3 =>
            ((b0 mod 8) * 262144 + (b1 mod 64) * 4096 + (b2 mod 64) * 64 + b3 mod 64)%N
              :: utf8_decode r3
        | _ => []
        end
  end.

(** [u "..."] is the Python string literal with that text. *)
Definition u (s : string) : pystr :=
  utf8_decode (map N_of_ascii (list_ascii_of_string s)).
Arguments u s%_string.

Definition ch (s : string) : cp := hd 0%N (u s).
Arguments ch s%_string.

Definition str_eqb (a b : pystr) : bool :=
  if list_eq_dec N.eq_dec a b then true else false.

Fixpoint startswith (s prefix : pystr) : bool :=
  match prefix, s with
  | [], _ => true
  | p :: prefix', c :: s' => (c =? p)%N && startswith s' prefix'
  | _ :: _, [] => false
  end.

(** [sub in s] *)
Fixpoint contains (sub s : pystr) : bool :=
  startswith s sub ||
  match s with
  | [] => false
  | _ :: s' => contains sub s'
  end.

(** [s[a:b]], [s[:b]] and [s[a:]] for non-negative indices. *)
Definition slice (s : pystr) (a b : nat) : pystr := skipn a (firstn b s).
Definition slice_to (s : pystr) (b : nat) : pystr := firstn b s.
Definition slice_from (s : pystr) (a : nat) : pystr := skipn a s.

(** [sep.join(parts)] *)
Fixpoint join (sep : pystr) (parts : list pystr) : pystr :=
  match parts with
  | [] => []
  | [p] => p
  | p :: rest => p ++ sep ++ join sep rest
  end.

(** [s.replace(c, "")] for a one-character [c]. *)
Definition remove_char (c : cp) (s : pystr) : pystr :=
  filter (fun x => negb (x =? c)%N) s.

(** [s.split(c)] for a one-character separator: never empty. *)
Fixpoint split_on (c : cp) (s : pystr) : list pystr :=
  match s with
  | [] => [[]]
  | x :: s' =>
      if (x =? c)%N then [] :: split_on c s'
      else match split_on c s' with
           | [] => [[x]]
           | w :: ws => (x :: w) :: ws
           end
  end.

(** ** The Unicode tables of the runtime *)

Class Unicode := {
  (** [Py_UNICODE_ISDECIMAL]: what [\d] matches and [int]/[Decimal] read *)
  isdecimal : cp -> bool;
  (** the digit value of a decimal character *)
  decimal_value : cp -> Z;
  (** [str.isspace]: what [\s] matches and [strip]/[split] remove *)
  isspace : cp -> bool;
  (** [str.isalnum]: with [_], what [\w] matches *)
  isalnum : cp -> bool;
  (** the (full) uppercase mapping of one character, for [str.upper] *)
  upper_full : cp -> pystr;
  (** the simple case mappings, for [re.IGNORECASE] *)
  lower_simple : cp -> cp;
  upper_simple : cp -> cp
}.

(** The tables restricted to Basic Latin, Latin-1 spaces and the Cyrillic
    block: enough for the statements the extractor is written for. *)
Definition lc_isdecimal (c : cp) : bool := ((48 <=? c) && (c <=? 57))%N.
Definition lc_isspace (c : cp) : bool :=
  (((9 <=? c) && (c <=? 13)) || ((28 <=? c) && (c <=? 32)) || (c =? 133) || (c =? 160))%N.
Definition lc_isupper_range (c : cp) : bool :=
  (((65 <=? c) && (c <=? 90)) || ((1024 <=? c) && (c <=? 1071)))%N.
Definition lc_islower_range (c : cp) : bool :=
  (((97 <=? c) && (c <=? 122)) || ((1072 <=? c) && (c <=? 1119)))%N.
Definition lc_isalnum (c : cp) : bool :=
  lc_isdecimal c || lc_isupper_range c || lc_islower_range c.
Definition lc_upper (c : cp) : cp :=
  if ((97 <=? c) && (c <=? 122))%N then (c - 32)%N
  else if ((1072 <=? c) && (c <=? 1103))%N then (c - 32)%N
  else if ((1104 <=? c) && (c <=? 1119))%N then (c - 80)%N
  else c.
Definition lc_lower (c : cp) : cp :=
  if ((65 <=? c) && (c <=? 90))%N then (c + 32)%N
  else if ((1040 <=? c) && (c <=? 1071))%N then (c + 32)%N
  else if ((1024 <=? c) && (c <=? 1039))%N then (c + 80)%N
  else c.

#[export] Instance latin_cyrillic : Unicode := {
  isdecimal := lc_isdecimal;
  decimal_value := fun c => (Z.of_N c - 48)%Z;
  isspace := lc_isspace;
  isalnum := lc_isalnum;
  upper_full := fun c => [lc_upper c];
  lower_simple := lc_lower;
  upper_simple := lc_upper
}.

(** ** Exceptions *)

Inductive exn : Type :=
| ValueError          (* [int], [date] *)
| InvalidOperation    (* [Decimal] *)
| IndexError.         (* list subscript *)

Inductive result (A : Type) : Type :=
| Ok (a : A)
| Raise (e : exn).
Arguments Ok {A} a.
Arguments Raise {A} e.

Definition bind {A B} (m : result A) (f : A -> result B) : result B :=
  match m with
  | Ok a => f a
  | Raise e => Raise e
  end.

Declare Scope py_scope.
Delimit Scope py_scope with py.
Notation "x <- m ;; k" := (bind m (fun x => k))
  (at level 61, m at next level, right associativity) : py_scope.
Open Scope py_scope.

(** [l[i]] *)
Definition subscript {A} (l : list A) (i : nat) : result A :=
  match nth_error l i with
  | Some a => Ok a
  | None => Raise IndexError
  end.

Section Strings.
Context {U : Unicode}.

(** [s.upper()] *)
Definition upper (s : pystr) : pystr := flat_map upper_full s.

Fixpoint lstrip (s : pystr) : pystr :=
  match s with
  | c :: s' => if isspace c then lstrip s' else s
  | [] => []
  end.

Definition rstrip (s : pystr) : pystr := rev (lstrip (rev s)).

(** [s.strip()] *)
Definition strip (s : pystr) : pystr := rstrip (lstrip s).

(** The words of [s]: [s.split()]. [cur] is the word being read, reversed. *)
Fixpoint split_ws_aux (cur : pystr) (s : pystr) : list pystr :=
  match s with
  | [] => match cur with [] => [] | _ => [rev cur] end
  | c :: s' =>
      if isspace c then
        match cur with
        | [] => split_ws_aux [] s'
        | _ => rev cur :: split_ws_aux [] s'
        end
      else split_ws_aux (c :: cur) s'
  end.

Definition split_ws (s : pystr) : list pystr := split_ws_aux [] s.

(** The first word of [s] and what is left of [s] after it. *)
Fixpoint take_word (s : pystr) : pystr * pystr :=
  match s with
  | [] => ([], [])
  | c :: s' =>
      if isspace c then ([], s)
      else let (w, r) := take_word s' in (c :: w, r)
  end.

(** [s.split(None, 1)] *)
Definition split_ws1 (s : pystr) : list pystr :=
  match lstrip s with
  | [] => []
  | s1 =>
      let (w, r) := take_word s1 in
      match lstrip r with
      | [] => [w]
      | r' => [w; r']
      end
  end.

(** [int(s)] for a string of decimal digits (of any length: the digit
    limit of recent interpreters is not modelled). *)
Definition digits_value (s : pystr) : Z :=
  fold_left (fun acc c => (acc * 10 + decimal_value c)%Z) s 0%Z.

Definition int (s : pystr) : result Z :=
  match s with
  | [] => Raise ValueError
  | _ => if forallb isdecimal s then Ok (digits_value s) else Raise ValueError
  end.

End Strings.

(** ** [decimal.Decimal]

    A finite decimal: sign, coefficient, and the number of digits after the
    point (the exponent negated; the parser never produces a positive
    exponent). Arithmetic is exact here. Python rounds a sum or an absolute
    value to the 28 significant digits of the default context, which
    amounts of money with two decimals do not reach. *)

Record Decimal : Type := mkDecimal {
  d_neg : bool;
  d_coef : N;
  d_scale : nat
}.

Definition pow10 (n : nat) : Z := (10 ^ Z.of_nat n)%Z.

Definition d_signed (d : Decimal) : Z :=
  if d_neg d then (- Z.of_N (d_coef d))%Z else Z.of_N (d_coef d).

(** The signed coefficient of [d] once written with [s] fractional digits,
    [d_scale d <= s]. *)
Definition d_align (s : nat) (d : Decimal) : Z :=
  (d_signed d * pow10 (s - d_scale d))%Z.

(** [Decimal("0")] *)
Definition Decimal_0 : Decimal := mkDecimal false 0 0.

(** [a + b]: the exponent is the smaller one; a zero sum is negative only
    when both operands are. *)
Definition d_add (a b : Decimal) : Decimal :=
  let s := Nat.max (d_scale a) (d_scale b) in
  let z := (d_align s a + d_align s b)%Z in
  mkDecimal (if (z =? 0)%Z then d_neg a && d_neg b else (z <? 0)%Z)
            (Z.abs_N z) s.

Definition d_negate (a : Decimal) : Decimal :=
  mkDecimal (negb (d_neg a)) (d_coef a) (d_scale a).

(** [a - b] is [a + (-b)]. *)
Definition d_sub (a b : Decimal) : Decimal := d_add a (d_negate b).

(** [abs(a)] *)
Definition d_abs (a : Decimal) : Decimal :=
  mkDecimal false (d_coef a) (d_scale a).

Definition d_compare (a b : Decimal) : comparison :=
  let s := Nat.max (d_scale a) (d_scale b) in
  (d_align s a ?= d_align s b)%Z.

(** [a > b] and [a < b] *)
Definition d_gt (a b : Decimal) : bool :=
  match d_compare a b with Gt => true | _ => false end.
Definition d_lt (a b : Decimal) : bool :=
  match d_compare a b with Lt => true | _ => false end.

(** The number a [Decimal] denotes. *)
Definition d_val (d : Decimal) : Q :=
  inject_Z (d_signed d) / inject_Z (pow10 (d_scale d)).

(** *** [format(d, ".2f")] *)

(** The coefficient rounded to [places] fractional digits, half to even. *)
Definition round_half_even (coef : N) (scale places : nat) : N :=
  if (scale <=? places)%nat then (coef * Z.to_N (pow10 (places - scale)))%N
  else
    let m := Z.to_N (pow10 (scale - places)) in
    let q := (coef / m)%N in
    let r := (coef mod m)%N in
    match (2 * r ?= m)%N with
    | Lt => q
    | Gt => (q + 1)%N
    | Eq => if N.even q then q else (q + 1)%N
    end.

Definition digit_char (n : N) : cp := (48 + n)%N.

(** The decimal digits of [n], most significant first; [fuel] bounds their
    number. *)
Fixpoint digits_of (fuel : nat) (n : N) (acc : pystr) : pystr :=
  match fuel with
  | O => acc
  | S fuel' =>
      let acc' := digit_char (n mod 10) :: acc in
      if (n <? 10)%N then acc' else digits_of fuel' (n / 10) acc'
  end.

Definition str_of_N (n : N) : pystr := digits_of (S (N.to_nat (N.log2 n))) n [].

Definition format_2f (d : Decimal) : pystr :=
  let c := round_half_even (d_coef d) (d_scale d) 2 in
  (if d_neg d then u "-" else [])
    ++ str_of_N (c / 100) ++ u "."
    ++ [digit_char ((c / 10) mod 10); digit_char (c mod 10)].

Section DecimalOfStr.
Context {U : Unicode}.

(** The longest prefix of decimal digits of [s], and the rest. *)
Fixpoint span_digits (s : pystr) : pystr * pystr :=
  match s with
  | c :: s' =>
      if isdecimal c then let (ds, r) := span_digits s' in (c :: ds, r)
      else ([], s)
  | [] => ([], [])
  end.

(** [Decimal(s)] on the strings the extractor builds: an optional sign,
    digits with at most one point, at least one digit. Anything else is a
    conversion syntax error, and [InvalidOperation] is raised. *)
Definition Decimal_of_str (s : pystr) : result Decimal :=
  let (neg, body) :=
    match s with
    | c :: s' =>
        if (c =? ch "-")%N then (true, s')
        else if (c =? ch "+")%N then (false, s')
        else (false, s)
    | [] => (false, [])
    end in
  let (ip, r) := span_digits body in
  let (fp, r') :=
    match r with
    | c :: r1 => if (c =? ch ".")%N then
                   let (fp, r2) := span_digits r1 in (fp, r2)
                 else ([], r)
    | [] => ([], [])
    end in
  match r', ip ++ fp with
  | [], _ :: _ =>
      Ok (mkDecimal neg (Z.to_N (digits_value (ip ++ fp))) (length fp))
  | _, _ => Raise InvalidOperation
  end.

End DecimalOfStr.

(** ** [datetime.date] *)

Record date : Type := mkDate {
  year : Z;
  month : Z;
  day : Z
}.

Definition is_leap (y : Z) : bool :=
  ((y mod 4 =? 0) && (negb (y mod 100 =? 0) || (y mod 400 =? 0)))%Z.

Definition days_in_month (y m : Z) : Z :=
  if (m =? 2)%Z then (if is_leap y then 29 else 28)%Z
  else if ((m =? 4) || (m =? 6) || (m =? 9) || (m =? 11))%Z then 30%Z
  else 31%Z.

(** [date(y, m, d)]: [ValueError] outside the calendar. *)
Definition new_date (y m d : Z) : result date :=
  if ((1 <=? y) && (y <=? 9999) && (1 <=? m) && (m <=? 12)
      && (1 <=? d) && (d <=? days_in_month y m))%Z
  then Ok (mkDate y m d)
  else Raise ValueError.

(** ** The records of [models.py] *)

Inductive TransactionType : Type :=
| SEPA_INCOMING
| SEPA_OUTGOING
| CARD_TRANSACTION
| FEE
| TRANSFER_FEE
| INTERNAL_TRANSFER
| CURRENCY_EXCHANGE
| UNKNOWN.

Record Balance : Type := mkBalance {
  eur : Decimal;
  bgn : Decimal
}.

Record Turnover : Type := mkTurnover {
  debit : Balance;
  credit : Balance
}.

Record AccountHolder : Type := mkAccountHolder {
  code : pystr;
  name : pystr;
  address : pystr
}.

Record Period : Type := mkPeriod {
  from_date : date;
  to_date : date
}.

Record Counterparty : Type := mkCounterparty {
  cp_name : option pystr;
  cp_reference : option pystr;
  cp_bank : option pystr;
  cp_iban : option pystr
}.

Record Transaction : Type := mkTransaction {
  posting_date : date;
  value_date : date;
  reference : pystr;
  type : TransactionType;
  description : pystr;
  raw_description : pystr;
  counterparty : option Counterparty;
  amount : Balance;
  is_debit : bool
}.

Record StatementInfo : Type := mkStatementInfo {
  bank : pystr;
  account_holder : AccountHolder;
  iban : pystr;
  currency : pystr;
  period : Period;
  statement_number : Z;
  statement_date : date;
  opening_balance : Balance;
  closing_balance : Balance;
  turnover : Turnover;
  accumulated_turnover : Turnover
}.

Record ValidationResult : Type := mkValidationResult {
  is_valid : bool;
  errors : list pystr;
  warnings : list pystr;
  calculated_closing_eur : Decimal;
  calculated_closing_bgn : Decimal;
  expected_closing_eur : Decimal;
  expected_closing_bgn : Decimal;
  total_debit_eur : Decimal;
  total_credit_eur : Decimal;
  total_debit_bgn : Decimal;
  total_credit_bgn : Decimal
}.

Record BankStatement : Type := mkBankStatement {
  statement : StatementInfo;
  transactions : list Transaction
}.

(** ** [BankStatement.validate_balance] *)

(** The four running totals of the loop over the transactions. *)
Record Totals : Type := mkTotals {
  t_debit_eur : Decimal;
  t_credit_eur : Decimal;
  t_debit_bgn : Decimal;
  t_credit_bgn : Decimal
}.

Definition add_transaction (t : Totals) (tx : Transaction) : Totals :=
  if is_debit tx then
    mkTotals (d_add (t_debit_eur t) (eur (amount tx))) (t_credit_eur t)
             (d_add (t_debit_bgn t) (bgn (amount tx))) (t_credit_bgn t)
  else
    mkTotals (t_debit_eur t) (d_add (t_credit_eur t) (eur (amount tx)))
             (t_debit_bgn t) (d_add (t_credit_bgn t) (bgn (amount tx))).

Definition sum_transactions (txs : list Transaction) : Totals :=
  fold_left add_transaction txs
    (mkTotals Decimal_0 Decimal_0 Decimal_0 Decimal_0).

Definition eur_tolerance : Decimal := mkDecimal false 2 2.    (* Decimal("0.02") *)
Definition bgn_tolerance : Decimal := mkDecimal false 10 2.   (* Decimal("0.10") *)

Definition eur_mismatch_message (calculated expected diff : Decimal) : pystr :=
  u "EUR balance mismatch: calculated " ++ format_2f calculated
    ++ u ", expected " ++ format_2f expected
    ++ u ", diff " ++ format_2f diff.

Definition bgn_mismatch_message (calculated expected diff : Decimal) : pystr :=
  u "BGN balance mismatch: calculated " ++ format_2f calculated
    ++ u ", expected " ++ format_2f expected
    ++ u ", diff " ++ format_2f diff.

Definition debit_turnover_message (total reported : Decimal) : pystr :=
  u "Debit turnover mismatch: transactions sum " ++ format_2f total
    ++ u ", reported " ++ format_2f reported.

Definition credit_turnover_message (total reported : Decimal) : pystr :=
  u "Credit turnover mismatch: transactions sum " ++ format_2f total
    ++ u ", reported " ++ format_2f reported.

Definition validate_balance (self : BankStatement) : ValidationResult :=
  let errors : list pystr := [] in
  let warnings : list pystr := [] in
  let totals := sum_transactions (transactions self) in
  let total_debit_eur := t_debit_eur totals in
  let total_credit_eur := t_credit_eur totals in
  let total_debit_bgn := t_debit_bgn totals in
  let total_credit_bgn := t_credit_bgn totals in
  let opening := opening_balance (statement self) in
  let calculated_closing_eur := d_sub (d_add (eur opening) total_credit_eur) total_debit_eur in
  let calculated_closing_bgn := d_sub (d_add (bgn opening) total_credit_bgn) total_debit_bgn in
  let expected := closing_balance (statement self) in
  let eur_diff := d_abs (d_sub calculated_closing_eur (eur expected)) in
  let bgn_diff := d_abs (d_sub calculated_closing_bgn (bgn expected)) in
  let errors :=
    if d_gt eur_diff eur_tolerance
    then errors ++ [eur_mismatch_message calculated_closing_eur (eur expected) eur_diff]
    else errors in
  let errors :=
    if d_gt bgn_diff bgn_tolerance
    then errors ++ [bgn_mismatch_message calculated_closing_bgn (bgn expected) bgn_diff]
    else errors in
  let turnover := turnover (statement self) in
  let debit_eur_diff := d_abs (d_sub total_debit_eur (eur (debit turnover))) in
  let credit_eur_diff := d_abs (d_sub total_credit_eur (eur (credit turnover))) in
  let warnings :=
    if d_gt debit_eur_diff eur_tolerance
    then warnings ++ [debit_turnover_message total_debit_eur (eur (debit turnover))]
    else warnings in
  let warnings :=
    if d_gt credit_eur_diff eur_tolerance
    then warnings ++ [credit_turnover_message total_credit_eur (eur (credit turnover))]
    else warnings in
  mkValidationResult
    (Nat.eqb (length errors) 0)
    errors warnings
    calculated_closing_eur calculated_closing_bgn
    (eur expected) (bgn expected)
    total_debit_eur total_credit_eur total_debit_bgn total_credit_bgn.

(** ** Regular expressions: the fragment of [re] the extractor uses

    A backtracking matcher with the search order of [re]: alternatives left
    to right, greedy repetitions longest first, lazy ones shortest first.
    Every repetition in the extractor's patterns is over a single-character
    class, which is what [Rep] repeats. *)

Inductive set_item : Type :=
| IChar (c : cp)
| IRange (lo hi : cp)
| IDigit            (* \d *)
| ISpace            (* \s *)
| IWord.            (* \w *)

Inductive atom : Type :=
| AChar (c : cp)
| AAny                          (* . *)
| ASet (items : list set_item). (* [...] *)

Inductive regex : Type :=
| Empty
| Lit (s : pystr)
| One (a : atom)
| Rep (a : atom) (lo : nat) (hi : option nat) (greedy : bool)
| Seq (r1 r2 : regex)
| Alt (r1 r2 : regex)
| Group (i : nat) (r : regex)   (* the i-th capturing group *)
| Bol                           (* ^ *)
| Eol                           (* $ *)
| Lookahead (r : regex).        (* (?=...) *)

Record flags : Type := mkFlags {
  MULTILINE : bool;
  DOTALL : bool;
  IGNORECASE : bool
}.

Definition no_flags : flags := mkFlags false false false.

(** A compiled pattern. *)
Record pattern : Type := mkPattern {
  p_regex : regex;
  p_flags : flags
}.

(** The matcher's position in the subject: the index, the character before
    it, what is left, and the groups closed so far. *)
Record mstate : Type := mkMstate {
  ms_pos : nat;
  ms_prev : option cp;
  ms_rest : pystr;
  ms_groups : list (nat * (nat * nat))
}.

Definition newline : cp := 10%N.

Section Regex.
Context {U : Unicode}.

Definition item_matches (it : set_item) (c : cp) : bool :=
  match it with
  | IChar x => (c =? x)%N
  | IRange lo hi => ((lo <=? c) && (c <=? hi))%N
  | IDigit => isdecimal c
  | ISpace => isspace c
  | IWord => isalnum c || (c =? ch "_")%N
  end.

Definition set_matches (items : list set_item) (c : cp) : bool :=
  existsb (fun it => item_matches it c) items.

(** Under [IGNORECASE] a literal and the characters of a set are compared
    in lower case (the sets of the two patterns compiled with the flag have
    no range); [.] and the classes are not affected. *)
Definition item_matches_ignorecase (it : set_item) (c : cp) : bool :=
  match it with
  | IChar x => (lower_simple c =? lower_simple x)%N
  | IRange _ _ => item_matches it (lower_simple c) || item_matches it (upper_simple c)
  | _ => item_matches it c
  end.

Definition atom_matches (fl : flags) (a : atom) (c : cp) : bool :=
  match a with
  | AChar x =>
      if IGNORECASE fl then (lower_simple c =? lower_simple x)%N else (c =? x)%N
  | AAny => DOTALL fl || negb (c =? newline)%N
  | ASet items =>
      if IGNORECASE fl then existsb (fun it => item_matches_ignorecase it c) items
      else set_matches items c
  end.

Definition char_matches (fl : flags) (x c : cp) : bool :=
  atom_matches fl (AChar x) c.

Fixpoint lit_match (fl : flags) (s : pystr) (pos : nat) (prev : option cp)
    (rest : pystr) : option (nat * option cp * pystr) :=
  match s with
  | [] => Some (pos, prev, rest)
  | x :: s' =>
      match rest with
      | c :: rest' =>
          if char_matches fl x c then lit_match fl s' (S pos) (Some c) rest'
          else None
      | [] => None
      end
  end.

Definition may_repeat (hi : option nat) : bool :=
  match hi with
  | Some O => false
  | _ => true
  end.

(** Between [lo] and [hi] characters satisfying [p], then [k]. *)
Fixpoint rep_match (p : cp -> bool) (greedy : bool) (lo : nat) (hi : option nat)
    (k : mstate -> option mstate)
    (pos : nat) (prev : option cp) (groups : list (nat * (nat * nat)))
    (rest : pystr) {struct rest} : option mstate :=
  match rest with
  | [] =>
      match lo with
      | O => k (mkMstate pos prev [] groups)
      | S _ => None
      end
  | c :: rest' =>
      match lo with
      | S lo' =>
          if p c && may_repeat hi
          then rep_match p greedy lo' (option_map pred hi) k (S pos) (Some c) groups rest'
          else None
      | O =>
          if p c && may_repeat hi then
            if greedy then
              match rep_match p greedy O (option_map pred hi) k (S pos) (Some c) groups rest' with
              | Some r => Some r
              | None => k (mkMstate pos prev rest groups)
              end
            else
              match k (mkMstate pos prev rest groups) with
              | Some r => Some r
              | None => rep_match p greedy O (option_map pred hi) k (S pos) (Some c) groups rest'
              end
          else k (mkMstate pos prev rest groups)
      end
  end.

Definition at_bol (fl : flags) (st : mstate) : bool :=
  match ms_prev st with
  | None => true
  | Some c => MULTILINE fl && (c =? newline)%N
  end.

Definition at_eol (fl : flags) (st : mstate) : bool :=
  match ms_rest st with
  | [] => true
  | c :: rest' =>
      (c =? newline)%N && (MULTILINE fl || match rest' with [] => true | _ => false end)
  end.

Fixpoint rmatch (fl : flags) (r : regex) (k : mstate -> option mstate)
    (st : mstate) {struct r} : option mstate :=
  match r with
  | Empty => k st
  | Lit s =>
      match lit_match fl s (ms_pos st) (ms_prev st) (ms_rest st) with
      | Some (pos, prev, rest) => k (mkMstate pos prev rest (ms_groups st))
      | None => None
      end
  | One a =>
      match ms_rest st with
      | c :: rest' =>
          if atom_matches fl a c
          then k (mkMstate (S (ms_pos st)) (Some c) rest' (ms_groups st))
          else None
      | [] => None
      end
  | Rep a lo hi greedy =>
      rep_match (atom_matches fl a) greedy lo hi k
        (ms_pos st) (ms_prev st) (ms_groups st) (ms_rest st)
  | Seq r1 r2 => rmatch fl r1 (rmatch fl r2 k) st
  | Alt r1 r2 =>
      match rmatch fl r1 k st with
      | Some res => Some res
      | None => rmatch fl r2 k st
      end
  | Group i r1 =>
      rmatch fl r1
        (fun st' => k (mkMstate (ms_pos st') (ms_prev st') (ms_rest st')
                         ((i, (ms_pos st, ms_pos st')) :: ms_groups st')))
        st
  | Bol => if at_bol fl st then k st else None
  | Eol => if at_eol fl st then k st else None
  | Lookahead r1 =>
      match rmatch fl r1 Some st with
      | Some _ => k st
      | None => None
      end
  end.

(** A match object: the subject, the span of the match, the groups. *)
Record Match : Type := mkMatch {
  m_string : pystr;
  m_start : nat;
  m_end : nat;
  m_groups : list (nat * (nat * nat))
}.

Fixpoint lookup_group (i : nat) (gs : list (nat * (nat * nat))) : option (nat * nat) :=
  match gs with
  | [] => None
  | (j, span) :: gs' => if Nat.eqb i j then Some span else lookup_group i gs'
  end.

(** [m.group(i)]; every group of the patterns below lies on the spine of
    its pattern, so it is set in every match. *)
Definition group (m : Match) (i : nat) : pystr :=
  match lookup_group i (m_groups m) with
  | Some (a, b) => slice (m_string m) a b
  | None => []
  end.

Definition match_here (p : pattern) (subject : pystr) (pos : nat) (prev : option cp)
    (rest : pystr) : option Match :=
  match rmatch (p_flags p) (p_regex p) Some (mkMstate pos prev rest []) with
  | Some st => Some (mkMatch subject pos (ms_pos st) (ms_groups st))
  | None => None
  end.

Fixpoint search_from (p : pattern) (subject : pystr) (pos : nat) (prev : option cp)
    (rest : pystr) : option Match :=
  match match_here p subject pos prev rest with
  | Some m => Some m
  | None =>
      match rest with
      | [] => None
      | c :: rest' => search_from p subject (S pos) (Some c) rest'
      end
  end.

(** [p.search(s)]: the leftmost match. *)
Definition re_search (p : pattern) (s : pystr) : option Match :=
  search_from p s 0 None s.

(** [p.match(s)]: a match at the start of [s]. *)
Definition re_match (p : pattern) (s : pystr) : option Match :=
  match_here p s 0 None s.

(** [list(p.finditer(s))]: the successive non-overlapping matches. [skip]
    counts the characters still covered by the last match. *)
Fixpoint finditer_from (p : pattern) (subject : pystr) (skip : nat) (pos : nat)
    (prev : option cp) (rest : pystr) : list Match :=
  match skip with
  | S skip' =>
      match rest with
      | [] => []
      | c :: rest' => finditer_from p subject skip' (S pos) (Some c) rest'
      end
  | O =>
      match match_here p subject pos prev rest with
      | Some m =>
          m :: match rest with
               | [] => []
               | c :: rest' =>
                   finditer_from p subject (pred (m_end m - pos)) (S pos) (Some c) rest'
               end
      | None =>
          match rest with
          | [] => []
          | c :: rest' => finditer_from p subject 0 (S pos) (Some c) rest'
          end
      end
  end.

Definition re_finditer (p : pattern) (s : pystr) : list Match :=
  finditer_from p s 0 0 None s.

End Regex.

(** *** Writing patterns *)

Definition digit : atom := ASet [IDigit].
Definition space : atom := ASet [ISpace].
Definition word : atom := ASet [IWord].
Definition star (a : atom) : regex := Rep a 0 None true.
Definition plus (a : atom) : regex := Rep a 1 None true.
Definition plus_lazy (a : atom) : regex := Rep a 1 None false.
Definition opt (a : atom) : regex := Rep a 0 (Some 1) true.
Definition times (n : nat) (a : atom) : regex := Rep a n (Some n) true.
Definition lit (s : string) : regex := Lit (u s).
Arguments lit s%_string.
Fixpoint seq (rs : list regex) : regex :=
  match rs with
  | [] => Empty
  | [r] => r
  | r :: rs' => Seq r (seq rs')
  end.
Definition compile (rs : list regex) : pattern := mkPattern (seq rs) no_flags.
Definition compile_with (fl : flags) (rs : list regex) : pattern := mkPattern (seq rs) fl.

(** [[\d,\.]] *)
Definition amount_char : atom := ASet [IDigit; IChar (ch ","); IChar (ch ".")].

(** ** [UBBStatementExtractor]: patterns and field parsers *)

Definition ACCOUNT_HOLDER_PATTERN : pattern :=
  compile [lit "Титуляр на сметката"; plus space; Group 1 (plus digit); plus space;
           Group 2 (plus_lazy AAny);
           Alt (Seq (plus space) (times 4 digit)) (Seq (plus space) (lit "ДАО"))].

Definition IBAN_PATTERN : pattern :=
  compile [lit "IBAN:"; star space; Group 1 (Seq (lit "BG") (plus word))].

Definition CURRENCY_PATTERN : pattern :=
  compile [lit "Валута"; plus space;
           Group 1 (times 3 (ASet [IRange (ch "A") (ch "Z")]))].

Definition PERIOD_PATTERN : pattern :=
  compile [lit "Период на извлечението:"; star space; lit "ОТ"; plus space;
           Group 1 (times 2 digit); plus space; Group 2 (plus word); plus space;
           Group 3 (times 4 digit); plus space; lit "ДО"; plus space;
           Group 4 (times 2 digit); plus space; Group 5 (plus word); plus space;
           Group 6 (times 4 digit)].

Definition STATEMENT_NUM_PATTERN : pattern :=
  compile [lit "Пореден номер / Дата:"; star space; Group 1 (plus digit); star space;
           lit "/"; star space; Group 2 (times 2 digit); plus space;
           Group 3 (plus word); plus space; Group 4 (times 4 digit)].

Definition ADDRESS_PATTERN : pattern :=
  compile_with (mkFlags false true false)
    [lit "Адрес"; plus space; Group 1 (plus_lazy AAny); Lookahead (lit "IBAN:")].

(** [<label>\s*([\d,\.]+)\s*EUR\s*/\s*([\d,\.]+)\s*BGN] *)
Definition eur_bgn_pair (label : list regex) : list regex :=
  label ++ [star space; Group 1 (plus amount_char); star space; lit "EUR"; star space;
            lit "/"; star space; Group 2 (plus amount_char); star space; lit "BGN"].

Definition OPENING_BALANCE_PATTERN : pattern :=
  compile (eur_bgn_pair [lit "Начално салдо:"]).

Definition CLOSING_BALANCE_PATTERN : pattern :=
  compile (eur_bgn_pair [lit "Крайно салдо:"]).

Definition TURNOVER_DEBIT_PATTERN : pattern :=
  compile_with (mkFlags true false false) (eur_bgn_pair [Bol; lit "Дебит:"]).

Definition TURNOVER_CREDIT_PATTERN : pattern :=
  compile_with (mkFlags true false false) (eur_bgn_pair [Bol; lit "Кредит:"]).

Definition ACCUMULATED_DEBIT_PATTERN : pattern :=
  compile (eur_bgn_pair [lit "BGN"; plus space; lit "Дебит:"]).

Definition ALL_CREDITS_PATTERN : pattern :=
  compile (eur_bgn_pair [lit "Кредит:"]).

Definition TRANSACTION_DATE_PATTERN : pattern :=
  compile [Bol;
           Group 1 (seq [times 2 digit; lit "/"; times 2 digit; lit "/"; times 2 digit]);
           plus space;
           Group 2 (seq [times 2 digit; lit "/"; times 2 digit]);
           plus space].

Definition AMOUNT_PATTERN : pattern :=
  compile [Group 1 (Seq (opt (AChar (ch "-"))) (plus amount_char)); star space;
           lit "EUR"; star space; lit "/"; star space;
           Group 2 (Seq (opt (AChar (ch "-"))) (plus amount_char)); star space;
           lit "BGN"; star space; Eol].

Definition MONTH_MAP : list (pystr * Z) :=
  [(u "ЯНУ", 1); (u "ФЕВ", 2); (u "МАР", 3); (u "АПР", 4); (u "МАЙ", 5); (u "ЮНИ", 6);
   (u "ЮЛИ", 7); (u "АВГ", 8); (u "СЕП", 9); (u "ОКТ", 10); (u "НОЕ", 11); (u "ДЕК", 12)]%Z.

(** [d.get(key, default)] *)
Fixpoint dict_get {V} (d : list (pystr * V)) (key : pystr) (default : V) : V :=
  match d with
  | [] => default
  | (k, v) :: d' => if str_eqb k key then v else dict_get d' key default
  end.

Section Extractor.
Context {U : Unicode}.

Definition _parse_month (month_str : pystr) : Z :=
  dict_get MONTH_MAP (upper month_str) 1%Z.

Definition _parse_date (day month year : pystr) : result date :=
  y <- int year ;;
  d <- int day ;;
  new_date y (_parse_month month) d.

Definition _parse_short_date (date_str : pystr) (year : Z) : result date :=
  let parts := split_on (ch "/") date_str in
  p1 <- subscript parts 1 ;;
  m <- int p1 ;;
  p0 <- subscript parts 0 ;;
  d <- int p0 ;;
  new_date year m d.

Definition _parse_posting_date (date_str : pystr) : result date :=
  let parts := split_on (ch "/") date_str in
  p2 <- subscript parts 2 ;;
  yy <- int p2 ;;
  let year := (2000 + yy)%Z in
  p1 <- subscript parts 1 ;;
  m <- int p1 ;;
  p0 <- subscript parts 0 ;;
  d <- int p0 ;;
  new_date year m d.

Definition _parse_decimal (value : pystr) : result Decimal :=
  let cleaned := remove_char (ch " ") (remove_char (ch ",") value) in
  Decimal_of_str cleaned.

(** *** The type classifier *)

Definition _detect_transaction_type (description : pystr) : TransactionType :=
  let desc_upper := upper description in
  if contains (u "СЕПА ПОЛУЧЕН") desc_upper then SEPA_INCOMING
  else if contains (u "ИЗХОДЯЩ ВАЛУТЕН ПРЕВОД") desc_upper
          || contains (u "ИЗХОДЯЩ") desc_upper then SEPA_OUTGOING
  else if contains (u "КАРТОВА ТРАНЗАКЦИЯ") desc_upper then CARD_TRANSACTION
  else if contains (u "СЪБРАНА ТАКСА ИЛИ КОМИСИОНА") desc_upper then FEE
  else if contains (u "ТАКСА ИЗХ.") desc_upper
          || contains (u "ТАКСА") desc_upper then TRANSFER_FEE
  else if contains (u "ПРЕВОД") desc_upper then INTERNAL_TRANSFER
  else if contains (u "ПРОДАЖБА НА ВАЛУТА") desc_upper
          || contains (u "ПОКУПКА НА ВАЛУТА") desc_upper then CURRENCY_EXCHANGE
  else UNKNOWN.

(** *** The counterparty extractor *)

Definition SKIP_COUNTERPARTY_PATTERNS : list pattern :=
  [ compile [Bol; lit "КАРТОВА ТРАНЗАКЦИЯ"; Eol];
    compile [Bol; Group 1 (Alt (lit "PO") (Alt (lit "SI") (Alt (lit "VI") (lit "R1"))));
             times 6 digit; Eol];
    compile [Bol; times 8 digit; lit "-"; plus digit; lit "-"; plus digit; Eol];
    compile [Bol; times 8 digit; lit "-"; One (ASet [IRange (ch "A") (ch "Z")]);
             plus digit; lit "-"; plus digit; Eol];
    compile [Bol; times 4 digit; lit "X"; times 4 digit; lit "-"; plus digit; lit "-";
             plus digit; Eol];
    compile [Bol; lit "ПРЕВОД"; Eol] ].

Definition BANK_PATTERN : pattern :=
  compile_with (mkFlags false false true)
    [lit "ОТ БАНКА"; star space; plus (ASet [IChar (ch ":"); ISpace]); Group 1 (plus AAny)].

Definition COUNTERPARTY_IBAN_PATTERN : pattern :=
  compile [Group 1 (seq [lit "BG"; times 2 digit;
                         times 4 (ASet [IRange (ch "A") (ch "Z")]);
                         Rep digit 10 (Some 16) true])].

Definition LONG_NUMBER_PATTERN : pattern :=
  compile [Bol; Rep digit 7 None true; Eol].

Definition MERCHANT_PATTERN : pattern :=
  compile [Bol;
           plus (ASet [IRange (ch "A") (ch "Z"); IRange (ch "0") (ch "9"); ISpace;
                       IChar (ch "-")]);
           lit "-";
           plus (ASet [IRange (ch "A") (ch "Z"); ISpace; IChar (ch ".")]);
           lit "-";
           Group 1 (Alt (lit "BG") (Alt (lit "RO") (Alt (lit "GR") (lit "TR"))));
           Eol].

Definition NUMERIC_PUNCT_PATTERN : pattern :=
  compile [Bol;
           plus (ASet [IDigit; IChar (ch "-"); IChar (ch "/"); IChar (ch "."); ISpace]);
           Eol].

Definition INVOICE_PATTERN : pattern :=
  compile_with (mkFlags false false true)
    [One (ASet [IChar (ch "Ф"); IChar (ch "F")]); One (ASet [IChar (ch "."); ISpace])].

Definition ALL_DIGITS_PATTERN : pattern :=
  compile [Bol; plus digit; Eol].

(** The truth value of an [Optional[str]]. *)
Definition truthy (o : option pystr) : bool :=
  match o with
  | Some (_ :: _) => true
  | _ => false
  end.

Definition is_some {A} (o : option A) : bool :=
  match o with
  | Some _ => true
  | None => false
  end.

Definition TransactionType_eqb (a b : TransactionType) : bool :=
  match a, b with
  | SEPA_INCOMING, SEPA_INCOMING | SEPA_OUTGOING, SEPA_OUTGOING
  | CARD_TRANSACTION, CARD_TRANSACTION | FEE, FEE | TRANSFER_FEE, TRANSFER_FEE
  | INTERNAL_TRANSFER, INTERNAL_TRANSFER | CURRENCY_EXCHANGE, CURRENCY_EXCHANGE
  | UNKNOWN, UNKNOWN => true
  | _, _ => false
  end.

(** One turn of the loop over [description_lines], for a line other than
    the first; [cpy] holds [name], [reference], [bank] and [iban]. *)
Definition counterparty_line (tx_type : TransactionType) (cpy : Counterparty)
    (line : pystr) : Counterparty :=
  let name := cp_name cpy in
  let reference := cp_reference cpy in
  let bank := cp_bank cpy in
  let iban := cp_iban cpy in
  let line := strip line in
  match line with
  | [] => cpy
  | _ =>
    if contains (u "ОТ БАНКА") (upper line) then
      match re_search BANK_PATTERN line with
      | Some bank_match => mkCounterparty name reference (Some (strip (group bank_match 1))) iban
      | None => cpy
      end
    else
    match re_search COUNTERPARTY_IBAN_PATTERN line with
    | Some iban_match => mkCounterparty name reference bank (Some (group iban_match 1))
    | None =>
      if existsb (fun p => is_some (re_match p line)) SKIP_COUNTERPARTY_PATTERNS then cpy
      else if is_some (re_match LONG_NUMBER_PATTERN line) then
        if negb (truthy reference) then mkCounterparty name (Some line) bank iban else cpy
      else if TransactionType_eqb tx_type CARD_TRANSACTION
              && is_some (re_match MERCHANT_PATTERN line) then
        if negb (truthy name) then mkCounterparty (Some line) reference bank iban else cpy
      else if negb (truthy name) && (2 <? length line)%nat
              && negb (is_some (re_match NUMERIC_PUNCT_PATTERN line)) then
        mkCounterparty (Some line) reference bank iban
      else if negb (truthy reference) && truthy name then
        if is_some (re_search INVOICE_PATTERN line) then
          mkCounterparty name (Some line) bank iban
        else if is_some (re_match ALL_DIGITS_PATTERN line) then
          mkCounterparty name (Some line) bank iban
        else cpy
      else cpy
    end
  end.

Definition _extract_counterparty (description_lines : list pystr)
    (tx_type : TransactionType) : option Counterparty :=
  let cpy := fold_left (counterparty_line tx_type) (tl description_lines)
               (mkCounterparty None None None None) in
  if truthy (cp_name cpy) || truthy (cp_reference cpy)
     || truthy (cp_bank cpy) || truthy (cp_iban cpy)
  then Some cpy
  else None.

End Extractor.

(** ** Header, footer, transactions, and the whole parse *)

Record Header : Type := mkHeader {
  h_account_holder : AccountHolder;
  h_iban : pystr;
  h_currency : pystr;
  h_period : Period;
  h_statement_number : Z;
  h_statement_date : date;
  h_opening_balance : Balance
}.

Record Footer : Type := mkFooter {
  f_closing_balance : Balance;
  f_turnover : Turnover;
  f_accumulated_turnover : Turnover
}.

Definition zero_balance : Balance := mkBalance Decimal_0 Decimal_0.
Definition zero_turnover : Turnover := mkTurnover zero_balance zero_balance.

Definition is_empty {A} (l : list A) : bool :=
  match l with
  | [] => true
  | _ => false
  end.

Section Parse.
Context {U : Unicode}.

(** [Balance(eur=_parse_decimal(m.group(1)), bgn=_parse_decimal(m.group(2)))] *)
Definition balance_of_match (m : Match) : result Balance :=
  e <- _parse_decimal (group m 1) ;;
  b <- _parse_decimal (group m 2) ;;
  Ok (mkBalance e b).

(** [today] is the value of [date.today()]. *)
Definition extract_header (today : date) (pages_text : list pystr) : result Header :=
  let first_page := match pages_text with p :: _ => p | [] => [] end in
  let holder_match := re_search ACCOUNT_HOLDER_PATTERN first_page in
  let holder_code := match holder_match with Some m => group m 1 | None => [] end in
  let holder_name := match holder_match with Some m => strip (group m 2) | None => [] end in
  let address :=
    match re_search ADDRESS_PATTERN first_page with
    | Some m => join (u " ") (split_ws (strip (group m 1)))
    | None => []
    end in
  let iban := match re_search IBAN_PATTERN first_page with
              | Some m => group m 1
              | None => []
              end in
  let currency := match re_search CURRENCY_PATTERN first_page with
                  | Some m => group m 1
                  | None => u "EUR"
                  end in
  dates <- match re_search PERIOD_PATTERN first_page with
           | Some m =>
               from_date <- _parse_date (group m 1) (group m 2) (group m 3) ;;
               to_date <- _parse_date (group m 4) (group m 5) (group m 6) ;;
               Ok (from_date, to_date)
           | None => Ok (today, today)
           end ;;
  stmt <- match re_search STATEMENT_NUM_PATTERN first_page with
          | Some m =>
              stmt_num <- int (group m 1) ;;
              stmt_date <- _parse_date (group m 2) (group m 3) (group m 4) ;;
              Ok (stmt_num, stmt_date)
          | None => Ok (0%Z, today)
          end ;;
  opening_balance <- match re_search OPENING_BALANCE_PATTERN first_page with
                     | Some m => balance_of_match m
                     | None => Ok zero_balance
                     end ;;
  Ok (mkHeader (mkAccountHolder holder_code holder_name address)
               iban currency (mkPeriod (fst dates) (snd dates))
               (fst stmt) (snd stmt) opening_balance).

Definition closing_marker : pystr := u "Крайно салдо:".

(** The page the footer is read from: the last page that has the closing
    balance marker, else the last page, else the empty string. *)
Definition summary_page (pages_text : list pystr) : pystr :=
  let last_page :=
    match find (contains closing_marker) (rev pages_text) with
    | Some p => p
    | None => []
    end in
  if is_empty last_page then last pages_text [] else last_page.

(** The accumulated turnover read from the summary page. *)
Definition accumulated_of_page (last_page : pystr) : result Turnover :=
  let accumulated_debit_match := re_search ACCUMULATED_DEBIT_PATTERN last_page in
  let all_credit_matches := re_finditer ALL_CREDITS_PATTERN last_page in
  let accumulated_credit_match :=
    if (2 <=? length all_credit_matches)%nat then nth_error all_credit_matches 1
    else None in
  match accumulated_debit_match, accumulated_credit_match with
  | Some dm, Some cm =>
      d <- balance_of_match dm ;;
      c <- balance_of_match cm ;;
      Ok (mkTurnover d c)
  | _, _ => Ok zero_turnover
  end.

Definition extract_footer (pages_text : list pystr) : result Footer :=
  let last_page := summary_page pages_text in
  closing_balance <- match re_search CLOSING_BALANCE_PATTERN last_page with
                     | Some m => balance_of_match m
                     | None => Ok zero_balance
                     end ;;
  turnover <- match re_search TURNOVER_DEBIT_PATTERN last_page,
                    re_search TURNOVER_CREDIT_PATTERN last_page with
              | Some dm, Some cm =>
                  d <- balance_of_match dm ;;
                  c <- balance_of_match cm ;;
                  Ok (mkTurnover d c)
              | _, _ => Ok zero_turnover
              end ;;
  accumulated <- accumulated_of_page last_page ;;
  Ok (mkFooter closing_balance turnover accumulated).

(** *** The transaction segmenter *)

Definition is_transaction_start (line : pystr) : bool :=
  is_some (re_match TRANSACTION_DATE_PATTERN line).

(** The lines dropped while the amount is still being looked for. *)
Definition is_boilerplate (line : pystr) : bool :=
  startswith line (u "Междинно салдо")
  || startswith line (u "Страница")
  || contains (u "ОББ Извлечение") line.

(** The lines dropped after a transaction that closed on its first line. *)
Definition is_trailing_boilerplate (line : pystr) : bool :=
  startswith line (u "Междинно салдо")
  || startswith line (u "Страница")
  || contains (u "ОББ Извлечение") line
  || startswith line (u "Счет. Дата").

(** The inner loop of the branch where the first line has no amount. It
    returns [description_lines], [amount_match], and the lines from index
    [i] on. *)
Fixpoint collect_until_amount (description_lines : list pystr) (lines : list pystr)
    : list pystr * option Match * list pystr :=
  match lines with
  | [] => (description_lines, None, [])
  | next_line :: rest =>
      if is_transaction_start next_line then (description_lines, None, lines)
      else
        match re_search AMOUNT_PATTERN next_line with
        | Some amount_match =>
            let before_amount := strip (slice_to next_line (m_start amount_match)) in
            (if is_empty before_amount then description_lines
             else description_lines ++ [before_amount],
             Some amount_match, rest)
        | None =>
            collect_until_amount
              (if is_boilerplate next_line then description_lines
               else description_lines ++ [next_line])
              rest
        end
  end.

(** The inner loop of the branch where the amount is on the first line. *)
Fixpoint collect_trailing (description_lines : list pystr) (lines : list pystr)
    : list pystr * list pystr :=
  match lines with
  | [] => (description_lines, [])
  | next_line :: rest =>
      if is_transaction_start next_line then (description_lines, lines)
      else
        collect_trailing
          (if is_trailing_boilerplate next_line then description_lines
           else description_lines ++ [next_line])
          rest
  end.

(** The code after the inner loops: from the two date strings, the
    description lines and the amount match to a [Transaction]. *)
Definition make_transaction (posting_date_str value_date_str : pystr)
    (description_lines : list pystr) (amount_match : Match) : result Transaction :=
  posting_date <- _parse_posting_date posting_date_str ;;
  value_date <- _parse_short_date value_date_str (year posting_date) ;;
  let full_desc := join (u " ") description_lines in
  let desc_parts :=
    match description_lines with
    | first :: _ => split_ws1 first
    | [] => [[]; []]
    end in
  let reference := match desc_parts with r :: _ => r | [] => [] end in
  let description := match desc_parts with _ :: d :: _ => d | _ => [] end in
  eur_amount <- _parse_decimal (group amount_match 1) ;;
  bgn_amount <- _parse_decimal (group amount_match 2) ;;
  let is_debit := d_lt eur_amount Decimal_0 in
  let amount := mkBalance (d_abs eur_amount) (d_abs bgn_amount) in
  let trans_type := _detect_transaction_type full_desc in
  let counterparty := _extract_counterparty description_lines trans_type in
  Ok (mkTransaction posting_date value_date reference trans_type description
                    full_desc counterparty amount is_debit).

(** The [while i < len(lines)] loop of one page. Every turn moves [i]
    forward, so [length lines] turns are enough: see [extract_lines_nil]
    and [extract_lines_cons]. *)
Fixpoint scan_lines (fuel : nat) (lines : list pystr) (transactions : list Transaction)
    : result (list Transaction) :=
  match fuel, lines with
  | O, _ => Ok transactions
  | _, [] => Ok transactions
  | S fuel', line :: rest =>
      match re_match TRANSACTION_DATE_PATTERN line with
      | None => scan_lines fuel' rest transactions
      | Some date_match =>
          let posting_date_str := group date_match 1 in
          let value_date_str := group date_match 2 in
          let rest_of_line := slice_from line (m_end date_match) in
          match re_search AMOUNT_PATTERN line with
          | None =>
              match collect_until_amount [rest_of_line] rest with
              | (_, None, lines') => scan_lines fuel' lines' transactions
              | (description_lines, Some amount_match, lines') =>
                  transaction <- make_transaction posting_date_str value_date_str
                                   description_lines amount_match ;;
                  scan_lines fuel' lines' (transactions ++ [transaction])
              end
          | Some amount_match =>
              let desc_part :=
                strip (slice line (m_end date_match) (m_start amount_match)) in
              let (description_lines, lines') := collect_trailing [desc_part] rest in
              transaction <- make_transaction posting_date_str value_date_str
                               description_lines amount_match ;;
              scan_lines fuel' lines' (transactions ++ [transaction])
          end
      end
  end.

Definition extract_lines (lines : list pystr) (transactions : list Transaction)
    : result (list Transaction) :=
  scan_lines (length lines) lines transactions.

(** The [for page_text in self.pages_text] loop. *)
Fixpoint extract_pages (pages_text : list pystr) (transactions : list Transaction)
    : result (list Transaction) :=
  match pages_text with
  | [] => Ok transactions
  | page_text :: pages' =>
      transactions' <- extract_lines (split_on newline page_text) transactions ;;
      extract_pages pages' transactions'
  end.

Definition extract_transactions (pages_text : list pystr) (statement_year : Z)
    : result (list Transaction) :=
  extract_pages pages_text [].

(** [parse], after [_load_pdf] has filled [pages_text]. *)
Definition parse (today : date) (pages_text : list pystr) : result BankStatement :=
  header <- extract_header today pages_text ;;
  footer <- extract_footer pages_text ;;
  let statement_year := year (from_date (h_period header)) in
  transactions <- extract_transactions pages_text statement_year ;;
  let statement_info :=
    mkStatementInfo (u "UBB") (h_account_holder header) (h_iban header)
      (h_currency header) (h_period header) (h_statement_number header)
      (h_statement_date header) (h_opening_balance header)
      (f_closing_balance footer) (f_turnover footer)
      (f_accumulated_turnover footer) in
  Ok (mkBankStatement statement_info transactions).

End Parse.

(** ** The balance equation, in rational arithmetic *)

(** The sum of [cur (amount tx)] over the transactions selected by [sel]. *)
Fixpoint sum_amounts (sel : Transaction -> bool) (cur : Balance -> Decimal)
    (txs : list Transaction) : Q :=
  match txs with
  | [] => 0%Q
  | tx :: txs' =>
      ((if sel tx then d_val (cur (amount tx)) else 0) + sum_amounts sel cur txs')%Q
  end.

Definition is_credit (tx : Transaction) : bool := negb (is_debit tx).

(** [opening + credit_sum - debit_sum] in the currency [cur]. *)
Definition closing_equation (cur : Balance -> Decimal) (self : BankStatement) : Q :=
  (d_val (cur (opening_balance (statement self)))
   + sum_amounts is_credit cur (transactions self)
   - sum_amounts is_debit cur (transactions self))%Q.

(** The distance between the calculated and the reported closing balance. *)
Definition closing_gap (cur : Balance -> Decimal) (self : BankStatement) : Q :=
  Qabs (closing_equation cur self - d_val (cur (closing_balance (statement self)))).

(** The distance between a transaction sum and the reported turnover. *)
Definition turnover_gap (sel : Transaction -> bool) (side : Turnover -> Balance)
    (cur : Balance -> Decimal) (self : BankStatement) : Q :=
  Qabs (sum_amounts sel cur (transactions self)
        - d_val (cur (side (turnover (statement self))))).

(** ** Sample statements *)

Definition dec2 (cents : Z) : Decimal :=
  mkDecimal (cents <? 0)%Z (Z.abs_N cents) 2.

Definition sample_transaction (is_debit : bool) (eur_cents bgn_cents : Z) : Transaction :=
  mkTransaction (mkDate 2026 1 5) (mkDate 2026 1 5) (u "REF") UNKNOWN [] (u "REF") None
    (mkBalance (dec2 eur_cents) (dec2 bgn_cents)) is_debit.

(** Opening [(1000.00, 1955.83)], a credit of [(200.00, 391.17)] and a debit
    of [(50.00, 97.79)], with the closing balance and turnover as given. *)
Definition sample_statement (closing : Balance) (reported : Turnover) : BankStatement :=
  mkBankStatement
    (mkStatementInfo (u "UBB") (mkAccountHolder [] [] []) [] (u "EUR")
       (mkPeriod (mkDate 2026 1 1) (mkDate 2026 1 31)) 1 (mkDate 2026 1 31)
       (mkBalance (dec2 100000) (dec2 195583)) closing reported zero_turnover)
    [sample_transaction false 20000 39117; sample_transaction true 5000 9779].

(** The closing balance reconciles; the reported debit turnover is off by
    ten EUR. *)
Definition turnover_breach_statement : BankStatement :=
  sample_statement (mkBalance (dec2 115000) (dec2 224921))
    (mkTurnover (mkBalance (dec2 6000) (dec2 9779))
                (mkBalance (dec2 20000) (dec2 39117))).

(** The reported EUR turnover matches; the reported BGN turnover is far off
    on both sides. *)
Definition bgn_turnover_breach_statement : BankStatement :=
  sample_statement (mkBalance (dec2 115000) (dec2 224921))
    (mkTurnover (mkBalance (dec2 5000) (dec2 100000))
                (mkBalance (dec2 20000) (dec2 700000))).

(** ** The classifier as an ordered rule list

    The reading of the classifier that the design notes ask for: an ordered
    list of rules, each a set of keywords and a type, evaluated top to
    bottom, the first rule with a keyword in the text winning. It is compared
    with [_detect_transaction_type] below. *)

Definition rule : Type := (list pystr * TransactionType)%type.

Definition classifier_rules : list rule :=
  [ ([u "СЕПА ПОЛУЧЕН"], SEPA_INCOMING);                              (* incoming transfer *)
    ([u "ИЗХОДЯЩ ВАЛУТЕН ПРЕВОД"; u "ИЗХОДЯЩ"], SEPA_OUTGOING);       (* outgoing transfer *)
    ([u "КАРТОВА ТРАНЗАКЦИЯ"], CARD_TRANSACTION);                     (* card transaction *)
    ([u "СЪБРАНА ТАКСА ИЛИ КОМИСИОНА"], FEE);                         (* collected fee *)
    ([u "ТАКСА ИЗХ."; u "ТАКСА"], TRANSFER_FEE);                      (* outgoing fee *)
    ([u "ПРЕВОД"], INTERNAL_TRANSFER);                                (* generic transfer *)
    ([u "ПРОДАЖБА НА ВАЛУТА"; u "ПОКУПКА НА ВАЛУТА"], CURRENCY_EXCHANGE) ].  (* currency exchange *)

Definition rule_matches (text : pystr) (r : rule) : bool :=
  existsb (fun keyword => contains keyword text) (fst r).

Fixpoint first_match (rules : list rule) (text : pystr) : TransactionType :=
  match rules with
  | [] => UNKNOWN
  | r :: rules' => if rule_matches text r then snd r else first_match rules' text
  end.

(** ** Positions and samples for the segmenter *)

(** The lines from index [i] on are at a transaction boundary when there is
    none left or the first one is a transaction-start line. *)
Definition at_boundary `{U : Unicode} (lines : list pystr) : Prop :=
  match lines with
  | l :: _ => is_transaction_start l = true
  | [] => True
  end.

Definition fmap {A B} (f : A -> B) (m : result A) : result B :=
  match m with
  | Ok a => Ok (f a)
  | Raise e => Raise e
  end.

(** A page fragment: a letterhead line, a candidate with no amount (two
    lines), and a transaction that closes on its own start line and is
    followed by a counterparty line, a page footer and a reference. *)
Definition sample_letterhead : pystr := u "Счет. Дата Вальор Описание".
Definition sample_candidate : pystr := u "07/01/26 07/01 REF3 ТАКСА ИЗХ.".
Definition sample_candidate_body : list pystr := [u "KЪМ ACME LTD"].
Definition sample_closed : pystr :=
  u "08/01/26 08/01 REF4 СЕПА ПОЛУЧЕН ПРЕВОД  200.00 EUR / 391.17 BGN".
Definition sample_trailing : list pystr :=
  [u "ACME CLIENT"; u "Страница 1"; u "F. 2400003707"].
Definition sample_next : pystr :=
  u "09/01/26 09/01 REF5 ПРЕВОД -1.00 EUR / -1.96 BGN".

(** A summary page in the layout of the statements, and one whose
    accumulated column has no credit line. *)
Definition sample_summary_page : pystr := u "Крайно салдо: 1,149.00 EUR / 2,247.25 BGN
Обороти: Натрупани обороти:
Дебит: 51.00 EUR / 99.75 BGN Дебит: 1,570.94 EUR / 3,072.49 BGN
Кредит: 200.00 EUR / 391.17 BGN Кредит: 144,280.68 EUR / 282,188.48 BGN".

Definition sample_summary_page_one_credit : pystr := u "Крайно салдо: 1,149.00 EUR / 2,247.25 BGN
Дебит: 51.00 EUR / 99.75 BGN Дебит: 1,570.94 EUR / 3,072.49 BGN
Кредит: 200.00 EUR / 391.17 BGN".

(** ** Where a posting year comes from *)

(** [tx] was read from a start line of one of the pages, and its posting
    and value years are [2000] plus the two digits that end the posting date
    on that line. *)
Definition posting_year_from_line `{U : Unicode} (pages_text : list pystr)
    (tx : Transaction) : Prop :=
  exists page line date_match yy_str yy,
    In page pages_text
    /\ In line (split_on newline page)
    /\ re_match TRANSACTION_DATE_PATTERN line = Some date_match
    /\ subscript (split_on (ch "/") (group date_match 1)) 2 = Ok yy_str
    /\ int yy_str = Ok yy
    /\ year (posting_date tx) = (2000 + yy)%Z
    /\ year (value_date tx) = (2000 + yy)%Z.

(** A statement whose period is in [period_year] and whose only
    transaction is posted on [05/01/99]. *)
Definition statement_page_of_year (period_year : string) : pystr :=
  u "Период на извлечението: ОТ 01 ЯНУ " ++ u period_year
    ++ u " ДО 31 ЯНУ " ++ u period_year ++ u "
05/01/99 05/01 REF1 ПРЕВОД 1.00 EUR / 1.96 BGN".

(** The period year and the posting years of a parsed statement. *)
Definition years_of (s : BankStatement) : Z * list Z :=
  (year (from_date (period (statement s))),
   map (fun tx => year (posting_date tx)) (transactions s)).

(** The same page with its statement number and date. *)
Definition dated_statement_page : pystr :=
  statement_page_of_year "2026" ++ u "
Пореден номер / Дата: 1 / 31 ЯНУ 2026".

(** ** Defaults *)

Definition default_header (today : date) : Header :=
  mkHeader (mkAccountHolder [] [] []) [] (u "EUR") (mkPeriod today today)
           0%Z today zero_balance.

Definition default_footer : Footer :=
  mkFooter zero_balance zero_turnover zero_turnover.

(** ** Serialization *)

(** [to_json] hands the statement to pydantic's [model_dump_json], with
    [indent=2] and [by_alias=True]; the serializer is a function of the
    statement, and is an argument here. *)
Definition to_json (model_dump_json : BankStatement -> pystr) (self : BankStatement)
    : pystr :=
  model_dump_json self.

(** ** Further notions for the properties of the extractor *)

(** A date of the calendar, as [date(...)] accepts it. *)
Definition valid_date (d : date) : Prop :=
  (1 <= year d <= 9999)%Z /\ (1 <= month d <= 12)%Z
  /\ (1 <= day d <= days_in_month (year d) (month d))%Z.

(** The lines of a candidate that never closes: no transaction start and no
    amount among them. *)
Definition no_start_no_amount `{U : Unicode} (lines : list pystr) : Prop :=
  Forall (fun l => is_transaction_start l = false
                   /\ re_search AMOUNT_PATTERN l = None) lines.

(** The number of transaction-start lines of a page. *)
Definition count_starts `{U : Unicode} (lines : list pystr) : nat :=
  length (filter is_transaction_start lines).

Definition count_starts_of_pages `{U : Unicode} (pages_text : list pystr) : nat :=
  fold_right (fun page n => (count_starts (split_on newline page) + n)%nat) 0%nat
    pages_text.

(** Two pages: the first ends in a candidate whose amount line is at the
    top of the second. *)
Definition sample_page_cut : pystr := u "Счет. Дата Вальор Описание
07/01/26 07/01 REF3 ТАКСА ИЗХ.
KЪМ ACME LTD".
Definition sample_page_cut_before : pystr := u "Счет. Дата Вальор Описание".
Definition sample_page_next : pystr := u "-1.00 EUR / -1.96 BGN
09/01/26 09/01 REF5 ПРЕВОД -1.00 EUR / -1.96 BGN".

(** A transaction whose description spans three lines before the amount,
    followed by two lines that belong to no transaction. *)
Definition sample_multiline : list pystr :=
  [u "06/01/26 06/01 REF2 КАРТОВА ТРАНЗАКЦИЯ";
   u "MERCHANT-CITY-BG";
   u "Страница 1";
   u "5574X4418-600500556010-000671255870 -50.00 EUR / -97.79 BGN";
   u "ACME CLIENT";
   u "F. 2400003707"].

(** An amount line with a negative EUR figure and a positive BGN figure. *)
Definition sample_mixed_signs : pystr := u "-50.00 EUR / 97.79 BGN".

(** The rules of the classifier with one keyword for the outgoing transfer
    and one for the outgoing fee. *)
Definition deciding_rules : list rule :=
  [ ([u "СЕПА ПОЛУЧЕН"], SEPA_INCOMING);
    ([u "ИЗХОДЯЩ"], SEPA_OUTGOING);
    ([u "КАРТОВА ТРАНЗАКЦИЯ"], CARD_TRANSACTION);
    ([u "СЪБРАНА ТАКСА ИЛИ КОМИСИОНА"], FEE);
    ([u "ТАКСА"], TRANSFER_FEE);
    ([u "ПРЕВОД"], INTERNAL_TRANSFER);
    ([u "ПРОДАЖБА НА ВАЛУТА"; u "ПОКУПКА НА ВАЛУТА"], CURRENCY_EXCHANGE) ].

(** The state of the loop of [_extract_counterparty] after the lines that
    follow the first one. *)
Definition counterparty_after `{U : Unicode} (tx_type : TransactionType)
    (lines : list pystr) : Counterparty :=
  fold_left (counterparty_line tx_type) lines (mkCounterparty None None None None).

(** A text with no whitespace character. *)
Definition no_space `{U : Unicode} (w : pystr) : Prop :=
  forallb (fun c => negb (isspace c)) w = true.

(** A first page whose address block runs over two lines. *)
Definition sample_address_page : pystr := u "Титуляр на сметката 12345 ACME LTD 1000 ДАО
Адрес ул.  Иван Вазов 1
   София 1000 IBAN: BG41UBBS80021234567890".

(** A capital letter of the Latin alphabet, [[A-Z]]. *)
Definition is_capital (c : cp) : bool := ((ch "A" <=? c) && (c <=? ch "Z"))%N.

(** A word character, [\w]. *)
Definition is_word_char `{U : Unicode} (c : cp) : bool := isalnum c || (c =? ch "_")%N.

(** * Properties *)

(** ** [Decimal] arithmetic denotes rational arithmetic *)

Lemma pow10_pos (n : nat) : (0 < pow10 n)%Z.
Proof. unfold pow10. apply Z.pow_pos_nonneg; lia. Qed.

Lemma pow10_add (n m : nat) : pow10 (n + m) = (pow10 n * pow10 m)%Z.
Proof. unfold pow10. rewrite Nat2Z.inj_add, Z.pow_add_r; lia. Qed.

Lemma inject_pow10_nonzero (n : nat) : ~ (inject_Z (pow10 n) == 0)%Q.
Proof.
  unfold Qeq; simpl. pose proof (pow10_pos n). lia.
Qed.

Lemma inject_pow10_pos (n : nat) : (0 < inject_Z (pow10 n))%Q.
Proof.
  unfold Qlt; simpl. pose proof (pow10_pos n). lia.
Qed.

(** Written with [s] fractional digits, [d] is [d_val d * 10^s]. *)
Lemma d_align_val (s : nat) (d : Decimal) :
  (d_scale d <= s)%nat ->
  (inject_Z (d_align s d) == d_val d * inject_Z (pow10 s))%Q.
Proof.
  intros Hs. unfold d_align, d_val.
  replace s with (d_scale d + (s - d_scale d))%nat at 2 by lia.
  rewrite pow10_add, !inject_Z_mult.
  field. apply inject_pow10_nonzero.
Qed.

Lemma d_signed_add (a b : Decimal) :
  d_signed (d_add a b)
  = (d_align (Nat.max (d_scale a) (d_scale b)) a
     + d_align (Nat.max (d_scale a) (d_scale b)) b)%Z.
Proof.
  unfold d_add, d_signed; simpl.
  set (z := (_ + _)%Z).
  destruct (Z.eqb_spec z 0) as [Hz | Hz].
  - rewrite Hz. simpl. destruct (d_neg a && d_neg b); reflexivity.
  - destruct (Z.ltb_spec z 0); rewrite N2Z.inj_abs_N; lia.
Qed.

Lemma d_val_add (a b : Decimal) : (d_val (d_add a b) == d_val a + d_val b)%Q.
Proof.
  unfold d_val at 1. rewrite d_signed_add, inject_Z_plus.
  rewrite !d_align_val by (simpl; lia).
  simpl d_scale. field. apply inject_pow10_nonzero.
Qed.

Lemma d_val_negate (a : Decimal) : (d_val (d_negate a) == - d_val a)%Q.
Proof.
  unfold d_val, d_negate, d_signed; simpl.
  destruct (d_neg a); simpl; rewrite ?inject_Z_opp;
    field; apply inject_pow10_nonzero.
Qed.

Lemma d_val_sub (a b : Decimal) : (d_val (d_sub a b) == d_val a - d_val b)%Q.
Proof.
  unfold d_sub. rewrite d_val_add, d_val_negate. reflexivity.
Qed.

Lemma d_signed_abs (a : Decimal) : d_signed (d_abs a) = Z.abs (d_signed a).
Proof.
  unfold d_signed, d_abs; simpl. destruct (d_neg a); lia.
Qed.

Lemma d_val_abs (a : Decimal) : (d_val (d_abs a) == Qabs (d_val a))%Q.
Proof.
  unfold d_val. rewrite d_signed_abs.
  change (d_scale (d_abs a)) with (d_scale a).
  unfold Qdiv. rewrite Qabs_Qmult, Qabs_Qinv.
  rewrite (Qabs_pos (inject_Z (pow10 _)))
    by (apply Qlt_le_weak, inject_pow10_pos).
  reflexivity.
Qed.

Lemma d_val_0 : (d_val Decimal_0 == 0)%Q.
Proof. reflexivity. Qed.

Lemma d_compare_val (a b : Decimal) :
  d_compare a b = (d_val a ?= d_val b)%Q.
Proof.
  unfold d_compare.
  set (s := Nat.max (d_scale a) (d_scale b)).
  assert (Ha : (d_scale a <= s)%nat) by (subst s; lia).
  assert (Hb : (d_scale b <= s)%nat) by (subst s; lia).
  pose proof (d_align_val s a Ha) as Ea.
  pose proof (d_align_val s b Hb) as Eb.
  pose proof (inject_pow10_pos s) as Hp.
  destruct (Z.compare_spec (d_align s a) (d_align s b)) as [H | H | H]; symmetry.
  - apply Qeq_alt.
    apply (Qmult_inj_r _ _ (inject_Z (pow10 s))).
    + apply inject_pow10_nonzero.
    + rewrite <- Ea, <- Eb, H. reflexivity.
  - apply Qlt_alt.
    apply (Qmult_lt_r _ _ (inject_Z (pow10 s))); [exact Hp |].
    rewrite <- Ea, <- Eb. rewrite <- Zlt_Qlt. exact H.
  - apply Qgt_alt.
    apply (Qmult_lt_r _ _ (inject_Z (pow10 s))); [exact Hp |].
    rewrite <- Ea, <- Eb. rewrite <- Zlt_Qlt. exact H.
Qed.

Lemma d_gt_true (a b : Decimal) : d_gt a b = true <-> (d_val b < d_val a)%Q.
Proof.
  unfold d_gt. rewrite d_compare_val.
  destruct (d_val a ?= d_val b)%Q eqn:E.
  - apply Qeq_alt in E. split; [discriminate |].
    intros H. rewrite E in H. exfalso. exact (Qlt_irrefl _ H).
  - apply Qlt_alt in E. split; [discriminate |].
    intros H. exfalso. exact (Qlt_irrefl _ (Qlt_trans _ _ _ E H)).
  - apply Qgt_alt in E. split; auto.
Qed.

Lemma d_gt_false (a b : Decimal) : d_gt a b = false <-> (d_val a <= d_val b)%Q.
Proof.
  split.
  - intros H. apply Qnot_lt_le. intros L. apply d_gt_true in L. congruence.
  - intros H. destruct (d_gt a b) eqn:E; [| reflexivity].
    apply d_gt_true in E. exfalso. exact (Qlt_not_le _ _ E H).
Qed.

(** ** The balance validator *)

Lemma fold_add_transaction (txs : list Transaction) (t : Totals) :
  let t' := fold_left add_transaction txs t in
  (d_val (t_debit_eur t') == d_val (t_debit_eur t) + sum_amounts is_debit eur txs)%Q
  /\ (d_val (t_credit_eur t') == d_val (t_credit_eur t) + sum_amounts is_credit eur txs)%Q
  /\ (d_val (t_debit_bgn t') == d_val (t_debit_bgn t) + sum_amounts is_debit bgn txs)%Q
  /\ (d_val (t_credit_bgn t') == d_val (t_credit_bgn t) + sum_amounts is_credit bgn txs)%Q.
Proof.
  revert t. induction txs as [| tx txs IH]; intros t; simpl.
  - repeat split; ring.
  - destruct (IH (add_transaction t tx)) as (H1 & H2 & H3 & H4).
    rewrite H1, H2, H3, H4. clear.
    unfold add_transaction, is_credit.
    destruct (is_debit tx); simpl; rewrite ?d_val_add; repeat split; ring.
Qed.

Lemma sum_transactions_val (txs : list Transaction) :
  let t := sum_transactions txs in
  (d_val (t_debit_eur t) == sum_amounts is_debit eur txs)%Q
  /\ (d_val (t_credit_eur t) == sum_amounts is_credit eur txs)%Q
  /\ (d_val (t_debit_bgn t) == sum_amounts is_debit bgn txs)%Q
  /\ (d_val (t_credit_bgn t) == sum_amounts is_credit bgn txs)%Q.
Proof.
  destruct (fold_add_transaction txs
              (mkTotals Decimal_0 Decimal_0 Decimal_0 Decimal_0))
    as (H1 & H2 & H3 & H4).
  simpl in *. unfold sum_transactions.
  rewrite H1, H2, H3, H4, d_val_0. repeat split; ring.
Qed.

Lemma calculated_closing_val (self : BankStatement) :
  (d_val (calculated_closing_eur (validate_balance self)) == closing_equation eur self)%Q
  /\ (d_val (calculated_closing_bgn (validate_balance self)) == closing_equation bgn self)%Q.
Proof.
  destruct (sum_transactions_val (transactions self)) as (H1 & H2 & H3 & H4).
  simpl in *. unfold closing_equation.
  rewrite !d_val_sub, !d_val_add, H1, H2, H3, H4. split; reflexivity.
Qed.

(** The two tests on the closing balance, and the two on the turnover. *)
Lemma eur_error_test (self : BankStatement) :
  let r := validate_balance self in
  d_gt (d_abs (d_sub (calculated_closing_eur r) (expected_closing_eur r))) eur_tolerance
  = true <-> (2 # 100 < closing_gap eur self)%Q.
Proof.
  simpl. rewrite d_gt_true, d_val_abs, d_val_sub.
  destruct (calculated_closing_val self) as [H _]. simpl in H. rewrite H.
  unfold closing_gap. reflexivity.
Qed.

Lemma bgn_error_test (self : BankStatement) :
  let r := validate_balance self in
  d_gt (d_abs (d_sub (calculated_closing_bgn r) (expected_closing_bgn r))) bgn_tolerance
  = true <-> (10 # 100 < closing_gap bgn self)%Q.
Proof.
  simpl. rewrite d_gt_true, d_val_abs, d_val_sub.
  destruct (calculated_closing_val self) as [_ H]. simpl in H. rewrite H.
  unfold closing_gap. reflexivity.
Qed.

Lemma debit_warning_test (self : BankStatement) :
  let r := validate_balance self in
  d_gt (d_abs (d_sub (total_debit_eur r) (eur (debit (turnover (statement self))))))
       eur_tolerance
  = true <-> (2 # 100 < turnover_gap is_debit debit eur self)%Q.
Proof.
  simpl. rewrite d_gt_true, d_val_abs, d_val_sub.
  destruct (sum_transactions_val (transactions self)) as (H & _). simpl in H. rewrite H.
  unfold turnover_gap. reflexivity.
Qed.

Lemma credit_warning_test (self : BankStatement) :
  let r := validate_balance self in
  d_gt (d_abs (d_sub (total_credit_eur r) (eur (credit (turnover (statement self))))))
       eur_tolerance
  = true <-> (2 # 100 < turnover_gap is_credit credit eur self)%Q.
Proof.
  simpl. rewrite d_gt_true, d_val_abs, d_val_sub.
  destruct (sum_transactions_val (transactions self)) as (_ & H & _). simpl in H. rewrite H.
  unfold turnover_gap. reflexivity.
Qed.

Lemma Qnot_lt_iff_le (x y : Q) : ~ (x < y)%Q <-> (y <= x)%Q.
Proof.
  split; [apply Qnot_lt_le | intros H L; exact (Qlt_not_le _ _ L H)].
Qed.

Lemma decided_false (b : bool) (x y : Q) :
  (b = true <-> (x < y)%Q) -> (y <= x)%Q -> b = false.
Proof.
  intros T L. destruct b; [| reflexivity].
  exfalso. exact (Qlt_not_le _ _ (proj1 T eq_refl) L).
Qed.

(** The verdict and the error list, for the other checks to use. *)
Lemma validate_balance_closing_check_aux (self : BankStatement) :
  let r := validate_balance self in
  (is_valid r = true <->
   (closing_gap eur self <= 2 # 100)%Q /\ (closing_gap bgn self <= 10 # 100)%Q)
  /\ errors r =
       (if Qlt_le_dec (2 # 100) (closing_gap eur self)
        then [eur_mismatch_message (calculated_closing_eur r) (expected_closing_eur r)
                (d_abs (d_sub (calculated_closing_eur r) (expected_closing_eur r)))]
        else [])
       ++ (if Qlt_le_dec (10 # 100) (closing_gap bgn self)
           then [bgn_mismatch_message (calculated_closing_bgn r) (expected_closing_bgn r)
                   (d_abs (d_sub (calculated_closing_bgn r) (expected_closing_bgn r)))]
           else []).
Proof.
  intros r.
  destruct (calculated_closing_val self) as [Ce Cb].
  pose proof (eur_error_test self) as Te.
  pose proof (bgn_error_test self) as Tb.
  fold r in Ce, Cb. cbv zeta in Te, Tb. fold r in Te, Tb.
  assert (Hv : is_valid r = Nat.eqb (length (errors r)) 0) by reflexivity.
  assert (He : errors r =
    (if d_gt (d_abs (d_sub (calculated_closing_eur r) (expected_closing_eur r))) eur_tolerance
     then [eur_mismatch_message (calculated_closing_eur r) (expected_closing_eur r)
             (d_abs (d_sub (calculated_closing_eur r) (expected_closing_eur r)))]
     else [])
    ++ (if d_gt (d_abs (d_sub (calculated_closing_bgn r) (expected_closing_bgn r))) bgn_tolerance
        then [bgn_mismatch_message (calculated_closing_bgn r) (expected_closing_bgn r)
                (d_abs (d_sub (calculated_closing_bgn r) (expected_closing_bgn r)))]
        else [])).
  { subst r. unfold validate_balance. cbv zeta. simpl errors.
    destruct (d_gt _ eur_tolerance), (d_gt _ bgn_tolerance); reflexivity. }
  rewrite Hv, He. clear Hv He.
  set (be := d_gt _ eur_tolerance) in *.
  set (bb := d_gt _ bgn_tolerance) in *.
  clearbody be bb.
  destruct (Qlt_le_dec (2 # 100) (closing_gap eur self)) as [L1 | L1];
    destruct (Qlt_le_dec (10 # 100) (closing_gap bgn self)) as [L2 | L2].
  - rewrite (proj2 Te L1), (proj2 Tb L2). simpl. split; [| reflexivity].
    split; [discriminate | intros [G _]; exfalso; exact (Qlt_not_le _ _ L1 G)].
  - rewrite (proj2 Te L1), (decided_false _ _ _ Tb L2). simpl. split; [| reflexivity].
    split; [discriminate | intros [G _]; exfalso; exact (Qlt_not_le _ _ L1 G)].
  - rewrite (decided_false _ _ _ Te L1), (proj2 Tb L2). simpl. split; [| reflexivity].
    split; [discriminate | intros [_ G]; exfalso; exact (Qlt_not_le _ _ L2 G)].
  - rewrite (decided_false _ _ _ Te L1), (decided_false _ _ _ Tb L2). simpl. split; [| reflexivity].
    split; [intros _; split; assumption | reflexivity].
Qed.


Lemma warnings_by_tests (self : BankStatement) :
  let r := validate_balance self in
  warnings r =
    (if d_gt (d_abs (d_sub (total_debit_eur r) (eur (debit (turnover (statement self))))))
             eur_tolerance
     then [debit_turnover_message (total_debit_eur r)
             (eur (debit (turnover (statement self))))]
     else [])
    ++ (if d_gt (d_abs (d_sub (total_credit_eur r)
                          (eur (credit (turnover (statement self))))))
                eur_tolerance
        then [credit_turnover_message (total_credit_eur r)
                (eur (credit (turnover (statement self))))]
        else []).
Proof.
  unfold validate_balance. cbv zeta. simpl warnings.
  simpl total_debit_eur. simpl total_credit_eur.
  destruct (d_gt _ eur_tolerance); destruct (d_gt _ eur_tolerance); reflexivity.
Qed.





(** The worked example: opening [(1000.00, 1955.83)], a credit of
    [(200.00, 391.17)], a debit of [(50.00, 97.79)]. *)
Example validate_balance_reconciles :
  let r := validate_balance
             (sample_statement (mkBalance (dec2 115000) (dec2 224921)) zero_turnover) in
  (calculated_closing_eur r, calculated_closing_bgn r) = (dec2 115000, dec2 224921)
  /\ is_valid r = true /\ errors r = [].
Proof. vm_compute. auto. Qed.

Example validate_balance_eur_mismatch :
  let r := validate_balance
             (sample_statement (mkBalance (dec2 114000) (dec2 224921)) zero_turnover) in
  is_valid r = false
  /\ errors r
     = [u "EUR balance mismatch: calculated 1150.00, expected 1140.00, diff 10.00"].
Proof. vm_compute. auto. Qed.

(** A closing balance off by 0.03 EUR is an error; off by 0.02 it is not. *)
Example validate_balance_tolerance_edge :
  is_valid (validate_balance
              (sample_statement (mkBalance (dec2 115003) (dec2 224921)) zero_turnover))
  = false
  /\ is_valid (validate_balance
                 (sample_statement (mkBalance (dec2 115002) (dec2 224921)) zero_turnover))
     = true.
Proof. vm_compute. auto. Qed.

(** ** The type classifier *)

Lemma first_match_skip (before : list rule) (r : rule) (after : list rule) (text : pystr) :
  forallb (fun r' => negb (rule_matches text r')) before = true ->
  rule_matches text r = true ->
  first_match (before ++ r :: after) text = snd r.
Proof.
  induction before as [| r' before IH]; simpl; intros Hb Hr.
  - rewrite Hr. reflexivity.
  - apply andb_prop in Hb. destruct Hb as [H1 H2].
    apply negb_true_iff in H1. rewrite H1. apply IH; assumption.
Qed.

Lemma detect_is_first_match `{U : Unicode} (description : pystr) :
  _detect_transaction_type description = first_match classifier_rules (upper description).
Proof.
  unfold _detect_transaction_type, classifier_rules, first_match, rule_matches.
  cbv zeta. cbn [fst snd existsb].
  rewrite !orb_false_r. reflexivity.
Qed.

(** C4. The classifier is first-match-wins over the rules in the fixed
    order incoming transfer, outgoing transfer, card transaction, collected
    fee, outgoing fee, generic transfer, currency exchange, else [UNKNOWN],
    on the upper-cased description: a description is given the type of the
    first rule one of whose keywords it contains, whatever later rules it
    also matches. *)
Theorem detect_transaction_type_first_match_wins `{U : Unicode} (description : pystr) :
  map snd classifier_rules
  = [SEPA_INCOMING; SEPA_OUTGOING; CARD_TRANSACTION; FEE; TRANSFER_FEE;
     INTERNAL_TRANSFER; CURRENCY_EXCHANGE]
  /\ _detect_transaction_type description
     = first_match classifier_rules (upper description)
  /\ (forall before r after,
        classifier_rules = before ++ r :: after ->
        forallb (fun r' => negb (rule_matches (upper description) r')) before = true ->
        rule_matches (upper description) r = true ->
        _detect_transaction_type description = snd r)
  /\ (forallb (fun r => negb (rule_matches (upper description) r)) classifier_rules = true ->
      _detect_transaction_type description = UNKNOWN).
Proof.
  split; [reflexivity |].
  split; [apply detect_is_first_match |].
  split.
  - intros before r after E Hb Hr.
    rewrite detect_is_first_match, E. apply first_match_skip; assumption.
  - intros H. rewrite detect_is_first_match.
    induction classifier_rules as [| r rs IH]; [reflexivity |].
    simpl in *. apply andb_prop in H. destruct H as [H1 H2].
    apply negb_true_iff in H1. rewrite H1. apply IH, H2.
Qed.

(** An incoming transfer whose text also has the generic transfer keyword,
    and an outgoing fee whose text also has it. *)
Lemma detect_transaction_type_first_match_wins_witness :
  rule_matches (upper (u "СЕПА ПОЛУЧЕН ПРЕВОД")) ([u "ПРЕВОД"], INTERNAL_TRANSFER) = true
  /\ _detect_transaction_type (u "СЕПА ПОЛУЧЕН ПРЕВОД") = SEPA_INCOMING
  /\ rule_matches (upper (u "такса изх. превод")) ([u "ПРЕВОД"], INTERNAL_TRANSFER) = true
  /\ _detect_transaction_type (u "такса изх. превод") = TRANSFER_FEE.
Proof.
  split; [vm_compute; reflexivity |].
  split.
  - apply (proj1 (proj2 (proj2
      (detect_transaction_type_first_match_wins (u "СЕПА ПОЛУЧЕН ПРЕВОД"))))
      [] ([u "СЕПА ПОЛУЧЕН"], SEPA_INCOMING) (tl classifier_rules));
      vm_compute; reflexivity.
  - split; [vm_compute; reflexivity |].
    apply (proj1 (proj2 (proj2
      (detect_transaction_type_first_match_wins (u "такса изх. превод"))))
      (firstn 4 classifier_rules) ([u "ТАКСА ИЗХ."; u "ТАКСА"], TRANSFER_FEE)
      (skipn 5 classifier_rules));
      vm_compute; reflexivity.
Defined.

(** ** The transaction segmenter *)

Section Segmenter.
Context {U : Unicode}.

Lemma collect_until_amount_rest (lines description_lines d : list pystr)
    (am : option Match) (rest : list pystr) :
  collect_until_amount description_lines lines = (d, am, rest) ->
  (length rest <= length lines)%nat.
Proof.
  revert description_lines.
  induction lines as [| l lines IH]; simpl; intros desc E.
  - inversion E; subst. simpl. lia.
  - destruct (is_transaction_start l).
    + inversion E; subst. simpl. lia.
    + destruct (re_search AMOUNT_PATTERN l).
      * inversion E; subst. lia.
      * apply IH in E. lia.
Qed.

Lemma collect_trailing_rest (lines description_lines d rest : list pystr) :
  collect_trailing description_lines lines = (d, rest) ->
  (length rest <= length lines)%nat.
Proof.
  revert description_lines.
  induction lines as [| l lines IH]; simpl; intros desc E.
  - inversion E; subst. simpl. lia.
  - destruct (is_transaction_start l).
    + inversion E; subst. simpl. lia.
    + apply IH in E. lia.
Qed.

(** The loop does not depend on the fuel once there is one unit per line. *)
Lemma scan_lines_fuel (f1 f2 : nat) (lines : list pystr) (txs : list Transaction) :
  (length lines <= f1)%nat -> (length lines <= f2)%nat ->
  scan_lines f1 lines txs = scan_lines f2 lines txs.
Proof.
  revert f2 lines txs.
  induction f1 as [| f1 IH]; intros f2 lines txs H1 H2.
  - destruct lines; [| simpl in H1; lia]. destruct f2; reflexivity.
  - destruct lines as [| line rest]; [destruct f2; reflexivity |].
    destruct f2 as [| f2]; [simpl in H2; lia |].
    simpl in H1, H2. simpl.
    destruct (re_match TRANSACTION_DATE_PATTERN line) as [dm |]; [| apply IH; lia].
    destruct (re_search AMOUNT_PATTERN line) as [am |].
    + destruct (collect_trailing _ rest) as [d lines'] eqn:E.
      apply collect_trailing_rest in E.
      destruct (make_transaction _ _ d am); simpl; [apply IH; lia | reflexivity].
    + destruct (collect_until_amount _ rest) as [[d am] lines'] eqn:E.
      apply collect_until_amount_rest in E.
      destruct am as [am |]; [| apply IH; lia].
      destruct (make_transaction _ _ d am); simpl; [apply IH; lia | reflexivity].
Qed.

(** The loop equations of [while i < len(lines)]. *)
Lemma extract_lines_nil (txs : list Transaction) : extract_lines [] txs = Ok txs.
Proof. reflexivity. Qed.

Lemma extract_lines_cons (line : pystr) (rest : list pystr) (txs : list Transaction) :
  extract_lines (line :: rest) txs =
  match re_match TRANSACTION_DATE_PATTERN line with
  | None => extract_lines rest txs
  | Some date_match =>
      match re_search AMOUNT_PATTERN line with
      | None =>
          match collect_until_amount [slice_from line (m_end date_match)] rest with
          | (_, None, lines') => extract_lines lines' txs
          | (description_lines, Some amount_match, lines') =>
              transaction <- make_transaction (group date_match 1) (group date_match 2)
                               description_lines amount_match ;;
              extract_lines lines' (txs ++ [transaction])
          end
      | Some amount_match =>
          let (description_lines, lines') :=
            collect_trailing
              [strip (slice line (m_end date_match) (m_start amount_match))] rest in
          transaction <- make_transaction (group date_match 1) (group date_match 2)
                           description_lines amount_match ;;
          extract_lines lines' (txs ++ [transaction])
      end
  end.
Proof.
  unfold extract_lines. simpl.
  destruct (re_match TRANSACTION_DATE_PATTERN line) as [dm |]; [| reflexivity].
  destruct (re_search AMOUNT_PATTERN line) as [am |].
  - destruct (collect_trailing _ rest) as [d lines'] eqn:E.
    apply collect_trailing_rest in E.
    destruct (make_transaction _ _ d am); simpl; [| reflexivity].
    apply scan_lines_fuel; lia.
  - destruct (collect_until_amount _ rest) as [[d am] lines'] eqn:E.
    apply collect_until_amount_rest in E.
    destruct am as [am |]; [| apply scan_lines_fuel; lia].
    destruct (make_transaction _ _ d am); simpl; [| reflexivity].
    apply scan_lines_fuel; lia.
Qed.

(** Description lines with neither a date nor an amount, then a new start
    line: the inner loop breaks there with no amount. *)
Lemma collect_until_amount_breaks (body : list pystr) (next_start : pystr)
    (rest description_lines : list pystr) :
  Forall (fun l => is_transaction_start l = false
                   /\ re_search AMOUNT_PATTERN l = None) body ->
  is_transaction_start next_start = true ->
  exists d, collect_until_amount description_lines (body ++ next_start :: rest)
            = (d, None, next_start :: rest).
Proof.
  intros Hbody Hstart. revert description_lines.
  induction Hbody as [| l body [Hl1 Hl2] _ IH]; intros desc; simpl.
  - rewrite Hstart. eexists. reflexivity.
  - rewrite Hl1, Hl2. apply IH.
Qed.

Lemma collect_trailing_until_start (trailing rest description_lines : list pystr) :
  Forall (fun l => is_transaction_start l = false) trailing ->
  match rest with
  | [] => True
  | l :: _ => is_transaction_start l = true
  end ->
  collect_trailing description_lines (trailing ++ rest)
  = (description_lines ++ filter (fun l => negb (is_trailing_boilerplate l)) trailing, rest).
Proof.
  intros Htr Hrest. revert description_lines.
  induction Htr as [| l trailing Hl _ IH]; intros desc; simpl.
  - rewrite app_nil_r. destruct rest as [| l rest]; simpl; [reflexivity |].
    rewrite Hrest. reflexivity.
  - rewrite Hl, IH. destruct (is_trailing_boilerplate l); simpl.
    + reflexivity.
    + rewrite <- app_assoc. reflexivity.
Qed.

End Segmenter.

Section SegmenterResume.
Context {U : Unicode}.

(** Both inner loops stop at the first transaction-start line: what they
    return does not depend on what follows it. *)
Lemma collect_trailing_app (p description_lines : list pystr) :
  exists d p',
    (length p' <= length p)%nat
    /\ forall S, at_boundary S ->
         collect_trailing description_lines (p ++ S) = (d, p' ++ S).
Proof.
  revert description_lines.
  induction p as [| l p IH]; intros desc.
  - exists desc, []. split; [simpl; lia |].
    intros [| l' S'] H'; simpl in *; [reflexivity |]. rewrite H'. reflexivity.
  - simpl. destruct (is_transaction_start l) eqn:El.
    + exists desc, (l :: p). split; [simpl; lia |]. intros; reflexivity.
    + destruct (IH (if is_trailing_boilerplate l then desc else desc ++ [l]))
        as (d & p' & Hlen & Hp).
      exists d, p'. split; [lia | exact Hp].
Qed.

Lemma collect_until_amount_app (p description_lines : list pystr) :
  exists d am p',
    (length p' <= length p)%nat
    /\ forall S, at_boundary S ->
         collect_until_amount description_lines (p ++ S) = (d, am, p' ++ S).
Proof.
  revert description_lines.
  induction p as [| l p IH]; intros desc.
  - exists desc, None, []. split; [simpl; lia |].
    intros [| l' S'] H'; simpl in *; [reflexivity |]. rewrite H'. reflexivity.
  - simpl. destruct (is_transaction_start l) eqn:El.
    + exists desc, None, (l :: p). split; [simpl; lia |]. intros; reflexivity.
    + destruct (re_search AMOUNT_PATTERN l) as [am |].
      * eexists _, (Some am), p. split; [lia |]. intros; reflexivity.
      * destruct (IH (if is_boilerplate l then desc else desc ++ [l]))
          as (d & am & p' & Hlen & Hp).
        exists d, am, p'. split; [lia | exact Hp].
Qed.

(** Scanning up to a transaction boundary, then from it: the outer loop is
    at index [i] whenever [lines[i]] is a transaction-start line. *)
Lemma extract_lines_app_bounded (n : nat) (pre S : list pystr) (txs : list Transaction) :
  (length pre <= n)%nat ->
  at_boundary S ->
  extract_lines (pre ++ S) txs = (t <- extract_lines pre txs ;; extract_lines S t).
Proof.
  revert pre txs.
  induction n as [| n IH]; intros pre txs Hn HS.
  - destruct pre; [reflexivity | simpl in Hn; lia].
  - destruct pre as [| line pre]; [reflexivity |].
    simpl in Hn. simpl app. rewrite !extract_lines_cons.
    destruct (re_match TRANSACTION_DATE_PATTERN line) as [dm |]; [| apply IH; auto; lia].
    destruct (re_search AMOUNT_PATTERN line) as [am |].
    + destruct (collect_trailing_app pre [strip (slice line (m_end dm) (m_start am))])
        as (d & p' & Hlen & Hp).
      rewrite (Hp S HS). pose proof (Hp [] I) as Hnil. rewrite !app_nil_r in Hnil.
      rewrite Hnil.
      destruct (make_transaction _ _ d am); simpl; [apply IH; auto; lia | reflexivity].
    + destruct (collect_until_amount_app pre [slice_from line (m_end dm)])
        as (d & am & p' & Hlen & Hp).
      rewrite (Hp S HS). pose proof (Hp [] I) as Hnil. rewrite !app_nil_r in Hnil.
      rewrite Hnil.
      destruct am as [am |]; [| apply IH; auto; lia].
      destruct (make_transaction _ _ d am); simpl; [apply IH; auto; lia | reflexivity].
Qed.

Lemma extract_lines_app (pre S : list pystr) (txs : list Transaction) :
  at_boundary S ->
  extract_lines (pre ++ S) txs = (t <- extract_lines pre txs ;; extract_lines S t).
Proof.
  apply (extract_lines_app_bounded (length pre)). lia.
Qed.

(** A candidate whose lines have no amount, met at the head of the scan. *)
Lemma discard_at_head (start_line : pystr) (body : list pystr) (next_start : pystr)
    (rest : list pystr) (txs : list Transaction) :
  is_transaction_start start_line = true ->
  re_search AMOUNT_PATTERN start_line = None ->
  Forall (fun l => is_transaction_start l = false
                   /\ re_search AMOUNT_PATTERN l = None) body ->
  is_transaction_start next_start = true ->
  extract_lines (start_line :: body ++ next_start :: rest) txs
  = extract_lines (next_start :: rest) txs.
Proof.
  intros Hs Ha Hbody Hn.
  rewrite extract_lines_cons.
  unfold is_transaction_start in Hs.
  destruct (re_match TRANSACTION_DATE_PATTERN start_line) as [dm |]; [| discriminate].
  rewrite Ha.
  destruct (collect_until_amount_breaks body next_start rest
              [slice_from start_line (m_end dm)] Hbody Hn) as [d Hd].
  rewrite Hd. reflexivity.
Qed.

End SegmenterResume.

(** C3. A candidate transaction whose start line and following lines have
    no amount, up to the next transaction-start line, is discarded: the
    page is scanned exactly as if the candidate's lines were not there, with
    the same transactions, or the same exception, as the scan that resumes at
    the new transaction-start line. The list of transactions is all the
    segmenter returns: there is no warning to emit. *)
Theorem candidate_without_amount_is_discarded `{U : Unicode}
    (pre : list pystr) (start_line : pystr) (body : list pystr) (next_start : pystr)
    (rest : list pystr) (txs : list Transaction) :
  is_transaction_start start_line = true ->
  re_search AMOUNT_PATTERN start_line = None ->
  Forall (fun l => is_transaction_start l = false
                   /\ re_search AMOUNT_PATTERN l = None) body ->
  is_transaction_start next_start = true ->
  extract_lines (start_line :: body ++ next_start :: rest) txs
  = extract_lines (next_start :: rest) txs
  /\ extract_lines (pre ++ start_line :: body ++ next_start :: rest) txs
     = extract_lines (pre ++ next_start :: rest) txs.
Proof.
  intros Hs Ha Hbody Hn.
  split; [apply discard_at_head; assumption |].
  rewrite (extract_lines_app pre (start_line :: body ++ next_start :: rest)) by exact Hs.
  rewrite (extract_lines_app pre (next_start :: rest)) by exact Hn.
  destruct (extract_lines pre txs); simpl; [| reflexivity].
  apply discard_at_head; assumption.
Qed.

Lemma candidate_without_amount_is_discarded_witness :
  (is_transaction_start sample_candidate = true
   /\ re_search AMOUNT_PATTERN sample_candidate = None
   /\ is_transaction_start sample_next = true)
  /\ extract_lines ([sample_letterhead] ++ sample_candidate :: sample_candidate_body
                      ++ sample_next :: []) []
     = extract_lines ([sample_letterhead] ++ sample_next :: []) []
  /\ fmap (map reference) (extract_lines ([sample_letterhead] ++ sample_next :: []) [])
     = Ok [u "REF5"].
Proof.
  split; [repeat split; vm_compute; reflexivity |].
  split; [| vm_compute; reflexivity].
  apply (candidate_without_amount_is_discarded [sample_letterhead] sample_candidate
           sample_candidate_body sample_next [] []).
  - vm_compute; reflexivity.
  - vm_compute; reflexivity.
  - repeat constructor; vm_compute; reflexivity.
  - vm_compute; reflexivity.
Defined.

(** C5. A transaction-start line that has the amount on it closes the
    transaction on that line: the first description line is the text
    between the date fields and the amount (stripped), and the lines that
    follow, up to the next transaction-start line or the end of the page and
    without the page boilerplate, are appended to the description lines, from
    which [raw_description], the type and the counterparty are computed. *)
Theorem amount_on_start_line_closes `{U : Unicode}
    (pre : list pystr) (line : pystr) (trailing rest : list pystr)
    (txs : list Transaction) (date_match amount_match : Match) :
  re_match TRANSACTION_DATE_PATTERN line = Some date_match ->
  re_search AMOUNT_PATTERN line = Some amount_match ->
  Forall (fun l => is_transaction_start l = false) trailing ->
  at_boundary rest ->
  let description_lines :=
    strip (slice line (m_end date_match) (m_start amount_match))
      :: filter (fun l => negb (is_trailing_boilerplate l)) trailing in
  let closed := make_transaction (group date_match 1) (group date_match 2)
                  description_lines amount_match in
  extract_lines (pre ++ line :: trailing ++ rest) txs
  = (before <- extract_lines pre txs ;;
     transaction <- closed ;;
     extract_lines rest (before ++ [transaction]))
  /\ forall transaction, closed = Ok transaction ->
       raw_description transaction = join (u " ") description_lines
       /\ type transaction = _detect_transaction_type (join (u " ") description_lines)
       /\ counterparty transaction
          = _extract_counterparty description_lines (type transaction).
Proof.
  intros Hd Ha Htr Hrest description_lines closed.
  split.
  - rewrite (extract_lines_app pre (line :: trailing ++ rest))
      by (unfold at_boundary, is_transaction_start; rewrite Hd; reflexivity).
    destruct (extract_lines pre txs) as [before |]; simpl; [| reflexivity].
    rewrite extract_lines_cons, Hd, Ha.
    rewrite (collect_trailing_until_start trailing rest _ Htr Hrest).
    reflexivity.
  - intros transaction E. subst closed. unfold make_transaction in E.
    destruct (_parse_posting_date _); simpl in E; [| discriminate].
    destruct (_parse_short_date _ _); simpl in E; [| discriminate].
    destruct (_parse_decimal _); simpl in E; [| discriminate].
    destruct (_parse_decimal _); simpl in E; [| discriminate].
    inversion E; subst; clear E. simpl. auto.
Qed.

Lemma amount_on_start_line_closes_witness :
  (is_transaction_start sample_closed = true
   /\ is_some (re_search AMOUNT_PATTERN sample_closed) = true
   /\ at_boundary [sample_next])
  /\ fmap (map (fun tx => (reference tx, description tx, raw_description tx,
                           option_map cp_name (counterparty tx),
                           option_map cp_reference (counterparty tx))))
       (extract_lines ([sample_letterhead] ++ sample_closed :: sample_trailing
                         ++ [sample_next]) [])
     = Ok [ (u "REF4", u "СЕПА ПОЛУЧЕН ПРЕВОД",
             u "REF4 СЕПА ПОЛУЧЕН ПРЕВОД ACME CLIENT F. 2400003707",
             Some (Some (u "ACME CLIENT")), Some (Some (u "F. 2400003707")));
            (u "REF5", u "ПРЕВОД", u "REF5 ПРЕВОД", None, None) ].
Proof.
  split; [repeat split; vm_compute; reflexivity |].
  destruct (re_match TRANSACTION_DATE_PATTERN sample_closed) as [dm |] eqn:Ed;
    [| vm_compute in Ed; discriminate].
  destruct (re_search AMOUNT_PATTERN sample_closed) as [am |] eqn:Ea;
    [| vm_compute in Ea; discriminate].
  rewrite (proj1 (amount_on_start_line_closes [sample_letterhead] sample_closed
                    sample_trailing [sample_next] [] dm am Ed Ea
                    ltac:(repeat constructor; vm_compute; reflexivity)
                    ltac:(vm_compute; reflexivity))).
  vm_compute in Ed. vm_compute in Ea.
  inversion Ed; inversion Ea; subst.
  vm_compute. reflexivity.
Defined.

(** ** The regular-expression matcher *)

Section RegexFacts.
Context {U : Unicode}.

(** Under no flag a literal matches itself only. *)
Lemma lit_match_exact (s : pystr) (pos : nat) (prev : option cp) (rest : pystr)
    (pos' : nat) (prev' : option cp) (rest' : pystr) :
  lit_match no_flags s pos prev rest = Some (pos', prev', rest') ->
  rest = s ++ rest' /\ pos' = (pos + length s)%nat.
Proof.
  revert pos prev rest.
  induction s as [| x s IH]; simpl; intros pos prev rest E.
  - inversion E; subst. split; [reflexivity | lia].
  - destruct rest as [| c rest]; [discriminate |].
    unfold char_matches, atom_matches in E. simpl in E.
    destruct (N.eqb_spec c x) as [-> | _]; [| discriminate].
    apply IH in E. destruct E as [-> ->]. split; [reflexivity | lia].
Qed.

(** A repetition consumes a run of characters of its class, at least [lo]
    of them, and then the continuation succeeds. *)
Lemma rep_match_run (p : cp -> bool) (greedy : bool) (k : mstate -> option mstate)
    (rest : pystr) (lo : nat) (hi : option nat) (pos : nat) (prev : option cp)
    (groups : list (nat * (nat * nat))) (res : mstate) :
  rep_match p greedy lo hi k pos prev groups rest = Some res ->
  exists run rest' prev',
    rest = run ++ rest'
    /\ forallb p run = true
    /\ (lo <= length run)%nat
    /\ k (mkMstate (pos + length run) prev' rest' groups) = Some res.
Proof.
  revert lo hi pos prev.
  induction rest as [| c rest IH]; intros lo hi pos prev E; simpl in E.
  - destruct lo; [| discriminate].
    exists [], [], prev. simpl. rewrite Nat.add_0_r. auto.
  - assert (Hstop : k (mkMstate pos prev (c :: rest) groups) = Some res ->
                    lo = 0%nat ->
                    exists run rest' prev',
                      c :: rest = run ++ rest' /\ forallb p run = true
                      /\ (lo <= length run)%nat
                      /\ k (mkMstate (pos + length run) prev' rest' groups) = Some res).
    { intros Hk ->. exists [], (c :: rest), prev. simpl. rewrite Nat.add_0_r. auto. }
    assert (Hmore : forall lo' hi',
              p c = true ->
              rep_match p greedy lo' hi' k (S pos) (Some c) groups rest = Some res ->
              (lo <= S lo')%nat ->
              exists run rest' prev',
                c :: rest = run ++ rest' /\ forallb p run = true
                /\ (lo <= length run)%nat
                /\ k (mkMstate (pos + length run) prev' rest' groups) = Some res).
    { intros lo' hi' Hp Hr Hlo. apply IH in Hr.
      destruct Hr as (run & rest' & prev' & -> & Hall & Hlen & Hk).
      exists (c :: run), rest', prev'. simpl. rewrite Hp, Hall.
      replace (pos + S (length run))%nat with (S pos + length run)%nat by lia.
      repeat split; auto; lia. }
    destruct lo as [| lo'].
    + destruct (p c) eqn:Hp; simpl in E; [| apply Hstop; auto].
      destruct (may_repeat hi); simpl in E; [| apply Hstop; auto].
      destruct greedy.
      * destruct (rep_match p true 0 (option_map pred hi) k (S pos) (Some c) groups rest)
          eqn:Er.
        -- inversion E; subst. apply (Hmore 0%nat (option_map pred hi)); auto.
        -- apply Hstop; auto.
      * destruct (k (mkMstate pos prev (c :: rest) groups)) eqn:Ek.
        -- inversion E; subst. apply Hstop; auto.
        -- apply (Hmore 0%nat (option_map pred hi)); auto.
    + destruct (p c) eqn:Hp; simpl in E; [| discriminate].
      destruct (may_repeat hi); simpl in E; [| discriminate].
      apply (Hmore lo' (option_map pred hi)); auto.
Qed.

Lemma match_here_start (p : pattern) (subject : pystr) (pos : nat) (prev : option cp)
    (rest : pystr) (m : Match) :
  match_here p subject pos prev rest = Some m -> m_start m = pos.
Proof.
  unfold match_here. destruct (rmatch _ _ _ _); [| discriminate].
  intros E. inversion E; reflexivity.
Qed.

(** [search] returns a match found at its start index. *)
Lemma search_from_here (p : pattern) (subject : pystr) (rest : pystr) (pos : nat)
    (prev : option cp) (m : Match) :
  search_from p subject pos prev rest = Some m ->
  exists k prev',
    m_start m = (pos + k)%nat
    /\ (k <= length rest)%nat
    /\ match_here p subject (pos + k) prev' (skipn k rest) = Some m.
Proof.
  assert (Hhere : forall r i pv,
            match_here p subject i pv r = Some m ->
            exists k prev', m_start m = (i + k)%nat /\ (k <= length r)%nat
               /\ match_here p subject (i + k) prev' (skipn k r) = Some m).
  { intros r i pv Eh. exists 0%nat, pv. rewrite Nat.add_0_r. simpl.
    pose proof (match_here_start _ _ _ _ _ _ Eh). repeat split; auto; lia. }
  revert pos prev.
  induction rest as [| c rest IH]; intros pos prev E; simpl in E.
  - destruct (match_here p subject pos prev []) as [m' |] eqn:Eh; [| discriminate].
    inversion E; subst. apply (Hhere [] pos prev Eh).
  - destruct (match_here p subject pos prev (c :: rest)) as [m' |] eqn:Eh.
    + inversion E; subst. apply (Hhere (c :: rest) pos prev Eh).
    + apply IH in E. destruct E as (k & prev' & Hs & Hk & Hm).
      exists (S k), prev'. simpl.
      replace (pos + S k)%nat with (S pos + k)%nat by lia.
      repeat split; auto; lia.
Qed.

Lemma re_search_here (p : pattern) (s : pystr) (m : Match) :
  re_search p s = Some m ->
  (m_start m <= length s)%nat
  /\ exists prev, match_here p s (m_start m) prev (skipn (m_start m) s) = Some m.
Proof.
  intros E. apply search_from_here in E.
  destruct E as (k & prev & Hs & Hk & Hm). simpl in Hs. subst k.
  split; [exact Hk | exists prev; exact Hm].
Qed.

(** Every match of [finditer] is a match found at its start index. *)
Lemma finditer_from_here (p : pattern) (subject : pystr) (rest : pystr) (skip pos : nat)
    (prev : option cp) (m : Match) :
  In m (finditer_from p subject skip pos prev rest) ->
  exists k prev',
    m_start m = (pos + k)%nat
    /\ (k <= length rest)%nat
    /\ match_here p subject (pos + k) prev' (skipn k rest) = Some m.
Proof.
  revert skip pos prev.
  assert (Hshift : forall c r i,
            (exists k prev', m_start m = (S i + k)%nat /\ (k <= length r)%nat
               /\ match_here p subject (S i + k) prev' (skipn k r) = Some m) ->
            exists k prev', m_start m = (i + k)%nat /\ (k <= length (c :: r))%nat
               /\ match_here p subject (i + k) prev' (skipn k (c :: r)) = Some m).
  { intros c r i (k & prev' & Hs & Hk & Hm). exists (S k), prev'. simpl.
    replace (i + S k)%nat with (S i + k)%nat by lia. repeat split; auto; lia. }
  assert (Hhere : forall r i pv m',
            match_here p subject i pv r = Some m' -> m = m' ->
            exists k prev', m_start m = (i + k)%nat /\ (k <= length r)%nat
               /\ match_here p subject (i + k) prev' (skipn k r) = Some m).
  { intros r i pv m' Eh <-. exists 0%nat, pv. rewrite Nat.add_0_r. simpl.
    pose proof (match_here_start _ _ _ _ _ _ Eh). repeat split; auto; lia. }
  induction rest as [| c rest IH]; intros skip pos prev Hin.
  - destruct skip; simpl in Hin; [| contradiction].
    destruct (match_here p subject pos prev []) as [m' |] eqn:Eh; [| contradiction].
    destruct Hin as [Hin | []]. apply (Hhere [] pos prev m'); auto.
  - destruct skip as [| skip]; simpl in Hin.
    + destruct (match_here p subject pos prev (c :: rest)) as [m' |] eqn:Eh.
      * destruct Hin as [Hin | Hin]; [apply (Hhere (c :: rest) pos prev m'); auto |].
        apply Hshift. apply IH in Hin. exact Hin.
      * apply Hshift. apply IH in Hin. exact Hin.
    + apply Hshift. apply IH in Hin. exact Hin.
Qed.

Lemma re_finditer_here (p : pattern) (s : pystr) (m : Match) :
  In m (re_finditer p s) ->
  (m_start m <= length s)%nat
  /\ exists prev, match_here p s (m_start m) prev (skipn (m_start m) s) = Some m.
Proof.
  intros E. apply finditer_from_here in E.
  destruct E as (k & prev & Hs & Hk & Hm). simpl in Hs. subst k.
  split; [exact Hk | exists prev; exact Hm].
Qed.

End RegexFacts.

(** ** The footer extractor *)

Section Footer.
Context {U : Unicode}.

Lemma rmatch_seq_lit (s : pystr) (r : regex) (k : mstate -> option mstate)
    (st res : mstate) :
  rmatch no_flags (Seq (Lit s) r) k st = Some res ->
  exists rest' prev',
    ms_rest st = s ++ rest'
    /\ rmatch no_flags r k
         (mkMstate (ms_pos st + length s) prev' rest' (ms_groups st)) = Some res.
Proof.
  cbn [rmatch].
  destruct (lit_match no_flags s (ms_pos st) (ms_prev st) (ms_rest st))
    as [[[pos' prev'] rest'] |] eqn:E; [| discriminate].
  apply lit_match_exact in E. destruct E as [E ->].
  intros H. exists rest', prev'. split; assumption.
Qed.

Lemma rmatch_seq_rep (fl : flags) (a : atom) (lo : nat) (hi : option nat) (greedy : bool)
    (r : regex) (k : mstate -> option mstate) (st res : mstate) :
  rmatch fl (Seq (Rep a lo hi greedy) r) k st = Some res ->
  exists run rest' prev',
    ms_rest st = run ++ rest'
    /\ forallb (atom_matches fl a) run = true
    /\ (lo <= length run)%nat
    /\ rmatch fl r k (mkMstate (ms_pos st + length run) prev' rest' (ms_groups st))
       = Some res.
Proof.
  cbn [rmatch]. apply rep_match_run.
Qed.

Lemma forallb_space (run : pystr) :
  forallb (atom_matches no_flags space) run = forallb isspace run.
Proof.
  induction run as [| c run IH]; simpl; [reflexivity |].
  rewrite IH. unfold atom_matches. simpl. rewrite orb_false_r. reflexivity.
Qed.

(** Where the accumulated-debit pattern matches, the text reads [BGN], at
    least one blank, and the debit label. *)
Lemma accumulated_debit_anchor (subject : pystr) (pos : nat) (prev : option cp)
    (rest : pystr) (m : Match) :
  match_here ACCUMULATED_DEBIT_PATTERN subject pos prev rest = Some m ->
  exists blanks tail,
    rest = u "BGN" ++ blanks ++ u "Дебит:" ++ tail
    /\ blanks <> []
    /\ forallb isspace blanks = true.
Proof.
  unfold match_here.
  destruct (rmatch _ _ _ _) as [res |] eqn:E; [| discriminate]. intros _.
  unfold ACCUMULATED_DEBIT_PATTERN, compile, eur_bgn_pair, lit, plus in E.
  cbn [p_regex p_flags seq app] in E.
  apply rmatch_seq_lit in E. destruct E as (r1 & pv1 & H1 & E). cbn [ms_rest] in H1.
  apply rmatch_seq_rep in E.
  destruct E as (blanks & r2 & pv2 & H2 & Hall & Hlen & E). cbn [ms_rest] in H2.
  apply rmatch_seq_lit in E. destruct E as (r3 & pv3 & H3 & _). cbn [ms_rest] in H3.
  exists blanks, r3. subst. rewrite forallb_space in Hall.
  repeat split; auto.
  destruct blanks; [simpl in Hlen; lia | discriminate].
Qed.

(** Where the credit pattern matches, the text reads the credit label. *)
Lemma credit_label (subject : pystr) (pos : nat) (prev : option cp)
    (rest : pystr) (m : Match) :
  match_here ALL_CREDITS_PATTERN subject pos prev rest = Some m ->
  exists tail, rest = u "Кредит:" ++ tail.
Proof.
  unfold match_here.
  destruct (rmatch _ _ _ _) as [res |] eqn:E; [| discriminate]. intros _.
  unfold ALL_CREDITS_PATTERN, compile, eur_bgn_pair, lit in E.
  cbn [p_regex p_flags seq app] in E.
  apply rmatch_seq_lit in E. destruct E as (r1 & pv1 & H1 & _). cbn [ms_rest] in H1.
  exists r1. exact H1.
Qed.

Lemma accumulated_of_page_cases (last_page : pystr) :
  accumulated_of_page last_page =
  match re_search ACCUMULATED_DEBIT_PATTERN last_page,
        re_finditer ALL_CREDITS_PATTERN last_page with
  | Some dm, _ :: cm :: _ =>
      d <- balance_of_match dm ;;
      c <- balance_of_match cm ;;
      Ok (mkTurnover d c)
  | _, _ => Ok zero_turnover
  end.
Proof.
  unfold accumulated_of_page.
  destruct (re_search ACCUMULATED_DEBIT_PATTERN last_page) as [dm |];
    destruct (re_finditer ALL_CREDITS_PATTERN last_page) as [| c1 [| c2 cs]];
    reflexivity.
Qed.

Lemma extract_footer_accumulated (pages_text : list pystr) (footer : Footer) :
  extract_footer pages_text = Ok footer ->
  accumulated_of_page (summary_page pages_text) = Ok (f_accumulated_turnover footer).
Proof.
  unfold extract_footer.
  destruct (match re_search CLOSING_BALANCE_PATTERN _ with Some _ => _ | None => _ end);
    simpl; [| discriminate].
  destruct (match re_search TURNOVER_DEBIT_PATTERN _ with Some _ => _ | None => _ end);
    simpl; [| discriminate].
  destruct (accumulated_of_page _); simpl; [| discriminate].
  intros E. inversion E; reflexivity.
Qed.

End Footer.

Lemma finditer_from_sorted `{U : Unicode} (p : pattern) (subject : pystr) (rest : pystr)
    (skip pos : nat) (prev : option cp) :
  StronglySorted (fun a b => (m_start a < m_start b)%nat)
    (finditer_from p subject skip pos prev rest).
Proof.
  revert skip pos prev.
  induction rest as [| c rest IH]; intros skip pos prev.
  - destruct skip; simpl; [| constructor].
    destruct (match_here p subject pos prev []); repeat constructor.
  - destruct skip as [| skip]; simpl; [| apply IH].
    destruct (match_here p subject pos prev (c :: rest)) as [m |] eqn:Eh; [| apply IH].
    constructor; [apply IH |].
    apply Forall_forall. intros m' Hin.
    apply finditer_from_here in Hin. destruct Hin as (k & _ & Hs & _).
    apply match_here_start in Eh. lia.
Qed.



(** ** Two-digit years *)

Section Years.
Context {U : Unicode}.

Lemma new_date_year (y m d : Z) (dt : date) : new_date y m d = Ok dt -> year dt = y.
Proof.
  unfold new_date. destruct (_ && _); [| discriminate].
  intros E. inversion E; reflexivity.
Qed.

Lemma parse_posting_date_year (date_str : pystr) (dt : date) :
  _parse_posting_date date_str = Ok dt ->
  exists yy_str yy,
    subscript (split_on (ch "/") date_str) 2 = Ok yy_str
    /\ int yy_str = Ok yy
    /\ year dt = (2000 + yy)%Z.
Proof.
  unfold _parse_posting_date.
  destruct (subscript _ 2) as [p2 |] eqn:E2; simpl; [| discriminate].
  destruct (int p2) as [yy |] eqn:Ey; simpl; [| discriminate].
  destruct (subscript _ 1) as [p1 |]; simpl; [| discriminate].
  destruct (int p1) as [m |]; simpl; [| discriminate].
  destruct (subscript _ 0) as [p0 |]; simpl; [| discriminate].
  destruct (int p0) as [d |]; simpl; [| discriminate].
  intros E. apply new_date_year in E. exists p2, yy. repeat split; auto.
Qed.

Lemma parse_short_date_year (date_str : pystr) (y : Z) (dt : date) :
  _parse_short_date date_str y = Ok dt -> year dt = y.
Proof.
  unfold _parse_short_date.
  destruct (subscript _ 1) as [p1 |]; simpl; [| discriminate].
  destruct (int p1) as [m |]; simpl; [| discriminate].
  destruct (subscript _ 0) as [p0 |]; simpl; [| discriminate].
  destruct (int p0) as [d |]; simpl; [| discriminate].
  apply new_date_year.
Qed.

Lemma make_transaction_years (posting_date_str value_date_str : pystr)
    (description_lines : list pystr) (amount_match : Match) (tx : Transaction) :
  make_transaction posting_date_str value_date_str description_lines amount_match = Ok tx ->
  exists yy_str yy,
    subscript (split_on (ch "/") posting_date_str) 2 = Ok yy_str
    /\ int yy_str = Ok yy
    /\ year (posting_date tx) = (2000 + yy)%Z
    /\ year (value_date tx) = (2000 + yy)%Z.
Proof.
  unfold make_transaction.
  destruct (_parse_posting_date _) as [pd |] eqn:Ep; simpl; [| discriminate].
  destruct (_parse_short_date _ _) as [vd |] eqn:Ev; simpl; [| discriminate].
  destruct (_parse_decimal _); simpl; [| discriminate].
  destruct (_parse_decimal _); simpl; [| discriminate].
  intros E. inversion E; subst; clear E. simpl.
  apply parse_posting_date_year in Ep. destruct Ep as (p2 & yy & H1 & H2 & H3).
  apply parse_short_date_year in Ev.
  exists p2, yy. repeat split; auto. rewrite Ev. exact H3.
Qed.

Lemma collect_until_amount_incl (lines description_lines d : list pystr)
    (am : option Match) (rest : list pystr) :
  collect_until_amount description_lines lines = (d, am, rest) -> incl rest lines.
Proof.
  revert description_lines.
  induction lines as [| l lines IH]; simpl; intros desc E.
  - inversion E; subst. apply incl_refl.
  - destruct (is_transaction_start l).
    + inversion E; subst. apply incl_refl.
    + destruct (re_search AMOUNT_PATTERN l).
      * inversion E; subst. apply incl_tl, incl_refl.
      * apply IH in E. apply incl_tl, E.
Qed.

Lemma collect_trailing_incl (lines description_lines d rest : list pystr) :
  collect_trailing description_lines lines = (d, rest) -> incl rest lines.
Proof.
  revert description_lines.
  induction lines as [| l lines IH]; simpl; intros desc E.
  - inversion E; subst. apply incl_refl.
  - destruct (is_transaction_start l).
    + inversion E; subst. apply incl_refl.
    + apply IH in E. apply incl_tl, E.
Qed.

(** Every transaction the scan adds was made from a start line it read. *)
Lemma scan_lines_provenance (P : Transaction -> Prop) (fuel : nat) (lines : list pystr)
    (txs r : list Transaction) :
  Forall P txs ->
  (forall line dm d am tx,
     In line lines ->
     re_match TRANSACTION_DATE_PATTERN line = Some dm ->
     make_transaction (group dm 1) (group dm 2) d am = Ok tx -> P tx) ->
  scan_lines fuel lines txs = Ok r ->
  Forall P r.
Proof.
  revert lines txs.
  induction fuel as [| fuel IH]; intros lines txs Htxs Hmk E.
  - simpl in E. inversion E; subst. exact Htxs.
  - destruct lines as [| line rest]; simpl in E; [inversion E; subst; exact Htxs |].
    assert (Hrest : forall lines', incl lines' rest ->
              forall l dm d am tx, In l lines' ->
                re_match TRANSACTION_DATE_PATTERN l = Some dm ->
                make_transaction (group dm 1) (group dm 2) d am = Ok tx -> P tx).
    { intros lines' Hincl l dm d am tx Hin. apply Hmk. right. apply Hincl, Hin. }
    destruct (re_match TRANSACTION_DATE_PATTERN line) as [dm |] eqn:Ed.
    + destruct (re_search AMOUNT_PATTERN line) as [am |].
      * destruct (collect_trailing _ rest) as [d lines'] eqn:Ec.
        apply collect_trailing_incl in Ec.
        destruct (make_transaction _ _ d am) as [tx |] eqn:Em; simpl in E; [| discriminate].
        apply (IH lines' (txs ++ [tx])); [| apply Hrest; exact Ec | exact E].
        apply Forall_app. split; [exact Htxs |].
        constructor; [| constructor].
        apply (Hmk line dm d am tx); auto. left; reflexivity.
      * destruct (collect_until_amount _ rest) as [[d am] lines'] eqn:Ec.
        apply collect_until_amount_incl in Ec.
        destruct am as [am |];
          [| apply (IH lines' txs); [exact Htxs | apply Hrest; exact Ec | exact E]].
        destruct (make_transaction _ _ d am) as [tx |] eqn:Em; simpl in E; [| discriminate].
        apply (IH lines' (txs ++ [tx])); [| apply Hrest; exact Ec | exact E].
        apply Forall_app. split; [exact Htxs |].
        constructor; [| constructor].
        apply (Hmk line dm d am tx); auto. left; reflexivity.
    + apply (IH rest txs); [exact Htxs | apply Hrest, incl_refl | exact E].
Qed.

Lemma extract_pages_posting_years (all_pages pages_text : list pystr)
    (txs r : list Transaction) :
  incl pages_text all_pages ->
  Forall (posting_year_from_line all_pages) txs ->
  extract_pages pages_text txs = Ok r ->
  Forall (posting_year_from_line all_pages) r.
Proof.
  revert txs.
  induction pages_text as [| page pages IH]; intros txs Hincl Htxs E; simpl in E.
  - inversion E; subst. exact Htxs.
  - destruct (extract_lines _ txs) as [txs' |] eqn:El; simpl in E; [| discriminate].
    apply (IH txs'); auto.
    + intros p Hp. apply Hincl. right. exact Hp.
    + unfold extract_lines in El.
      apply (scan_lines_provenance _ _ _ _ _ Htxs) in El; [exact El |].
      intros line dm d am tx Hin Hd Hm.
      apply make_transaction_years in Hm. destruct Hm as (p2 & yy & H1 & H2 & H3 & H4).
      exists page, line, dm, p2, yy. repeat split; auto.
      apply Hincl. left; reflexivity.
Qed.

Lemma parse_transactions (today : date) (pages_text : list pystr) (s : BankStatement) :
  parse today pages_text = Ok s ->
  extract_pages pages_text [] = Ok (transactions s).
Proof.
  unfold parse.
  destruct (extract_header today pages_text); simpl; [| discriminate].
  destruct (extract_footer pages_text); simpl; [| discriminate].
  unfold extract_transactions.
  destruct (extract_pages pages_text []); simpl; [| discriminate].
  intros E. inversion E; reflexivity.
Qed.

End Years.




(** ** Missing and malformed fields *)

Section Defaults.
Context {U : Unicode}.

Lemma nothing_matches_empty :
  re_search ACCOUNT_HOLDER_PATTERN [] = None
  /\ re_search ADDRESS_PATTERN [] = None
  /\ re_search IBAN_PATTERN [] = None
  /\ re_search CURRENCY_PATTERN [] = None
  /\ re_search PERIOD_PATTERN [] = None
  /\ re_search STATEMENT_NUM_PATTERN [] = None
  /\ re_search OPENING_BALANCE_PATTERN [] = None
  /\ re_search CLOSING_BALANCE_PATTERN [] = None
  /\ re_search TURNOVER_DEBIT_PATTERN [] = None
  /\ re_search ACCUMULATED_DEBIT_PATTERN [] = None
  /\ re_finditer ALL_CREDITS_PATTERN [] = [].
Proof.
  repeat split; vm_compute; reflexivity.
Qed.

Lemma extract_header_no_pages (today : date) :
  extract_header today [] = Ok (default_header today).
Proof.
  destruct nothing_matches_empty as (H1 & H2 & H3 & H4 & H5 & H6 & H7 & _).
  unfold extract_header. rewrite H1, H2, H3, H4, H5, H6, H7. reflexivity.
Qed.

Lemma summary_page_no_pages : summary_page [] = [].
Proof. reflexivity. Qed.

Lemma extract_footer_no_pages : extract_footer [] = Ok default_footer.
Proof.
  destruct nothing_matches_empty as (_ & _ & _ & _ & _ & _ & _ & H8 & H9 & H10 & _).
  unfold extract_footer. rewrite summary_page_no_pages, H8, H9.
  rewrite accumulated_of_page_cases, H10. reflexivity.
Qed.

(** The fields of a header that was returned: each one whose pattern did
    not match has its default. *)
Lemma extract_header_defaults (today : date) (pages_text : list pystr) (h : Header) :
  let first_page := match pages_text with p :: _ => p | [] => [] end in
  extract_header today pages_text = Ok h ->
  (re_search ACCOUNT_HOLDER_PATTERN first_page = None ->
   code (h_account_holder h) = [] /\ name (h_account_holder h) = [])
  /\ (re_search ADDRESS_PATTERN first_page = None -> address (h_account_holder h) = [])
  /\ (re_search IBAN_PATTERN first_page = None -> h_iban h = [])
  /\ (re_search CURRENCY_PATTERN first_page = None -> h_currency h = u "EUR")
  /\ (re_search PERIOD_PATTERN first_page = None -> h_period h = mkPeriod today today)
  /\ (re_search STATEMENT_NUM_PATTERN first_page = None ->
      h_statement_number h = 0%Z /\ h_statement_date h = today)
  /\ (re_search OPENING_BALANCE_PATTERN first_page = None ->
      h_opening_balance h = zero_balance).
Proof.
  intros first_page. unfold extract_header. fold first_page.
  destruct (match re_search PERIOD_PATTERN first_page with
            | Some _ => _ | None => _ end) as [dates |] eqn:Ep; simpl; [| discriminate].
  destruct (match re_search STATEMENT_NUM_PATTERN first_page with
            | Some _ => _ | None => _ end) as [stmt |] eqn:Es; simpl; [| discriminate].
  destruct (match re_search OPENING_BALANCE_PATTERN first_page with
            | Some _ => _ | None => _ end) as [ob |] eqn:Eo; simpl; [| discriminate].
  intros E. inversion E; subst; clear E. simpl.
  split; [intros H; rewrite H; split; reflexivity |].
  split; [intros H; rewrite H; reflexivity |].
  split; [intros H; rewrite H; reflexivity |].
  split; [intros H; rewrite H; reflexivity |].
  split; [intros H; rewrite H in Ep; inversion Ep; reflexivity |].
  split; [intros H; rewrite H in Es; inversion Es; split; reflexivity |].
  intros H; rewrite H in Eo; inversion Eo; reflexivity.
Qed.

(** A header is returned when none of the parsed fields matched. *)
Lemma extract_header_returns (today : date) (pages_text : list pystr) :
  let first_page := match pages_text with p :: _ => p | [] => [] end in
  re_search PERIOD_PATTERN first_page = None ->
  re_search STATEMENT_NUM_PATTERN first_page = None ->
  re_search OPENING_BALANCE_PATTERN first_page = None ->
  exists h, extract_header today pages_text = Ok h.
Proof.
  intros first_page Hp Hs Ho. unfold extract_header. fold first_page.
  rewrite Hp, Hs, Ho. simpl. eexists. reflexivity.
Qed.

Lemma extract_footer_defaults (pages_text : list pystr) (f : Footer) :
  let last_page := summary_page pages_text in
  extract_footer pages_text = Ok f ->
  (re_search CLOSING_BALANCE_PATTERN last_page = None ->
   f_closing_balance f = zero_balance)
  /\ (re_search TURNOVER_DEBIT_PATTERN last_page = None
      \/ re_search TURNOVER_CREDIT_PATTERN last_page = None ->
      f_turnover f = zero_turnover)
  /\ (re_search ACCUMULATED_DEBIT_PATTERN last_page = None
      \/ (length (re_finditer ALL_CREDITS_PATTERN last_page) < 2)%nat ->
      f_accumulated_turnover f = zero_turnover).
Proof.
  intros last_page E.
  pose proof (extract_footer_accumulated _ _ E) as Ha. fold last_page in Ha.
  rewrite accumulated_of_page_cases in Ha.
  unfold extract_footer in E. fold last_page in E.
  destruct (match re_search CLOSING_BALANCE_PATTERN last_page with
            | Some _ => _ | None => _ end) as [cb |] eqn:Ec; simpl in E; [| discriminate].
  destruct (match re_search TURNOVER_DEBIT_PATTERN last_page with
            | Some _ => _ | None => _ end) as [t |] eqn:Et; simpl in E; [| discriminate].
  destruct (accumulated_of_page last_page); simpl in E; [| discriminate].
  inversion E; subst; clear E. simpl in *.
  split; [| split].
  - intros H. rewrite H in Ec. inversion Ec; reflexivity.
  - intros [H | H]; rewrite H in Et.
    + inversion Et; reflexivity.
    + destruct (re_search TURNOVER_DEBIT_PATTERN last_page); inversion Et; reflexivity.
  - intros H.
    destruct H as [H | H].
    + rewrite H in Ha. inversion Ha; reflexivity.
    + destruct (re_search ACCUMULATED_DEBIT_PATTERN last_page);
        [| inversion Ha; reflexivity].
      destruct (re_finditer ALL_CREDITS_PATTERN last_page) as [| c1 [| c2 cs]];
        try (inversion Ha; reflexivity).
      simpl in H. lia.
Qed.

Lemma extract_footer_returns (pages_text : list pystr) :
  let last_page := summary_page pages_text in
  re_search CLOSING_BALANCE_PATTERN last_page = None ->
  re_search TURNOVER_DEBIT_PATTERN last_page = None
  \/ re_search TURNOVER_CREDIT_PATTERN last_page = None ->
  re_search ACCUMULATED_DEBIT_PATTERN last_page = None
  \/ (length (re_finditer ALL_CREDITS_PATTERN last_page) < 2)%nat ->
  exists f, extract_footer pages_text = Ok f.
Proof.
  intros last_page Hc Ht Ha. unfold extract_footer. fold last_page. rewrite Hc. simpl.
  assert (Et : match re_search TURNOVER_DEBIT_PATTERN last_page,
                     re_search TURNOVER_CREDIT_PATTERN last_page with
               | Some dm, Some cm =>
                   d <- balance_of_match dm ;; c <- balance_of_match cm ;;
                   Ok (mkTurnover d c)
               | _, _ => Ok zero_turnover
               end = Ok zero_turnover).
  { destruct Ht as [-> | ->]; [reflexivity |].
    destruct (re_search TURNOVER_DEBIT_PATTERN last_page); reflexivity. }
  rewrite Et. simpl.
  assert (Eacc : accumulated_of_page last_page = Ok zero_turnover).
  { rewrite accumulated_of_page_cases. destruct Ha as [-> | Ha]; [reflexivity |].
    destruct (re_search ACCUMULATED_DEBIT_PATTERN last_page); [| reflexivity].
    destruct (re_finditer ALL_CREDITS_PATTERN last_page) as [| c1 [| c2 cs]];
      try reflexivity.
    simpl in Ha. lia. }
  rewrite Eacc. simpl. eexists. reflexivity.
Qed.

(** Lines none of which starts a transaction give no transaction. *)
Lemma scan_lines_no_start (fuel : nat) (lines : list pystr) (txs : list Transaction) :
  Forall (fun l => is_transaction_start l = false) lines ->
  scan_lines fuel lines txs = Ok txs.
Proof.
  revert lines. induction fuel as [| fuel IH]; intros lines H; [reflexivity |].
  destruct lines as [| line rest]; [reflexivity |].
  inversion H as [| ? ? Hl Hrest]; subst. simpl.
  unfold is_transaction_start in Hl.
  destruct (re_match TRANSACTION_DATE_PATTERN line); [discriminate |].
  apply IH, Hrest.
Qed.

Lemma extract_pages_no_start (pages_text : list pystr) (txs : list Transaction) :
  Forall (fun page => Forall (fun l => is_transaction_start l = false)
                        (split_on newline page)) pages_text ->
  extract_pages pages_text txs = Ok txs.
Proof.
  induction 1 as [| page pages Hp _ IH]; simpl; [reflexivity |].
  unfold extract_lines. rewrite (scan_lines_no_start _ _ _ Hp). simpl. exact IH.
Qed.

End Defaults.




(** ** Dependence on the current date *)

Lemma extract_header_today (t1 t2 : date) `{U : Unicode} (pages_text : list pystr) :
  let first_page := match pages_text with p :: _ => p | [] => [] end in
  is_some (re_search PERIOD_PATTERN first_page) = true ->
  is_some (re_search STATEMENT_NUM_PATTERN first_page) = true ->
  extract_header t1 pages_text = extract_header t2 pages_text.
Proof.
  intros first_page Hp Hs. unfold extract_header. fold first_page.
  destruct (re_search PERIOD_PATTERN first_page); [| discriminate].
  destruct (re_search STATEMENT_NUM_PATTERN first_page); [| discriminate].
  reflexivity.
Qed.




(** * Further properties of the extractor *)

(** ** The page the footer is read from *)

Section SummaryPage.
Context {U : Unicode}.

Lemma find_rev_last {A} (f : A -> bool) (l : list A) :
  match find f (rev l) with
  | Some x => exists pre post, l = pre ++ x :: post /\ f x = true
                               /\ Forall (fun y => f y = false) post
  | None => Forall (fun y => f y = false) l
  end.
Proof.
  induction l as [| x l IH] using rev_ind; simpl; [constructor |].
  rewrite rev_app_distr. simpl.
  destruct (f x) eqn:Ex.
  - exists l, []. repeat split; auto.
  - destruct (find f (rev l)) as [y |].
    + destruct IH as (pre & post & -> & Hy & Hpost).
      exists pre, (post ++ [x]). rewrite <- app_assoc. simpl.
      repeat split; auto. apply Forall_app. split; auto.
    + apply Forall_app. split; auto.
Qed.

End SummaryPage.

(** X1. The footer is read from the last page that contains the closing
    balance marker, whatever pages follow it; when no page contains the
    marker it is read from the last page, and from the empty text when
    there is no page. *)
Theorem summary_page_is_last_marked_page (pages_text : list pystr) :
  (exists pre page post,
     pages_text = pre ++ page :: post
     /\ contains closing_marker page = true
     /\ Forall (fun p => contains closing_marker p = false) post
     /\ summary_page pages_text = page)
  \/ (Forall (fun p => contains closing_marker p = false) pages_text
      /\ summary_page pages_text = last pages_text []).
Proof.
  unfold summary_page.
  pose proof (find_rev_last (contains closing_marker) pages_text) as H.
  destruct (find (contains closing_marker) (rev pages_text)) as [page |].
  - left. destruct H as (pre & post & E & Hc & Hpost).
    exists pre, page, post. repeat split; auto.
    destruct page; [vm_compute in Hc; discriminate | reflexivity].
  - right. split; [exact H | reflexivity].
Qed.

(** ** Pages and the order of the transactions *)

Section Pages.
Context {U : Unicode}.

(** The scan only appends to the transactions it was given. *)
Lemma scan_lines_acc (fuel : nat) (lines : list pystr) (txs : list Transaction) :
  scan_lines fuel lines txs = fmap (app txs) (scan_lines fuel lines []).
Proof.
  revert lines txs.
  induction fuel as [| fuel IH]; intros lines txs; simpl.
  - rewrite app_nil_r. reflexivity.
  - destruct lines as [| line rest]; [simpl; rewrite app_nil_r; reflexivity |].
    assert (Hstep : forall lines' tx,
              scan_lines fuel lines' (txs ++ [tx])
              = fmap (app txs) (scan_lines fuel lines' ([] ++ [tx]))).
    { intros lines' tx. rewrite (IH lines' (txs ++ [tx])), (IH lines' ([] ++ [tx])).
      destruct (scan_lines fuel lines' []); simpl; [| reflexivity].
      rewrite <- app_assoc. reflexivity. }
    destruct (re_match TRANSACTION_DATE_PATTERN line) as [dm |]; [| apply IH].
    destruct (re_search AMOUNT_PATTERN line) as [am |].
    + destruct (collect_trailing _ rest) as [d lines'].
      destruct (make_transaction _ _ d am); simpl; [apply Hstep | reflexivity].
    + destruct (collect_until_amount _ rest) as [[d am] lines'].
      destruct am as [am |]; [| apply IH].
      destruct (make_transaction _ _ d am); simpl; [apply Hstep | reflexivity].
Qed.

Lemma extract_pages_acc (pages_text : list pystr) (txs : list Transaction) :
  extract_pages pages_text txs = fmap (app txs) (extract_pages pages_text []).
Proof.
  revert txs.
  induction pages_text as [| page pages IH]; intros txs; simpl.
  - rewrite app_nil_r. reflexivity.
  - unfold extract_lines. rewrite (scan_lines_acc _ _ txs).
    destruct (scan_lines _ _ []) as [t1 |]; simpl; [| reflexivity].
    rewrite (IH (txs ++ t1)), (IH t1).
    destruct (extract_pages pages []); simpl; [| reflexivity].
    rewrite app_assoc. reflexivity.
Qed.

Lemma extract_pages_app (pages1 pages2 : list pystr) (txs : list Transaction) :
  extract_pages (pages1 ++ pages2) txs
  = (t <- extract_pages pages1 txs ;; extract_pages pages2 t).
Proof.
  revert txs.
  induction pages1 as [| page pages IH]; intros txs; simpl; [reflexivity |].
  destruct (extract_lines _ txs); simpl; [apply IH | reflexivity].
Qed.

End Pages.

(** X2. Pages are segmented one by one and their transactions are
    concatenated in page order: the transactions of a document are those
    of its first pages followed by those of its last pages, and an
    exception in the first pages is the exception of the document. *)
Theorem extract_transactions_by_pages `{U : Unicode} (pages1 pages2 : list pystr)
    (statement_year : Z) :
  extract_transactions (pages1 ++ pages2) statement_year
  = (t1 <- extract_transactions pages1 statement_year ;;
     t2 <- extract_transactions pages2 statement_year ;;
     Ok (t1 ++ t2)).
Proof.
  unfold extract_transactions. rewrite extract_pages_app.
  destruct (extract_pages pages1 []) as [t1 |]; simpl; [| reflexivity].
  rewrite extract_pages_acc.
  destruct (extract_pages pages2 []); reflexivity.
Qed.

(** ** Candidates that do not close, and descriptions on several lines *)

Section Closing.
Context {U : Unicode}.

Lemma collect_until_amount_end (body description_lines : list pystr) :
  no_start_no_amount body ->
  exists d, collect_until_amount description_lines body = (d, None, []).
Proof.
  intros H. revert description_lines.
  induction H as [| l body [H1 H2] _ IH]; intros desc; simpl.
  - eexists. reflexivity.
  - rewrite H1, H2. apply IH.
Qed.

Lemma extract_lines_unclosed (start_line : pystr) (body : list pystr)
    (txs : list Transaction) :
  is_transaction_start start_line = true ->
  re_search AMOUNT_PATTERN start_line = None ->
  no_start_no_amount body ->
  extract_lines (start_line :: body) txs = Ok txs.
Proof.
  intros Hs Ha Hb. rewrite extract_lines_cons.
  unfold is_transaction_start in Hs.
  destruct (re_match TRANSACTION_DATE_PATTERN start_line) as [dm |]; [| discriminate].
  rewrite Ha.
  destruct (collect_until_amount_end body [slice_from start_line (m_end dm)] Hb) as [d ->].
  reflexivity.
Qed.

Lemma collect_until_amount_finds (body : list pystr) (amount_line : pystr)
    (rest description_lines : list pystr) (am : Match) :
  no_start_no_amount body ->
  is_transaction_start amount_line = false ->
  re_search AMOUNT_PATTERN amount_line = Some am ->
  collect_until_amount description_lines (body ++ amount_line :: rest)
  = (description_lines
       ++ filter (fun l => negb (is_boilerplate l)) body
       ++ (if is_empty (strip (slice_to amount_line (m_start am))) then []
           else [strip (slice_to amount_line (m_start am))]),
     Some am, rest).
Proof.
  intros Hb Hs Ha. revert description_lines.
  induction Hb as [| l body [H1 H2] _ IH]; intros desc; simpl.
  - rewrite Hs, Ha.
    destruct (is_empty _); [rewrite app_nil_r |]; reflexivity.
  - rewrite H1, H2, IH.
    destruct (is_boilerplate l); simpl; [reflexivity |].
    rewrite <- app_assoc. reflexivity.
Qed.

Lemma extract_lines_skip (skipped rest : list pystr) (txs : list Transaction) :
  Forall (fun l => is_transaction_start l = false) skipped ->
  at_boundary rest ->
  extract_lines (skipped ++ rest) txs = extract_lines rest txs.
Proof.
  intros Hs Hr. rewrite (extract_lines_app skipped rest txs Hr).
  unfold extract_lines at 1. rewrite (scan_lines_no_start _ _ _ Hs). reflexivity.
Qed.

Lemma collect_until_amount_starts (lines description_lines d : list pystr)
    (am : option Match) (rest : list pystr) :
  collect_until_amount description_lines lines = (d, am, rest) ->
  (count_starts rest <= count_starts lines)%nat.
Proof.
  revert description_lines.
  induction lines as [| l lines IH]; simpl; intros desc E.
  - inversion E; subst. apply Nat.le_refl.
  - unfold count_starts in *. simpl.
    destruct (is_transaction_start l) eqn:El.
    + inversion E; subst. simpl. rewrite El. apply Nat.le_refl.
    + destruct (re_search AMOUNT_PATTERN l).
      * inversion E; subst. apply Nat.le_refl.
      * apply IH in E. exact E.
Qed.

Lemma collect_trailing_starts (lines description_lines d rest : list pystr) :
  collect_trailing description_lines lines = (d, rest) ->
  (count_starts rest <= count_starts lines)%nat.
Proof.
  revert description_lines.
  induction lines as [| l lines IH]; simpl; intros desc E.
  - inversion E; subst. apply Nat.le_refl.
  - unfold count_starts in *. simpl.
    destruct (is_transaction_start l) eqn:El.
    + inversion E; subst. simpl. rewrite El. apply Nat.le_refl.
    + apply IH in E. exact E.
Qed.

Lemma scan_lines_count (fuel : nat) (lines : list pystr) (txs r : list Transaction) :
  scan_lines fuel lines txs = Ok r ->
  (length r <= length txs + count_starts lines)%nat.
Proof.
  revert lines txs.
  induction fuel as [| fuel IH]; intros lines txs E.
  - simpl in E. inversion E; subst. lia.
  - destruct lines as [| line rest]; simpl in E; [inversion E; subst; lia |].
    unfold count_starts. simpl. unfold is_transaction_start at 1.
    destruct (re_match TRANSACTION_DATE_PATTERN line) as [dm |]; simpl;
      [| apply IH in E; unfold count_starts in E; lia].
    destruct (re_search AMOUNT_PATTERN line) as [am |].
    + destruct (collect_trailing _ rest) as [d lines'] eqn:Ec.
      apply collect_trailing_starts in Ec. unfold count_starts in Ec.
      destruct (make_transaction _ _ d am) as [tx |]; simpl in E; [| discriminate].
      apply IH in E. unfold count_starts in E. rewrite length_app in E. simpl in E. lia.
    + destruct (collect_until_amount _ rest) as [[d am] lines'] eqn:Ec.
      apply collect_until_amount_starts in Ec. unfold count_starts in Ec.
      destruct am as [am |]; [| apply IH in E; unfold count_starts in E; lia].
      destruct (make_transaction _ _ d am) as [tx |]; simpl in E; [| discriminate].
      apply IH in E. unfold count_starts in E. rewrite length_app in E. simpl in E. lia.
Qed.

Lemma extract_pages_count (pages_text : list pystr) (txs r : list Transaction) :
  extract_pages pages_text txs = Ok r ->
  (length r <= length txs + count_starts_of_pages pages_text)%nat.
Proof.
  revert txs.
  induction pages_text as [| page pages IH]; intros txs E; simpl in *.
  - inversion E; subst. lia.
  - destruct (extract_lines _ txs) as [t1 |] eqn:E1; simpl in E; [| discriminate].
    apply scan_lines_count in E1. apply IH in E. lia.
Qed.

End Closing.

(** X3. A candidate transaction still open at the end of a page is
    discarded: the lines of the next page are never searched for its
    amount, and the document is segmented as if the page ended before the
    candidate. *)
Theorem candidate_at_page_end_is_discarded `{U : Unicode} (page page' : pystr)
    (start_line : pystr) (body : list pystr) (pages : list pystr) (statement_year : Z) :
  split_on newline page = split_on newline page' ++ start_line :: body ->
  is_transaction_start start_line = true ->
  re_search AMOUNT_PATTERN start_line = None ->
  no_start_no_amount body ->
  extract_transactions (page :: pages) statement_year
  = extract_transactions (page' :: pages) statement_year.
Proof.
  intros Hp Hs Ha Hb. unfold extract_transactions. simpl. rewrite Hp.
  rewrite (extract_lines_app (split_on newline page') (start_line :: body) [])
    by exact Hs.
  destruct (extract_lines (split_on newline page') []) as [t |]; simpl; [| reflexivity].
  rewrite (extract_lines_unclosed start_line body t Hs Ha Hb). reflexivity.
Qed.

Lemma candidate_at_page_end_is_discarded_witness :
  extract_transactions [sample_page_cut; sample_page_next] 2026
  = extract_transactions [sample_page_cut_before; sample_page_next] 2026
  /\ fmap (map reference) (extract_transactions [sample_page_cut; sample_page_next] 2026)
     = Ok [u "REF5"].
Proof.
  split; [| vm_compute; reflexivity].
  apply (candidate_at_page_end_is_discarded sample_page_cut sample_page_cut_before
           (u "07/01/26 07/01 REF3 ТАКСА ИЗХ.") [u "KЪМ ACME LTD"]).
  - vm_compute; reflexivity.
  - vm_compute; reflexivity.
  - vm_compute; reflexivity.
  - repeat constructor; vm_compute; reflexivity.
Defined.

(** X4. When the amount is not on the start line, the transaction closes
    on the first following line that has an amount: its description lines
    are the rest of the start line, the lines in between without the page
    boilerplate, and what precedes the amount on the closing line when that
    is not blank. The lines after the closing line, up to the next
    transaction-start line, belong to no transaction. *)
Theorem description_closes_at_amount_line `{U : Unicode}
    (pre : list pystr) (start_line : pystr) (body : list pystr) (amount_line : pystr)
    (skipped rest : list pystr) (txs : list Transaction) (date_match amount_match : Match) :
  re_match TRANSACTION_DATE_PATTERN start_line = Some date_match ->
  re_search AMOUNT_PATTERN start_line = None ->
  no_start_no_amount body ->
  is_transaction_start amount_line = false ->
  re_search AMOUNT_PATTERN amount_line = Some amount_match ->
  Forall (fun l => is_transaction_start l = false) skipped ->
  at_boundary rest ->
  let before_amount := strip (slice_to amount_line (m_start amount_match)) in
  let description_lines :=
    slice_from start_line (m_end date_match)
      :: filter (fun l => negb (is_boilerplate l)) body
      ++ (if is_empty before_amount then [] else [before_amount]) in
  extract_lines (pre ++ start_line :: body ++ amount_line :: skipped ++ rest) txs
  = (before <- extract_lines pre txs ;;
     transaction <- make_transaction (group date_match 1) (group date_match 2)
                      description_lines amount_match ;;
     extract_lines rest (before ++ [transaction])).
Proof.
  intros Hd Ha Hb Hs Hm Hsk Hr before_amount description_lines.
  rewrite (extract_lines_app pre _ txs)
    by (unfold at_boundary, is_transaction_start; rewrite Hd; reflexivity).
  destruct (extract_lines pre txs) as [before |]; simpl; [| reflexivity].
  rewrite extract_lines_cons, Hd, Ha.
  rewrite (collect_until_amount_finds body amount_line (skipped ++ rest) _ amount_match
             Hb Hs Hm).
  simpl app. fold before_amount. fold description_lines.
  destruct (make_transaction _ _ description_lines amount_match); simpl; [| reflexivity].
  apply extract_lines_skip; assumption.
Qed.

Lemma description_closes_at_amount_line_witness :
  fmap (map (fun tx => (raw_description tx, option_map cp_name (counterparty tx),
                        option_map cp_reference (counterparty tx))))
    (extract_lines ([] ++ sample_multiline ++ []) [])
  = Ok [ (u "REF2 КАРТОВА ТРАНЗАКЦИЯ MERCHANT-CITY-BG 5574X4418-600500556010-000671255870",
          Some (Some (u "MERCHANT-CITY-BG")), Some None) ].
Proof.
  destruct (re_match TRANSACTION_DATE_PATTERN (u "06/01/26 06/01 REF2 КАРТОВА ТРАНЗАКЦИЯ"))
    as [dm |] eqn:Ed; [| vm_compute in Ed; discriminate].
  destruct (re_search AMOUNT_PATTERN
              (u "5574X4418-600500556010-000671255870 -50.00 EUR / -97.79 BGN"))
    as [am |] eqn:Ea; [| vm_compute in Ea; discriminate].
  assert (H1 : re_search AMOUNT_PATTERN (u "06/01/26 06/01 REF2 КАРТОВА ТРАНЗАКЦИЯ") = None)
    by (vm_compute; reflexivity).
  assert (H2 : no_start_no_amount [u "MERCHANT-CITY-BG"; u "Страница 1"])
    by (repeat constructor; vm_compute; reflexivity).
  assert (H3 : is_transaction_start
                 (u "5574X4418-600500556010-000671255870 -50.00 EUR / -97.79 BGN") = false)
    by (vm_compute; reflexivity).
  assert (H4 : Forall (fun l => is_transaction_start l = false)
                 [u "ACME CLIENT"; u "F. 2400003707"])
    by (repeat constructor; vm_compute; reflexivity).
  change (extract_lines ([] ++ sample_multiline ++ []) [])
    with (extract_lines ([] ++ u "06/01/26 06/01 REF2 КАРТОВА ТРАНЗАКЦИЯ"
            :: [u "MERCHANT-CITY-BG"; u "Страница 1"]
            ++ u "5574X4418-600500556010-000671255870 -50.00 EUR / -97.79 BGN"
            :: [u "ACME CLIENT"; u "F. 2400003707"] ++ []) []).
  rewrite (description_closes_at_amount_line [] _ _ _ _ [] [] dm am Ed H1 H2 H3 Ea H4 I).
  vm_compute in Ed. vm_compute in Ea. inversion Ed; inversion Ea; subst.
  vm_compute. reflexivity.
Defined.

(** X5. The segmenter never returns more transactions than the pages have
    transaction-start lines. *)
Theorem transactions_bounded_by_start_lines `{U : Unicode} (pages_text : list pystr)
    (statement_year : Z) (transactions : list Transaction) :
  extract_transactions pages_text statement_year = Ok transactions ->
  (length transactions <= count_starts_of_pages pages_text)%nat.
Proof.
  intros E. apply extract_pages_count in E. simpl in E. exact E.
Qed.

Lemma transactions_bounded_by_start_lines_witness :
  count_starts_of_pages [sample_page_cut; sample_page_next] = 2%nat
  /\ exists transactions,
       extract_transactions [sample_page_cut; sample_page_next] 2026 = Ok transactions
       /\ (length transactions <= 2)%nat.
Proof.
  split; [vm_compute; reflexivity |].
  destruct (extract_transactions [sample_page_cut; sample_page_next] 2026)
    as [transactions |] eqn:E; [| vm_compute in E; discriminate].
  exists transactions. split; [reflexivity |].
  apply (transactions_bounded_by_start_lines [sample_page_cut; sample_page_next] 2026
           transactions E).
Defined.

(** ** Amounts and dates of the transactions *)

Section Amounts.
Context {U : Unicode}.

Lemma d_lt_true (a b : Decimal) : d_lt a b = true <-> (d_val a < d_val b)%Q.
Proof.
  unfold d_lt. rewrite d_compare_val.
  destruct (d_val a ?= d_val b)%Q eqn:E.
  - apply Qeq_alt in E. split; [discriminate |].
    intros H. rewrite E in H. exfalso. exact (Qlt_irrefl _ H).
  - apply Qlt_alt in E. split; auto.
  - apply Qgt_alt in E. split; [discriminate |].
    intros H. exfalso. exact (Qlt_irrefl _ (Qlt_trans _ _ _ E H)).
Qed.

Lemma new_date_valid (y m d : Z) (dt : date) : new_date y m d = Ok dt -> valid_date dt.
Proof.
  unfold new_date.
  destruct (_ && _) eqn:E; [| discriminate].
  intros H. inversion H; subst; clear H.
  repeat (apply andb_prop in E; destruct E as [E ?]).
  unfold valid_date; simpl. lia.
Qed.

Lemma parse_posting_date_valid (date_str : pystr) (dt : date) :
  _parse_posting_date date_str = Ok dt -> valid_date dt.
Proof.
  unfold _parse_posting_date.
  destruct (subscript _ 2) as [p2 |]; simpl; [| discriminate].
  destruct (int p2) as [yy |]; simpl; [| discriminate].
  destruct (subscript _ 1) as [p1 |]; simpl; [| discriminate].
  destruct (int p1) as [m |]; simpl; [| discriminate].
  destruct (subscript _ 0) as [p0 |]; simpl; [| discriminate].
  destruct (int p0) as [d |]; simpl; [| discriminate].
  apply new_date_valid.
Qed.

Lemma parse_short_date_valid (date_str : pystr) (y : Z) (dt : date) :
  _parse_short_date date_str y = Ok dt -> valid_date dt.
Proof.
  unfold _parse_short_date.
  destruct (subscript _ 1) as [p1 |]; simpl; [| discriminate].
  destruct (int p1) as [m |]; simpl; [| discriminate].
  destruct (subscript _ 0) as [p0 |]; simpl; [| discriminate].
  destruct (int p0) as [d |]; simpl; [| discriminate].
  apply new_date_valid.
Qed.

(** What a transaction that was made holds. *)
Lemma make_transaction_inv (posting_date_str value_date_str : pystr)
    (description_lines : list pystr) (amount_match : Match) (tx : Transaction) :
  make_transaction posting_date_str value_date_str description_lines amount_match = Ok tx ->
  exists eur_amount bgn_amount,
    _parse_posting_date posting_date_str = Ok (posting_date tx)
    /\ _parse_short_date value_date_str (year (posting_date tx)) = Ok (value_date tx)
    /\ _parse_decimal (group amount_match 1) = Ok eur_amount
    /\ _parse_decimal (group amount_match 2) = Ok bgn_amount
    /\ amount tx = mkBalance (d_abs eur_amount) (d_abs bgn_amount)
    /\ is_debit tx = d_lt eur_amount Decimal_0.
Proof.
  unfold make_transaction.
  destruct (_parse_posting_date _) as [pd |] eqn:Ep; simpl; [| discriminate].
  destruct (_parse_short_date _ _) as [vd |] eqn:Ev; simpl; [| discriminate].
  destruct (_parse_decimal (group amount_match 1)) as [e |] eqn:Ee; simpl; [| discriminate].
  destruct (_parse_decimal (group amount_match 2)) as [b |] eqn:Eb; simpl; [| discriminate].
  intros E. inversion E; subst; clear E. simpl.
  exists e, b. repeat split; auto.
Qed.

Lemma extract_pages_provenance (P : Transaction -> Prop) (pages_text : list pystr)
    (txs r : list Transaction) :
  Forall P txs ->
  (forall p v d am tx, make_transaction p v d am = Ok tx -> P tx) ->
  extract_pages pages_text txs = Ok r ->
  Forall P r.
Proof.
  intros Htxs Hmk. revert txs Htxs.
  induction pages_text as [| page pages IH]; intros txs Htxs E; simpl in E.
  - inversion E; subst. exact Htxs.
  - destruct (extract_lines _ txs) as [txs' |] eqn:El; simpl in E; [| discriminate].
    apply (IH txs'); [| exact E].
    unfold extract_lines in El.
    apply (scan_lines_provenance P _ _ _ _ Htxs) in El; [exact El |].
    intros line dm d am tx _ _ Hm. apply (Hmk _ _ _ _ _ Hm).
Qed.

End Amounts.


Lemma parsed_transactions_are_well_formed_aux `{U : Unicode} (today : date)
    (pages_text : list pystr) (s : BankStatement) :
  parse today pages_text = Ok s ->
  Forall (fun tx =>
            (0 <= d_val (eur (amount tx)))%Q /\ (0 <= d_val (bgn (amount tx)))%Q
            /\ valid_date (posting_date tx) /\ valid_date (value_date tx)
            /\ year (value_date tx) = year (posting_date tx))
         (transactions s).
Proof.
  intros E. apply parse_transactions in E.
  apply (extract_pages_provenance _ pages_text [] (transactions s)); auto.
  intros p v d am tx Hm. apply make_transaction_inv in Hm.
  destruct Hm as (e & b & Hp & Hv & _ & _ & Ha & _).
  rewrite Ha. simpl. rewrite !d_val_abs.
  repeat split; try apply Qabs_nonneg;
    try (apply parse_posting_date_valid in Hp; apply Hp);
    try (apply parse_short_date_valid in Hv; apply Hv).
  apply parse_short_date_year in Hv. exact Hv.
Qed.

(** X7. Every transaction of a parsed statement has non-negative amounts
    and two dates of the calendar, the value date in the year of the
    posting date. *)
Theorem parsed_transactions_are_well_formed `{U : Unicode} (today : date)
    (pages_text : list pystr) (s : BankStatement) :
  parse today pages_text = Ok s ->
  Forall (fun tx =>
            (0 <= d_val (eur (amount tx)))%Q /\ (0 <= d_val (bgn (amount tx)))%Q
            /\ valid_date (posting_date tx) /\ valid_date (value_date tx)
            /\ year (value_date tx) = year (posting_date tx))
         (transactions s).
Proof.
  apply parsed_transactions_are_well_formed_aux.
Qed.


Lemma parsed_transactions_are_well_formed_witness :
  exists s,
    parse (mkDate 2026 11 4) [statement_page_of_year "2026"] = Ok s
    /\ length (transactions s) = 1%nat
    /\ Forall (fun tx =>
                 (0 <= d_val (eur (amount tx)))%Q /\ (0 <= d_val (bgn (amount tx)))%Q
                 /\ valid_date (posting_date tx) /\ valid_date (value_date tx)
                 /\ year (value_date tx) = year (posting_date tx))
              (transactions s).
Proof.
  destruct (parse (mkDate 2026 11 4) [statement_page_of_year "2026"]) as [s |] eqn:E;
    [| vm_compute in E; discriminate].
  exists s. split; [reflexivity |].
  split.
  - vm_compute in E. inversion E; subst. reflexivity.
  - apply (parsed_transactions_are_well_formed (mkDate 2026 11 4)
             [statement_page_of_year "2026"] s E).
Defined.

(** ** Month names *)

Lemma dict_get_default_or_value {V} (d : list (pystr * V)) (key : pystr) (default : V) :
  (forallb (fun kv => negb (str_eqb (fst kv) key)) d = true
   /\ dict_get d key default = default)
  \/ In (dict_get d key default) (map snd d).
Proof.
  induction d as [| [k v] d IH]; simpl; [left; auto |].
  destruct (str_eqb k key); simpl; [right; left; reflexivity |].
  destruct IH as [[H1 H2] | H]; [left; auto | right; right; exact H].
Qed.

(** X8. A month name is looked up in upper case among the twelve
    Bulgarian abbreviations, and any other text counts as January: the month
    is always between 1 and 12, so a date with an unknown month name is read
    as a date of January and not refused. *)
Theorem unknown_month_is_january `{U : Unicode} (day month_str year : pystr) :
  (1 <= _parse_month month_str <= 12)%Z
  /\ (forallb (fun kv => negb (str_eqb (fst kv) (upper month_str))) MONTH_MAP = true ->
      _parse_month month_str = 1%Z
      /\ _parse_date day month_str year
         = (y <- int year ;; d <- int day ;; new_date y 1 d)).
Proof.
  unfold _parse_date, _parse_month.
  destruct (dict_get_default_or_value MONTH_MAP (upper month_str) 1%Z) as [[H1 H2] | H].
  - rewrite H2. split; [lia |]. intros _. split; reflexivity.
  - split.
    + revert H. generalize (dict_get MONTH_MAP (upper month_str) 1%Z). intros z H.
      simpl in H. intuition lia.
    + intros Hn.
      assert (E : dict_get MONTH_MAP (upper month_str) 1%Z = 1%Z).
      { clear H. induction MONTH_MAP as [| [k v] d IH]; simpl in *; [reflexivity |].
        apply andb_prop in Hn. destruct Hn as [Hk Hd].
        apply negb_true_iff in Hk. rewrite Hk. apply IH, Hd. }
      rewrite E. split; reflexivity.
Qed.

Lemma unknown_month_is_january_witness :
  _parse_month (u "MAR") = 1%Z
  /\ _parse_date (u "15") (u "MAR") (u "2026") = Ok (mkDate 2026 1 15)
  /\ _parse_date (u "15") (u "мар") (u "2026") = Ok (mkDate 2026 3 15).
Proof.
  destruct (proj2 (unknown_month_is_january (u "15") (u "MAR") (u "2026")))
    as [H1 H2]; [vm_compute; reflexivity |].
  split; [exact H1 |].
  split; [rewrite H2 |]; vm_compute; reflexivity.
Defined.

(** ** The classifier's keywords *)

Lemma startswith_app (s a b : pystr) : startswith s (a ++ b) = true -> startswith s a = true.
Proof.
  revert s. induction a as [| x a IH]; intros s H; [destruct s; reflexivity |].
  destruct s as [| c s]; simpl in *; [discriminate |].
  apply andb_prop in H. destruct H as [H1 H2]. rewrite H1. simpl. apply IH, H2.
Qed.

Lemma contains_app (s a b : pystr) : contains (a ++ b) s = true -> contains a s = true.
Proof.
  induction s as [| c s IH]; cbn [contains]; intros H.
  - rewrite orb_false_r in *. apply startswith_app in H. exact H.
  - apply orb_prop in H. destruct H as [H | H].
    + apply startswith_app in H. rewrite H. reflexivity.
    + rewrite (IH H). apply orb_true_r.
Qed.

Lemma longer_keyword_is_redundant (s a b : pystr) :
  contains (a ++ b) s || contains a s = contains a s.
Proof.
  destruct (contains (a ++ b) s) eqn:E; [| reflexivity].
  apply contains_app in E. rewrite E. reflexivity.
Qed.

(** X9. Two keywords of the classifier never decide anything: a text with
    the long outgoing-transfer keyword has the short one, and a text with
    the long outgoing-fee keyword has the short one, so the classifier is
    first-match over seven rules of which only the currency exchange has two
    keywords. *)
Theorem classifier_decides_on_short_keywords `{U : Unicode} (description : pystr) :
  _detect_transaction_type description = first_match deciding_rules (upper description).
Proof.
  assert (E1 : u "ИЗХОДЯЩ ВАЛУТЕН ПРЕВОД" = u "ИЗХОДЯЩ" ++ u " ВАЛУТЕН ПРЕВОД")
    by (vm_compute; reflexivity).
  assert (E2 : u "ТАКСА ИЗХ." = u "ТАКСА" ++ u " ИЗХ.")
    by (vm_compute; reflexivity).
  rewrite detect_is_first_match.
  unfold classifier_rules, deciding_rules, first_match, rule_matches.
  cbn [fst snd existsb]. rewrite !orb_false_r.
  rewrite E1, E2.
  rewrite !longer_keyword_is_redundant. reflexivity.
Qed.

(** ** The counterparty extractor *)

Section CounterpartyFacts.
Context {U : Unicode}.

Ltac split_counterparty_line :=
  repeat match goal with
         | |- context [match ?x with _ => _ end] => destruct x eqn:?; simpl in *
         end.

Lemma counterparty_line_keeps_name (tx_type : TransactionType) (cpy : Counterparty)
    (line : pystr) :
  truthy (cp_name cpy) = true ->
  cp_name (counterparty_line tx_type cpy line) = cp_name cpy.
Proof.
  intros H. unfold counterparty_line. cbv zeta. rewrite H. simpl negb.
  rewrite !andb_false_l.
  split_counterparty_line; reflexivity.
Qed.

Lemma counterparty_line_keeps_reference (tx_type : TransactionType) (cpy : Counterparty)
    (line : pystr) :
  truthy (cp_reference cpy) = true ->
  cp_reference (counterparty_line tx_type cpy line) = cp_reference cpy.
Proof.
  intros H. unfold counterparty_line. cbv zeta. rewrite H. simpl negb.
  rewrite !andb_false_l.
  split_counterparty_line; reflexivity.
Qed.

Lemma counterparty_fold_keeps (tx_type : TransactionType) (lines : list pystr)
    (cpy : Counterparty) :
  (truthy (cp_name cpy) = true ->
   cp_name (fold_left (counterparty_line tx_type) lines cpy) = cp_name cpy)
  /\ (truthy (cp_reference cpy) = true ->
      cp_reference (fold_left (counterparty_line tx_type) lines cpy) = cp_reference cpy).
Proof.
  revert cpy. induction lines as [| l lines IH]; intros cpy; simpl; [auto |].
  destruct (IH (counterparty_line tx_type cpy l)) as [IHn IHr].
  split; intros H.
  - rewrite IHn; rewrite counterparty_line_keeps_name; auto.
  - rewrite IHr; rewrite counterparty_line_keeps_reference; auto.
Qed.

End CounterpartyFacts.

(** X10. The first name found and the first reference found are kept:
    once the lines read so far have given the counterparty a name (a
    reference), no later line of the transaction changes it, and the
    counterparty of the longer description is present. *)
Theorem counterparty_name_and_reference_are_first_found `{U : Unicode}
    (tx_type : TransactionType) (first : pystr) (lines more : list pystr) :
  let found := counterparty_after tx_type lines in
  (truthy (cp_name found) = true ->
   exists c, _extract_counterparty (first :: lines ++ more) tx_type = Some c
             /\ cp_name c = cp_name found)
  /\ (truthy (cp_reference found) = true ->
      exists c, _extract_counterparty (first :: lines ++ more) tx_type = Some c
                /\ cp_reference c = cp_reference found).
Proof.
  intros found. unfold _extract_counterparty. simpl tl.
  rewrite fold_left_app. fold (counterparty_after tx_type lines). fold found.
  destruct (counterparty_fold_keeps tx_type more found) as [Hn Hr].
  split; intros H.
  - specialize (Hn H). eexists. rewrite Hn, H. simpl. split; [reflexivity | exact Hn].
  - specialize (Hr H). eexists. rewrite Hr, H. rewrite orb_true_r. simpl.
    split; [reflexivity | exact Hr].
Qed.

Lemma counterparty_name_and_reference_are_first_found_witness :
  option_map cp_name
    (_extract_counterparty
       ([u "REF1 СЕПА ПОЛУЧЕН ПРЕВОД"; u "ACME CLIENT"; u "F. 2400003707"]
          ++ [u "OTHER NAME"; u "1234567"]) SEPA_INCOMING)
  = Some (Some (u "ACME CLIENT"))
  /\ option_map cp_reference
       (_extract_counterparty
          ([u "REF1 СЕПА ПОЛУЧЕН ПРЕВОД"; u "ACME CLIENT"; u "F. 2400003707"]
             ++ [u "OTHER NAME"; u "1234567"]) SEPA_INCOMING)
     = Some (Some (u "F. 2400003707")).
Proof.
  pose proof (counterparty_name_and_reference_are_first_found SEPA_INCOMING
                (u "REF1 СЕПА ПОЛУЧЕН ПРЕВОД") [u "ACME CLIENT"; u "F. 2400003707"]
                [u "OTHER NAME"; u "1234567"]) as T.
  cbv zeta in T. destruct T as [Tn Tr].
  destruct Tn as (c & Ec & Hc); [vm_compute; reflexivity |].
  destruct Tr as (c' & Ec' & Hc'); [vm_compute; reflexivity |].
  simpl app in *. split.
  - rewrite Ec. simpl. rewrite Hc. vm_compute. reflexivity.
  - rewrite Ec'. simpl. rewrite Hc'. vm_compute. reflexivity.
Defined.

(** ** The validator and the order of the transactions *)

Lemma sum_amounts_permutation (sel : Transaction -> bool) (cur : Balance -> Decimal)
    (txs txs' : list Transaction) :
  Permutation txs txs' ->
  (sum_amounts sel cur txs == sum_amounts sel cur txs')%Q.
Proof.
  induction 1 as [| x l l' _ IH | x y l | l l' l'' _ IH1 _ IH2]; simpl.
  - reflexivity.
  - rewrite IH. reflexivity.
  - ring.
  - rewrite IH1. exact IH2.
Qed.

Lemma closing_gap_permutation (cur : Balance -> Decimal) (info : StatementInfo)
    (txs txs' : list Transaction) :
  Permutation txs txs' ->
  (closing_gap cur (mkBankStatement info txs)
   == closing_gap cur (mkBankStatement info txs'))%Q.
Proof.
  intros H. unfold closing_gap, closing_equation. cbn [transactions statement].
  rewrite (sum_amounts_permutation is_credit cur txs txs' H).
  rewrite (sum_amounts_permutation is_debit cur txs txs' H).
  reflexivity.
Qed.

Lemma turnover_gap_permutation (sel : Transaction -> bool) (side : Turnover -> Balance)
    (cur : Balance -> Decimal) (info : StatementInfo) (txs txs' : list Transaction) :
  Permutation txs txs' ->
  (turnover_gap sel side cur (mkBankStatement info txs)
   == turnover_gap sel side cur (mkBankStatement info txs'))%Q.
Proof.
  intros H. unfold turnover_gap. cbn [transactions statement].
  rewrite (sum_amounts_permutation sel cur txs txs' H). reflexivity.
Qed.

Lemma warnings_empty_iff (self : BankStatement) :
  warnings (validate_balance self) = [] <->
  (turnover_gap is_debit debit eur self <= 2 # 100)%Q
  /\ (turnover_gap is_credit credit eur self <= 2 # 100)%Q.
Proof.
  rewrite warnings_by_tests.
  pose proof (debit_warning_test self) as Td.
  pose proof (credit_warning_test self) as Tc.
  cbv zeta in Td, Tc.
  destruct (d_gt _ eur_tolerance) eqn:Ed in |- *.
  - split.
    + intros E. apply app_eq_nil in E. destruct E as [E _]. discriminate E.
    + intros [H _]. exfalso. rewrite Ed in Td.
      exact (Qlt_not_le _ _ (proj1 Td eq_refl) H).
  - rewrite Ed in Td.
    destruct (d_gt _ eur_tolerance) eqn:Ec in |- *.
    + split.
      * intros E. discriminate E.
      * intros [_ H]. exfalso. rewrite Ec in Tc.
        exact (Qlt_not_le _ _ (proj1 Tc eq_refl) H).
    + rewrite Ec in Tc. split; [| reflexivity].
      intros _. split; apply Qnot_lt_le; intros L.
      * apply Td in L. discriminate L.
      * apply Tc in L. discriminate L.
Qed.

Lemma bool_eq_of_iff (a b : bool) (P Q : Prop) :
  (a = true <-> P) -> (b = true <-> Q) -> (P <-> Q) -> a = b.
Proof.
  intros Ha Hb H. destruct a, b; try reflexivity.
  - symmetry. apply Hb, H, Ha. reflexivity.
  - apply Ha, H, Hb. reflexivity.
Qed.



(** ** Whitespace in the address, the reference and the description *)

Section Words.
Context {U : Unicode}.

Lemma no_space_rev (w : pystr) : no_space w -> no_space (rev w).
Proof.
  unfold no_space. rewrite !forallb_forall. intros H c Hc.
  apply H. apply in_rev. exact Hc.
Qed.

Lemma split_ws_aux_words (s cur : pystr) :
  no_space cur ->
  Forall (fun w => w <> [] /\ no_space w) (split_ws_aux cur s).
Proof.
  revert cur. induction s as [| c s IH]; intros cur Hcur; simpl.
  - destruct cur as [| x cur]; [constructor |].
    constructor; [| constructor].
    split; [| apply no_space_rev, Hcur].
    intros E. apply (f_equal (@length _)) in E. rewrite length_rev in E. discriminate E.
  - destruct (isspace c) eqn:Ec.
    + destruct cur as [| x cur]; [apply IH; reflexivity |].
      constructor; [| apply IH; reflexivity].
      split; [| apply no_space_rev, Hcur].
      intros E. apply (f_equal (@length _)) in E. rewrite length_rev in E. discriminate E.
    + apply IH. unfold no_space in *. simpl. rewrite Ec, Hcur. reflexivity.
Qed.

Lemma lstrip_decomp (s : pystr) :
  exists blanks,
    s = blanks ++ lstrip s
    /\ forallb isspace blanks = true
    /\ match lstrip s with
       | [] => True
       | c :: _ => isspace c = false
       end.
Proof.
  induction s as [| c s IH]; simpl.
  - exists []. auto.
  - destruct (isspace c) eqn:Ec.
    + destruct IH as (blanks & E & Hb & Hh).
      exists (c :: blanks). simpl. rewrite Ec, Hb. rewrite <- E. auto.
    + exists []. simpl. auto.
Qed.

Lemma take_word_decomp (s w r : pystr) :
  take_word s = (w, r) -> s = w ++ r /\ no_space w.
Proof.
  revert w r. induction s as [| c s IH]; simpl; intros w r E.
  - inversion E; subst. split; reflexivity.
  - destruct (isspace c) eqn:Ec.
    + inversion E; subst. split; reflexivity.
    + destruct (take_word s) as [w' r'] eqn:Et. inversion E; subst.
      destruct (IH w' r eq_refl) as [-> Hw].
      split; [reflexivity |]. unfold no_space in *. simpl. rewrite Ec, Hw. reflexivity.
Qed.

(** [line.split(None, 1)]: the first word, the blanks, the rest. *)
Lemma split_ws1_decomp (line : pystr) :
  exists blanks1 blanks2,
    let parts := split_ws1 line in
    let first := match parts with r :: _ => r | [] => [] end in
    let second := match parts with _ :: d :: _ => d | _ => [] end in
    line = blanks1 ++ first ++ blanks2 ++ second
    /\ forallb isspace blanks1 = true
    /\ forallb isspace blanks2 = true
    /\ no_space first
    /\ match second with
       | [] => True
       | c :: _ => isspace c = false
       end.
Proof.
  unfold split_ws1.
  destruct (lstrip_decomp line) as (b1 & E1 & Hb1 & Hh1).
  destruct (lstrip line) as [| c s1] eqn:El.
  - exists b1, []. simpl. rewrite app_nil_r in *. repeat split; auto.
  - destruct (take_word (c :: s1)) as [w r] eqn:Et.
    apply take_word_decomp in Et. destruct Et as [Ew Hw].
    destruct (lstrip_decomp r) as (b2 & E2 & Hb2 & Hh2).
    destruct (lstrip r) as [| c2 r2] eqn:Er.
    + exists b1, b2. simpl. rewrite app_nil_r in *.
      rewrite E1, Ew, E2. repeat split; auto.
    + exists b1, b2. simpl.
      rewrite E1, Ew. rewrite E2 at 1. repeat split; auto.
Qed.

End Words.

Lemma make_transaction_text `{U : Unicode} (posting_date_str value_date_str : pystr)
    (first : pystr) (more : list pystr) (amount_match : Match) (tx : Transaction) :
  make_transaction posting_date_str value_date_str (first :: more) amount_match = Ok tx ->
  reference tx = match split_ws1 first with r :: _ => r | [] => [] end
  /\ description tx = match split_ws1 first with _ :: d :: _ => d | _ => [] end
  /\ raw_description tx = join (u " ") (first :: more).
Proof.
  unfold make_transaction.
  destruct (_parse_posting_date _); simpl; [| discriminate].
  destruct (_parse_short_date _ _); simpl; [| discriminate].
  destruct (_parse_decimal _); simpl; [| discriminate].
  destruct (_parse_decimal _); simpl; [| discriminate].
  intros E. inversion E; subst; clear E. simpl. auto.
Qed.





(** ** The shape of a transaction-start line *)

Section StartLineShape.
Context {U : Unicode}.

(** A repetition with bounds: the run has between [lo] and [hi] characters. *)
Lemma rep_match_run_bounded (p : cp -> bool) (greedy : bool)
    (k : mstate -> option mstate) (rest : pystr) (lo : nat) (hi : option nat)
    (pos : nat) (prev : option cp) (groups : list (nat * (nat * nat))) (res : mstate) :
  rep_match p greedy lo hi k pos prev groups rest = Some res ->
  exists run rest' prev',
    rest = run ++ rest'
    /\ forallb p run = true
    /\ (lo <= length run)%nat
    /\ match hi with Some h => (length run <= h)%nat | None => True end
    /\ k (mkMstate (pos + length run) prev' rest' groups) = Some res.
Proof.
  revert lo hi pos prev.
  induction rest as [| c rest IH]; intros lo hi pos prev E; simpl in E.
  - destruct lo; [| discriminate].
    exists [], [], prev. simpl. rewrite Nat.add_0_r.
    repeat split; auto. destruct hi; [lia | exact I].
  - assert (Hstop : k (mkMstate pos prev (c :: rest) groups) = Some res ->
                    lo = 0%nat ->
                    exists run rest' prev',
                      c :: rest = run ++ rest' /\ forallb p run = true
                      /\ (lo <= length run)%nat
                      /\ match hi with Some h => (length run <= h)%nat | None => True end
                      /\ k (mkMstate (pos + length run) prev' rest' groups) = Some res).
    { intros Hk ->. exists [], (c :: rest), prev. simpl. rewrite Nat.add_0_r.
      repeat split; auto. destruct hi; [lia | exact I]. }
    assert (Hmore : forall lo',
              p c = true -> may_repeat hi = true ->
              rep_match p greedy lo' (option_map pred hi) k (S pos) (Some c) groups rest
              = Some res ->
              (lo <= S lo')%nat ->
              exists run rest' prev',
                c :: rest = run ++ rest' /\ forallb p run = true
                /\ (lo <= length run)%nat
                /\ match hi with Some h => (length run <= h)%nat | None => True end
                /\ k (mkMstate (pos + length run) prev' rest' groups) = Some res).
    { intros lo' Hp Hrep Hr Hlo. apply IH in Hr.
      destruct Hr as (run & rest' & prev' & -> & Hall & Hlen & Hmax & Hk).
      exists (c :: run), rest', prev'. simpl. rewrite Hp, Hall.
      replace (pos + S (length run))%nat with (S pos + length run)%nat by lia.
      repeat split; auto; [lia |].
      destruct hi as [[| h] |]; simpl in *; [discriminate | lia | exact I]. }
    destruct lo as [| lo'].
    + destruct (p c) eqn:Hp; simpl in E; [| apply Hstop; auto].
      destruct (may_repeat hi) eqn:Hrep; simpl in E; [| apply Hstop; auto].
      destruct greedy.
      * destruct (rep_match p true 0 (option_map pred hi) k (S pos) (Some c) groups rest)
          eqn:Er.
        -- inversion E; subst. apply (Hmore 0%nat); auto.
        -- apply Hstop; auto.
      * destruct (k (mkMstate pos prev (c :: rest) groups)) eqn:Ek.
        -- inversion E; subst. apply Hstop; auto.
        -- apply (Hmore 0%nat); auto.
    + destruct (p c) eqn:Hp; simpl in E; [| discriminate].
      destruct (may_repeat hi) eqn:Hrep; simpl in E; [| discriminate].
      apply (Hmore lo'); auto.
Qed.

Lemma forallb_digit (run : pystr) :
  forallb (atom_matches no_flags digit) run = forallb isdecimal run.
Proof.
  induction run as [| c run IH]; simpl; [reflexivity |].
  rewrite IH. unfold atom_matches, set_matches. simpl. rewrite orb_false_r. reflexivity.
Qed.

(** [\d{n}] followed by [r]. *)
Lemma rmatch_seq_times (n : nat) (r : regex) (k : mstate -> option mstate)
    (st res : mstate) :
  rmatch no_flags (Seq (times n digit) r) k st = Some res ->
  exists run rest' prev',
    ms_rest st = run ++ rest'
    /\ forallb isdecimal run = true
    /\ length run = n
    /\ rmatch no_flags r k (mkMstate (ms_pos st + n) prev' rest' (ms_groups st)) = Some res.
Proof.
  unfold times. cbn [rmatch]. intros E. apply rep_match_run_bounded in E.
  destruct E as (run & rest' & prev' & H1 & H2 & H3 & H4 & H5).
  rewrite forallb_digit in H2.
  assert (Hn : length run = n) by lia. rewrite Hn in H5.
  exists run, rest', prev'. auto.
Qed.

(** [\d{n}] at the end of a group. *)
Lemma rmatch_times (n : nat) (k : mstate -> option mstate) (st res : mstate) :
  rmatch no_flags (times n digit) k st = Some res ->
  exists run rest' prev',
    ms_rest st = run ++ rest'
    /\ forallb isdecimal run = true
    /\ length run = n
    /\ k (mkMstate (ms_pos st + n) prev' rest' (ms_groups st)) = Some res.
Proof.
  unfold times. cbn [rmatch]. intros E. apply rep_match_run_bounded in E.
  destruct E as (run & rest' & prev' & H1 & H2 & H3 & H4 & H5).
  rewrite forallb_digit in H2.
  assert (Hn : length run = n) by lia. rewrite Hn in H5.
  exists run, rest', prev'. auto.
Qed.

(** [\s+] at the end of the pattern. *)
Lemma rmatch_plus_space_end (st res : mstate) :
  rmatch no_flags (plus space) Some st = Some res ->
  ms_groups res = ms_groups st.
Proof.
  unfold plus. cbn [rmatch]. intros E. apply rep_match_run in E.
  destruct E as (run & rest' & prev' & _ & _ & _ & E).
  inversion E; subst. reflexivity.
Qed.

Lemma slice_middle (a b c : pystr) (i j : nat) :
  i = length a -> j = (length a + length b)%nat -> slice (a ++ b ++ c) i j = b.
Proof.
  intros -> ->. unfold slice.
  rewrite app_assoc, <- length_app.
  rewrite firstn_app, Nat.sub_diag, firstn_all. simpl. rewrite app_nil_r.
  rewrite skipn_app, Nat.sub_diag, skipn_all. reflexivity.
Qed.

(** On a transaction-start line the first group is two digits, a slash,
    two digits, a slash, two digits, and the second group two digits, a
    slash, two digits. *)
Lemma transaction_date_shape (line : pystr) (dm : Match) :
  re_match TRANSACTION_DATE_PATTERN line = Some dm ->
  exists d1 d2 d3 d4 d5,
    group dm 1 = d1 ++ u "/" ++ d2 ++ u "/" ++ d3
    /\ group dm 2 = d4 ++ u "/" ++ d5
    /\ Forall (fun d => length d = 2%nat /\ forallb isdecimal d = true)
         [d1; d2; d3; d4; d5].
Proof.
  unfold re_match, match_here.
  destruct (rmatch _ _ _ _) as [res |] eqn:E; [| discriminate].
  intros H. inversion H; subst dm; clear H.
  unfold TRANSACTION_DATE_PATTERN, compile, lit in E.
  cbn [p_regex p_flags seq] in E.
  cbn [rmatch at_bol ms_prev] in E.
  change (rmatch no_flags
            (Seq (times 2 digit)
               (Seq (Lit (u "/"))
                  (Seq (times 2 digit) (Seq (Lit (u "/")) (times 2 digit)))))
            (fun st' =>
               rmatch no_flags
                 (Seq (plus space)
                    (Seq (Group 2 (Seq (times 2 digit)
                                     (Seq (Lit (u "/")) (times 2 digit))))
                       (plus space)))
                 Some
                 (mkMstate (ms_pos st') (ms_prev st') (ms_rest st')
                    ((1%nat, (0%nat, ms_pos st')) :: ms_groups st')))
            (mkMstate 0 None line []) = Some res) in E.
  apply rmatch_seq_times in E.
  destruct E as (d1 & r1 & p1 & L1 & D1 & N1 & E). cbn [ms_rest ms_pos ms_groups] in *.
  apply rmatch_seq_lit in E.
  destruct E as (r2 & p2 & L2 & E). cbn [ms_rest ms_pos ms_groups] in *.
  apply rmatch_seq_times in E.
  destruct E as (d2 & r3 & p3 & L3 & D2 & N2 & E). cbn [ms_rest ms_pos ms_groups] in *.
  apply rmatch_seq_lit in E.
  destruct E as (r4 & p4 & L4 & E). cbn [ms_rest ms_pos ms_groups] in *.
  apply rmatch_times in E.
  destruct E as (d3 & r5 & p5 & L5 & D3 & N3 & E). cbn [ms_rest ms_pos ms_groups] in *.
  apply rmatch_seq_rep in E.
  destruct E as (blanks & r6 & p6 & L6 & _ & _ & E). cbn [ms_rest ms_pos ms_groups] in *.
  change (rmatch no_flags
            (Seq (times 2 digit) (Seq (Lit (u "/")) (times 2 digit)))
            (fun st' =>
               rmatch no_flags (plus space) Some
                 (mkMstate (ms_pos st') (ms_prev st') (ms_rest st')
                    ((2%nat, (0 + 2 + length (u "/") + 2 + length (u "/") + 2
                              + length blanks, ms_pos st')%nat) :: ms_groups st')))
            (mkMstate (0 + 2 + length (u "/") + 2 + length (u "/") + 2 + length blanks)
               p6 r6 [(1%nat, (0%nat, (0 + 2 + length (u "/") + 2 + length (u "/") + 2)%nat))])
          = Some res) in E.
  apply rmatch_seq_times in E.
  destruct E as (d4 & r7 & p7 & L7 & D4 & N4 & E). cbn [ms_rest ms_pos ms_groups] in *.
  apply rmatch_seq_lit in E.
  destruct E as (r8 & p8 & L8 & E). cbn [ms_rest ms_pos ms_groups] in *.
  apply rmatch_times in E.
  destruct E as (d5 & r9 & p9 & L9 & D5 & N5 & E). cbn [ms_rest ms_pos ms_groups] in *.
  apply rmatch_plus_space_end in E. cbn [ms_groups] in E.
  exists d1, d2, d3, d4, d5.
  assert (Hline : line = (d1 ++ u "/" ++ d2 ++ u "/" ++ d3)
                           ++ blanks ++ (d4 ++ u "/" ++ d5) ++ r9).
  { subst. rewrite <- !app_assoc. reflexivity. }
  assert (Hlen1 : length (d1 ++ u "/" ++ d2 ++ u "/" ++ d3) = 8%nat).
  { rewrite !length_app, N1, N2, N3. reflexivity. }
  assert (Hlen2 : length (d4 ++ u "/" ++ d5) = 5%nat).
  { rewrite !length_app, N4, N5. reflexivity. }
  unfold group. cbn [m_groups m_string]. rewrite E.
  cbn [lookup_group Nat.eqb].
  split; [| split].
  - rewrite Hline. apply (slice_middle [] _ _); [reflexivity |].
    rewrite Hlen1. reflexivity.
  - rewrite Hline. rewrite app_assoc.
    apply (slice_middle (_ ++ blanks) _ r9).
    + rewrite length_app, Hlen1. reflexivity.
    + rewrite length_app, Hlen1, Hlen2. simpl. lia.
  - repeat constructor; auto.
Qed.

End StartLineShape.

(** ** Splitting the date fields *)

Lemma split_on_nonempty (c : cp) (s : pystr) : split_on c s <> [].
Proof.
  destruct s as [| x s]; simpl; [discriminate |].
  destruct (x =? c)%N; [discriminate |].
  destruct (split_on c s); discriminate.
Qed.

Lemma split_on_app_sep (c : cp) (a b : pystr) :
  split_on c (a ++ c :: b) = split_on c a ++ split_on c b.
Proof.
  induction a as [| x a IH]; simpl.
  - rewrite N.eqb_refl. reflexivity.
  - destruct (x =? c)%N; [rewrite IH; reflexivity |].
    rewrite IH. pose proof (split_on_nonempty c a) as Hn.
    destruct (split_on c a) as [| w ws]; [contradiction | reflexivity].
Qed.

Lemma split_on_no_sep (c : cp) (s : pystr) :
  forallb (fun x => negb (x =? c)%N) s = true -> split_on c s = [s].
Proof.
  induction s as [| x s IH]; simpl; intros H; [reflexivity |].
  apply andb_prop in H. destruct H as [Hx Hs].
  apply negb_true_iff in Hx. rewrite Hx, (IH Hs). reflexivity.
Qed.

Lemma subscript_in_range {A} (l : list A) (i : nat) :
  (i < length l)%nat -> exists a, subscript l i = Ok a.
Proof.
  intros H. unfold subscript.
  destruct (nth_error l i) as [a |] eqn:E; [exists a; reflexivity |].
  apply nth_error_None in E. lia.
Qed.

Section Exceptions.
Context {U : Unicode}.

Lemma int_raises (s : pystr) (e : exn) : int s = Raise e -> e = ValueError.
Proof.
  unfold int. destruct s; [intros E; inversion E; reflexivity |].
  destruct (forallb isdecimal _); intros E; inversion E; reflexivity.
Qed.

Lemma new_date_raises (y m d : Z) (e : exn) : new_date y m d = Raise e -> e = ValueError.
Proof.
  unfold new_date. destruct (_ && _); intros E; inversion E; reflexivity.
Qed.

Lemma parse_decimal_raises (value : pystr) (e : exn) :
  _parse_decimal value = Raise e -> e = InvalidOperation.
Proof.
  unfold _parse_decimal, Decimal_of_str.
  destruct (match remove_char _ _ with [] => _ | c :: s' => _ end) as [neg body].
  destruct (span_digits body) as [ip r].
  destruct (match r with [] => _ | c :: r1 => _ end) as [fp r'].
  destruct r'; [destruct (ip ++ fp) |]; intros E; inversion E; reflexivity.
Qed.

Lemma parse_date_raises (day month_str year : pystr) (e : exn) :
  _parse_date day month_str year = Raise e -> e = ValueError.
Proof.
  unfold _parse_date.
  destruct (int year) eqn:Ey; simpl; [| intros E; inversion E; subst; eapply int_raises, Ey].
  destruct (int day) eqn:Ed; simpl; [| intros E; inversion E; subst; eapply int_raises, Ed].
  apply new_date_raises.
Qed.

Lemma balance_of_match_raises (m : Match) (e : exn) :
  balance_of_match m = Raise e -> e = InvalidOperation.
Proof.
  unfold balance_of_match.
  destruct (_parse_decimal (group m 1)) eqn:E1; simpl;
    [| intros E; inversion E; subst; eapply parse_decimal_raises, E1].
  destruct (_parse_decimal (group m 2)) eqn:E2; simpl;
    [discriminate | intros E; inversion E; subst; eapply parse_decimal_raises, E2].
Qed.

Lemma extract_header_raises (today : date) (pages_text : list pystr) (e : exn) :
  extract_header today pages_text = Raise e -> e = ValueError \/ e = InvalidOperation.
Proof.
  unfold extract_header.
  destruct (re_search PERIOD_PATTERN _) as [pm |].
  - destruct (_parse_date (group pm 1) _ _) eqn:E1; simpl;
      [| intros E; inversion E; subst; left; eapply parse_date_raises, E1].
    destruct (_parse_date (group pm 4) _ _) eqn:E2; simpl;
      [| intros E; inversion E; subst; left; eapply parse_date_raises, E2].
    destruct (re_search STATEMENT_NUM_PATTERN _) as [sm |].
    + destruct (int _) eqn:E3; simpl;
        [| intros E; inversion E; subst; left; eapply int_raises, E3].
      destruct (_parse_date (group sm 2) _ _) eqn:E4; simpl;
        [| intros E; inversion E; subst; left; eapply parse_date_raises, E4].
      destruct (re_search OPENING_BALANCE_PATTERN _) as [om |]; simpl; [| discriminate].
      destruct (balance_of_match om) eqn:E5; simpl; [discriminate |].
      intros E; inversion E; subst; right; eapply balance_of_match_raises, E5.
    + simpl.
      destruct (re_search OPENING_BALANCE_PATTERN _) as [om |]; simpl; [| discriminate].
      destruct (balance_of_match om) eqn:E5; simpl; [discriminate |].
      intros E; inversion E; subst; right; eapply balance_of_match_raises, E5.
  - simpl.
    destruct (re_search STATEMENT_NUM_PATTERN _) as [sm |].
    + destruct (int _) eqn:E3; simpl;
        [| intros E; inversion E; subst; left; eapply int_raises, E3].
      destruct (_parse_date (group sm 2) _ _) eqn:E4; simpl;
        [| intros E; inversion E; subst; left; eapply parse_date_raises, E4].
      destruct (re_search OPENING_BALANCE_PATTERN _) as [om |]; simpl; [| discriminate].
      destruct (balance_of_match om) eqn:E5; simpl; [discriminate |].
      intros E; inversion E; subst; right; eapply balance_of_match_raises, E5.
    + simpl.
      destruct (re_search OPENING_BALANCE_PATTERN _) as [om |]; simpl; [| discriminate].
      destruct (balance_of_match om) eqn:E5; simpl; [discriminate |].
      intros E; inversion E; subst; right; eapply balance_of_match_raises, E5.
Qed.

Lemma turnover_of_matches_raises (dm cm : Match) (e : exn) :
  (d <- balance_of_match dm ;; c <- balance_of_match cm ;; Ok (mkTurnover d c)) = Raise e ->
  e = InvalidOperation.
Proof.
  destruct (balance_of_match dm) eqn:E1; simpl;
    [| intros E; inversion E; subst; eapply balance_of_match_raises, E1].
  destruct (balance_of_match cm) eqn:E2; simpl;
    [discriminate | intros E; inversion E; subst; eapply balance_of_match_raises, E2].
Qed.

Lemma extract_footer_raises (pages_text : list pystr) (e : exn) :
  extract_footer pages_text = Raise e -> e = InvalidOperation.
Proof.
  unfold extract_footer.
  destruct (match re_search CLOSING_BALANCE_PATTERN _ with Some _ => _ | None => _ end)
    eqn:E1; simpl.
  - destruct (match re_search TURNOVER_DEBIT_PATTERN _ with Some _ => _ | None => _ end)
      eqn:E2; simpl.
    + destruct (accumulated_of_page _) eqn:E3; simpl; [discriminate |].
      intros E; inversion E; subst.
      rewrite accumulated_of_page_cases in E3.
      destruct (re_search ACCUMULATED_DEBIT_PATTERN _); [| discriminate].
      destruct (re_finditer ALL_CREDITS_PATTERN _) as [| c1 [| c2 cs]]; try discriminate.
      eapply turnover_of_matches_raises, E3.
    + intros E; inversion E; subst.
      destruct (re_search TURNOVER_DEBIT_PATTERN _); [| discriminate].
      destruct (re_search TURNOVER_CREDIT_PATTERN _); [| discriminate].
      eapply turnover_of_matches_raises, E2.
  - intros E; inversion E; subst.
    destruct (re_search CLOSING_BALANCE_PATTERN _); [| discriminate].
    eapply balance_of_match_raises, E1.
Qed.

(** The subscripts of the two date parsers are in range on the groups of a
    transaction-start line. *)
Lemma posting_date_parts (d1 d2 d3 : pystr) :
  (3 <= length (split_on (ch "/") (d1 ++ u "/" ++ d2 ++ u "/" ++ d3)))%nat.
Proof.
  change (u "/") with [ch "/"]. simpl app.
  rewrite !split_on_app_sep, !length_app.
  pose proof (split_on_nonempty (ch "/") d1).
  pose proof (split_on_nonempty (ch "/") d2).
  pose proof (split_on_nonempty (ch "/") d3).
  destruct (split_on _ d1), (split_on _ d2), (split_on _ d3); try contradiction.
  simpl. lia.
Qed.

Lemma value_date_parts (d4 d5 : pystr) :
  (2 <= length (split_on (ch "/") (d4 ++ u "/" ++ d5)))%nat.
Proof.
  change (u "/") with [ch "/"]. simpl app.
  rewrite !split_on_app_sep, !length_app.
  pose proof (split_on_nonempty (ch "/") d4).
  pose proof (split_on_nonempty (ch "/") d5).
  destruct (split_on _ d4), (split_on _ d5); try contradiction.
  simpl. lia.
Qed.

Lemma parse_posting_date_raises (d1 d2 d3 : pystr) (e : exn) :
  _parse_posting_date (d1 ++ u "/" ++ d2 ++ u "/" ++ d3) = Raise e -> e = ValueError.
Proof.
  unfold _parse_posting_date.
  pose proof (posting_date_parts d1 d2 d3) as H3.
  destruct (subscript_in_range (split_on (ch "/") (d1 ++ u "/" ++ d2 ++ u "/" ++ d3)) 2)
    as [p2 ->]; [lia |].
  destruct (subscript_in_range (split_on (ch "/") (d1 ++ u "/" ++ d2 ++ u "/" ++ d3)) 1)
    as [p1 ->]; [lia |].
  destruct (subscript_in_range (split_on (ch "/") (d1 ++ u "/" ++ d2 ++ u "/" ++ d3)) 0)
    as [p0 ->]; [lia |].
  cbn [bind].
  destruct (int p2) as [yy | e2] eqn:I2; cbn [bind];
    [| intros E; inversion E; subst; eapply int_raises, I2].
  destruct (int p1) as [m | e1] eqn:I1; cbn [bind];
    [| intros E; inversion E; subst; eapply int_raises, I1].
  destruct (int p0) as [d | e0] eqn:I0; cbn [bind];
    [| intros E; inversion E; subst; eapply int_raises, I0].
  apply new_date_raises.
Qed.

Lemma parse_short_date_raises (d4 d5 : pystr) (y : Z) (e : exn) :
  _parse_short_date (d4 ++ u "/" ++ d5) y = Raise e -> e = ValueError.
Proof.
  unfold _parse_short_date.
  pose proof (value_date_parts d4 d5) as H2.
  destruct (subscript_in_range (split_on (ch "/") (d4 ++ u "/" ++ d5)) 1)
    as [q1 ->]; [lia |].
  destruct (subscript_in_range (split_on (ch "/") (d4 ++ u "/" ++ d5)) 0)
    as [q0 ->]; [lia |].
  cbn [bind].
  destruct (int q1) as [m | e1] eqn:J1; cbn [bind];
    [| intros E; inversion E; subst; eapply int_raises, J1].
  destruct (int q0) as [d | e0] eqn:J0; cbn [bind];
    [| intros E; inversion E; subst; eapply int_raises, J0].
  apply new_date_raises.
Qed.

Lemma make_transaction_raises (line : pystr) (dm : Match) (description_lines : list pystr)
    (amount_match : Match) (e : exn) :
  re_match TRANSACTION_DATE_PATTERN line = Some dm ->
  make_transaction (group dm 1) (group dm 2) description_lines amount_match = Raise e ->
  e = ValueError \/ e = InvalidOperation.
Proof.
  intros Hd. apply transaction_date_shape in Hd.
  destruct Hd as (d1 & d2 & d3 & d4 & d5 & -> & -> & _).
  unfold make_transaction.
  destruct (_parse_posting_date _) as [pd | e1] eqn:P; cbn [bind];
    [| intros E; inversion E; subst; left; eapply parse_posting_date_raises, P].
  destruct (_parse_short_date _ _) as [vd | e2] eqn:V; cbn [bind];
    [| intros E; inversion E; subst; left; eapply parse_short_date_raises, V].
  destruct (_parse_decimal (group amount_match 1)) as [ea | e3] eqn:P1; cbn [bind];
    [| intros E; inversion E; subst; right; eapply parse_decimal_raises, P1].
  destruct (_parse_decimal (group amount_match 2)) as [ba | e4] eqn:P2; cbn [bind];
    [discriminate | intros E; inversion E; subst; right; eapply parse_decimal_raises, P2].
Qed.

Lemma scan_lines_raises (fuel : nat) (lines : list pystr) (txs : list Transaction)
    (e : exn) :
  scan_lines fuel lines txs = Raise e -> e = ValueError \/ e = InvalidOperation.
Proof.
  revert lines txs.
  induction fuel as [| fuel IH]; intros lines txs E; [discriminate E |].
  destruct lines as [| line rest]; simpl in E; [discriminate E |].
  destruct (re_match TRANSACTION_DATE_PATTERN line) as [dm |] eqn:Ed;
    [| apply (IH _ _ E)].
  destruct (re_search AMOUNT_PATTERN line) as [am |].
  - destruct (collect_trailing _ rest) as [d lines'].
    destruct (make_transaction _ _ d am) as [tx |] eqn:Em; simpl in E;
      [apply (IH _ _ E) |].
    inversion E; subst. apply (make_transaction_raises line dm d am e Ed Em).
  - destruct (collect_until_amount _ rest) as [[d am] lines'].
    destruct am as [am |]; [| apply (IH _ _ E)].
    destruct (make_transaction _ _ d am) as [tx |] eqn:Em; simpl in E;
      [apply (IH _ _ E) |].
    inversion E; subst. apply (make_transaction_raises line dm d am e Ed Em).
Qed.

Lemma extract_pages_raises (pages_text : list pystr) (txs : list Transaction) (e : exn) :
  extract_pages pages_text txs = Raise e -> e = ValueError \/ e = InvalidOperation.
Proof.
  revert txs. induction pages_text as [| page pages IH]; intros txs E; simpl in E;
    [discriminate E |].
  destruct (extract_lines _ txs) as [t |] eqn:El; simpl in E; [apply (IH _ E) |].
  inversion E; subst. apply (scan_lines_raises _ _ _ _ El).
Qed.

End Exceptions.



(** ** The century of the posting dates *)

Section Century.
Context {U : Unicode}.
Hypothesis digit_values : forall c, isdecimal c = true -> (0 <= decimal_value c <= 9)%Z.
Hypothesis slash_is_no_digit : isdecimal (ch "/") = false.

Lemma digits_have_no_slash (d : pystr) :
  forallb isdecimal d = true -> forallb (fun x => negb (x =? ch "/")%N) d = true.
Proof.
  induction d as [| c d IH]; simpl; intros H; [reflexivity |].
  apply andb_prop in H. destruct H as [Hc Hd]. rewrite (IH Hd), andb_true_r.
  destruct (N.eqb_spec c (ch "/")) as [-> | _]; [| reflexivity].
  rewrite slash_is_no_digit in Hc. discriminate Hc.
Qed.

Lemma two_digits_value (d : pystr) :
  length d = 2%nat -> forallb isdecimal d = true ->
  exists yy, int d = Ok yy /\ (0 <= yy <= 99)%Z.
Proof.
  intros Hlen Hd.
  destruct d as [| a [| b [| c d]]]; try discriminate Hlen.
  unfold int. rewrite Hd. eexists. split; [reflexivity |].
  simpl in Hd. apply andb_prop in Hd. destruct Hd as [Ha Hb].
  rewrite andb_true_r in Hb.
  pose proof (digit_values a Ha). pose proof (digit_values b Hb).
  unfold digits_value. simpl. lia.
Qed.

Lemma posting_year_of_start_line (line : pystr) (dm : Match)
    (description_lines : list pystr) (amount_match : Match) (tx : Transaction) :
  re_match TRANSACTION_DATE_PATTERN line = Some dm ->
  make_transaction (group dm 1) (group dm 2) description_lines amount_match = Ok tx ->
  (2000 <= year (posting_date tx) <= 2099)%Z.
Proof.
  intros Hd Hm. apply transaction_date_shape in Hd.
  destruct Hd as (d1 & d2 & d3 & d4 & d5 & E1 & _ & Hall).
  apply make_transaction_years in Hm.
  destruct Hm as (yy_str & yy & Hs & Hi & Hy & _).
  inversion Hall as [| ? ? [L1 D1] Hall1]; subst.
  inversion Hall1 as [| ? ? [L2 D2] Hall2]; subst.
  inversion Hall2 as [| ? ? [L3 D3] _]; subst.
  rewrite E1 in Hs. change (u "/") with [ch "/"] in Hs. simpl app in Hs.
  rewrite !split_on_app_sep in Hs.
  rewrite !split_on_no_sep in Hs by (apply digits_have_no_slash; assumption).
  simpl in Hs. inversion Hs; subst yy_str.
  destruct (two_digits_value d3 L3 D3) as (v & Hv & Hr).
  rewrite Hv in Hi. inversion Hi; subst. lia.
Qed.

Lemma extract_pages_posting_century (pages_text : list pystr) (txs r : list Transaction) :
  Forall (fun tx => (2000 <= year (posting_date tx) <= 2099)%Z) txs ->
  extract_pages pages_text txs = Ok r ->
  Forall (fun tx => (2000 <= year (posting_date tx) <= 2099)%Z) r.
Proof.
  revert txs.
  induction pages_text as [| page pages IH]; intros txs Htxs E; simpl in E.
  - inversion E; subst. exact Htxs.
  - destruct (extract_lines _ txs) as [txs' |] eqn:El; simpl in E; [| discriminate].
    apply (IH txs'); [| exact E].
    unfold extract_lines in El.
    apply (scan_lines_provenance _ _ _ _ _ Htxs) in El; [exact El |].
    intros line dm d am tx _ Hd Hm. apply (posting_year_of_start_line line dm d am tx Hd Hm).
Qed.

End Century.

(** X15. Every posting date of a parsed statement is in the years 2000 to
    2099, and so is every value date: the two digits of the year are added
    to 2000. (The tables of the runtime give a decimal character a value
    from 0 to 9, and the slash is not one.) *)
Theorem posting_dates_are_in_this_century `{U : Unicode} (today : date)
    (pages_text : list pystr) (s : BankStatement) :
  (forall c, isdecimal c = true -> (0 <= decimal_value c <= 9)%Z) ->
  isdecimal (ch "/") = false ->
  parse today pages_text = Ok s ->
  Forall (fun tx => (2000 <= year (posting_date tx) <= 2099)%Z
                    /\ (2000 <= year (value_date tx) <= 2099)%Z)
         (transactions s).
Proof.
  intros Hv Hs E.
  pose proof (parsed_transactions_are_well_formed_aux today pages_text s E) as Hw.
  apply parse_transactions in E.
  apply (extract_pages_posting_century Hv Hs pages_text [] (transactions s)) in E;
    [| constructor].
  rewrite Forall_forall in *. intros tx Hin.
  specialize (E tx Hin). specialize (Hw tx Hin). lia.
Qed.

Lemma latin_cyrillic_digit_values (c : cp) :
  @isdecimal latin_cyrillic c = true -> (0 <= @decimal_value latin_cyrillic c <= 9)%Z.
Proof.
  simpl. unfold lc_isdecimal. intros H.
  apply andb_prop in H. destruct H as [H1 H2].
  apply N.leb_le in H1. apply N.leb_le in H2. lia.
Qed.

Lemma posting_dates_are_in_this_century_witness :
  exists s,
    parse (mkDate 2026 11 4) [statement_page_of_year "1999"] = Ok s
    /\ year (from_date (period (statement s))) = 1999%Z
    /\ Forall (fun tx => (2000 <= year (posting_date tx) <= 2099)%Z
                         /\ (2000 <= year (value_date tx) <= 2099)%Z)
              (transactions s).
Proof.
  destruct (parse (mkDate 2026 11 4) [statement_page_of_year "1999"]) as [s |] eqn:E;
    [| vm_compute in E; discriminate].
  exists s. split; [reflexivity |].
  split.
  - vm_compute in E. inversion E; subst. reflexivity.
  - apply (posting_dates_are_in_this_century (mkDate 2026 11 4)
             [statement_page_of_year "1999"] s latin_cyrillic_digit_values eq_refl E).
Defined.

(** ** Thousands separators *)

(** X16. Commas and spaces are dropped wherever they stand in a number
    before it is converted: a number reads the same with a comma or a space
    inserted at any place, not only between groups of three digits. *)
Theorem parse_decimal_ignores_separators `{U : Unicode} (before after : pystr) :
  _parse_decimal (before ++ u "," ++ after) = _parse_decimal (before ++ after)
  /\ _parse_decimal (before ++ u " " ++ after) = _parse_decimal (before ++ after).
Proof.
  unfold _parse_decimal, remove_char.
  split; rewrite !filter_app; reflexivity.
Qed.

Lemma parse_decimal_ignores_separators_witness :
  _parse_decimal (u "1,23,4.5,6") = Ok (mkDecimal false 123456 2)
  /\ _parse_decimal (u "1,23" ++ u "," ++ u "4.5,6") = _parse_decimal (u "1,23" ++ u "4.5,6").
Proof.
  split; [vm_compute; reflexivity |].
  apply (proj1 (parse_decimal_ignores_separators (u "1,23") (u "4.5,6"))).
Defined.

(** ** The totals of a parsed statement *)

Lemma sum_amounts_nonneg (sel : Transaction -> bool) (cur : Balance -> Decimal)
    (txs : list Transaction) :
  Forall (fun tx => (0 <= d_val (cur (amount tx)))%Q) txs ->
  (0 <= sum_amounts sel cur txs)%Q.
Proof.
  induction 1 as [| tx txs Htx _ IH]; simpl; [apply Qle_refl |].
  destruct (sel tx).
  - replace 0%Q with (0 + 0)%Q by reflexivity. apply Qplus_le_compat; assumption.
  - replace 0%Q with (0 + 0)%Q by reflexivity.
    apply Qplus_le_compat; [apply Qle_refl | assumption].
Qed.



(** ** The shape of the currency and of the IBAN *)

Section HeaderShape.
Context {U : Unicode}.

Lemma subject_at (s : pystr) (k : nat) (rest : pystr) :
  skipn k s = rest -> (k <= length s)%nat ->
  s = firstn k s ++ rest /\ length (firstn k s) = k.
Proof.
  intros <- Hk. split; [symmetry; apply firstn_skipn |].
  rewrite length_firstn. lia.
Qed.

Lemma forallb_capital (run : pystr) :
  forallb (atom_matches no_flags (ASet [IRange (ch "A") (ch "Z")])) run
  = forallb is_capital run.
Proof.
  induction run as [| c run IH]; simpl; [reflexivity |].
  rewrite IH. unfold atom_matches, set_matches, is_capital.
  cbn [existsb item_matches IGNORECASE no_flags]. rewrite orb_false_r. reflexivity.
Qed.

Lemma forallb_word (run : pystr) :
  forallb (atom_matches no_flags word) run = forallb is_word_char run.
Proof.
  induction run as [| c run IH]; simpl; [reflexivity |].
  rewrite IH. unfold atom_matches, set_matches, is_word_char.
  cbn [existsb item_matches IGNORECASE no_flags word]. rewrite orb_false_r. reflexivity.
Qed.

Lemma currency_shape (s : pystr) (m : Match) :
  re_search CURRENCY_PATTERN s = Some m ->
  length (group m 1) = 3%nat /\ forallb is_capital (group m 1) = true.
Proof.
  intros Es. apply re_search_here in Es. destruct Es as (Hk & prev & Eh).
  unfold match_here in Eh.
  destruct (rmatch _ _ _ _) as [res |] eqn:E; [| discriminate].
  inversion Eh as [Hm]. clear Eh.
  destruct (subject_at s (m_start m) _ eq_refl Hk) as [Hs Hl].
  set (k := m_start m) in *. set (rest := skipn k s) in *. clearbody rest.
  unfold CURRENCY_PATTERN, compile, lit, plus, times in E.
  cbn [p_regex p_flags seq] in E.
  apply rmatch_seq_lit in E.
  destruct E as (r1 & p1 & L1 & E). cbn [ms_rest ms_pos ms_groups] in *.
  apply rmatch_seq_rep in E.
  destruct E as (blanks & r2 & p2 & L2 & _ & _ & E). cbn [ms_rest ms_pos ms_groups] in *.
  cbn [rmatch ms_pos ms_prev ms_rest ms_groups] in E.
  apply rep_match_run_bounded in E.
  destruct E as (run & r3 & p3 & L3 & Hall & Hlo & Hhi & E).
  inversion E; subst res; clear E.
  rewrite forallb_capital in Hall.
  assert (Hn : length run = 3%nat) by lia.
  unfold group. cbn [m_groups m_string ms_groups lookup_group Nat.eqb].
  match goal with
  | |- context [slice s ?a ?b] => assert (Hslice : slice s a b = run)
  end.
  { rewrite Hs at 1. rewrite L1, L2, L3.
    rewrite (app_assoc (u "Валута")), (app_assoc (firstn k s)).
    apply slice_middle.
    - rewrite !length_app, Hl. simpl length. lia.
    - rewrite !length_app, Hl. simpl length. lia. }
  rewrite Hslice. split; assumption.
Qed.

Lemma iban_shape (s : pystr) (m : Match) :
  re_search IBAN_PATTERN s = Some m ->
  exists run,
    group m 1 = u "BG" ++ run /\ run <> [] /\ forallb is_word_char run = true.
Proof.
  intros Es. apply re_search_here in Es. destruct Es as (Hk & prev & Eh).
  unfold match_here in Eh.
  destruct (rmatch _ _ _ _) as [res |] eqn:E; [| discriminate].
  inversion Eh as [Hm]. clear Eh.
  destruct (subject_at s (m_start m) _ eq_refl Hk) as [Hs Hl].
  set (k := m_start m) in *. set (rest := skipn k s) in *. clearbody rest.
  unfold IBAN_PATTERN, compile, lit, plus, star in E.
  cbn [p_regex p_flags seq] in E.
  apply rmatch_seq_lit in E.
  destruct E as (r1 & p1 & L1 & E). cbn [ms_rest ms_pos ms_groups] in *.
  apply rmatch_seq_rep in E.
  destruct E as (blanks & r2 & p2 & L2 & _ & _ & E). cbn [ms_rest ms_pos ms_groups] in *.
  change (rmatch no_flags (Seq (Lit (u "BG")) (Rep word 1 None true))
            (fun st' =>
               Some (mkMstate (ms_pos st') (ms_prev st') (ms_rest st')
                       ((1%nat, (k + length (u "IBAN:") + length blanks, ms_pos st')%nat)
                          :: ms_groups st')))
            (mkMstate (k + length (u "IBAN:") + length blanks) p2 r2 []) = Some res) in E.
  apply rmatch_seq_lit in E.
  destruct E as (r3 & p3 & L3 & E). cbn [ms_rest ms_pos ms_groups] in *.
  cbn [rmatch ms_pos ms_prev ms_rest ms_groups] in E.
  apply rep_match_run in E.
  destruct E as (run & r4 & p4 & L4 & Hall & Hlo & E).
  inversion E; subst res; clear E.
  rewrite forallb_word in Hall.
  exists run. unfold group. cbn [m_groups m_string ms_groups lookup_group Nat.eqb].
  split; [| split; [destruct run; [simpl in Hlo; lia | discriminate] | exact Hall]].
  rewrite Hs at 1. rewrite L1, L2, L3, L4.
  rewrite (app_assoc (u "BG") run r4).
  rewrite (app_assoc (u "IBAN:")), (app_assoc (firstn k s)).
  apply slice_middle.
  - rewrite !length_app, Hl. simpl length. lia.
  - rewrite !length_app, Hl. simpl length. lia.
Qed.

End HeaderShape.

(** X18. The currency of a header is always three capital Latin letters
    (those after the currency label, or [EUR]), and the IBAN is either empty
    or [BG] followed by at least one word character: its length and its
    check digits are not examined. *)
Theorem header_currency_and_iban_shape `{U : Unicode} (today : date)
    (pages_text : list pystr) (h : Header) :
  extract_header today pages_text = Ok h ->
  (length (h_currency h) = 3%nat /\ forallb is_capital (h_currency h) = true)
  /\ (h_iban h = []
      \/ exists run, h_iban h = u "BG" ++ run /\ run <> []
                     /\ forallb is_word_char run = true).
Proof.
  unfold extract_header.
  destruct (match re_search PERIOD_PATTERN _ with Some _ => _ | None => _ end);
    simpl; [| discriminate].
  destruct (match re_search STATEMENT_NUM_PATTERN _ with Some _ => _ | None => _ end);
    simpl; [| discriminate].
  destruct (match re_search OPENING_BALANCE_PATTERN _ with Some _ => _ | None => _ end);
    simpl; [| discriminate].
  intros E. inversion E; subst; clear E. simpl.
  split.
  - destruct (re_search CURRENCY_PATTERN _) as [m |] eqn:Ec.
    + apply (currency_shape _ _ Ec).
    + split; vm_compute; reflexivity.
  - destruct (re_search IBAN_PATTERN _) as [m |] eqn:Ei.
    + right. apply (iban_shape _ _ Ei).
    + left. reflexivity.
Qed.

Lemma header_currency_and_iban_shape_witness :
  fmap (fun h => (h_currency h, h_iban h))
    (extract_header (mkDate 2026 11 4) [u "Валута USD x IBAN: BG1 Валута eur"])
  = Ok (u "USD", u "BG1").
Proof.
  destruct (extract_header (mkDate 2026 11 4) [u "Валута USD x IBAN: BG1 Валута eur"])
    as [h |] eqn:E; [| vm_compute in E; discriminate].
  destruct (header_currency_and_iban_shape (mkDate 2026 11 4)
              [u "Валута USD x IBAN: BG1 Валута eur"] h E) as [[Hlen _] _].
  vm_compute in E. inversion E; subst h. reflexivity.
Defined.
